(** * Document parser service: a shallow embedding of [parser_service.py]

    The development follows the layout of
    [server/src/services/parsing/parser_service.py]:

    - [Py]       the Python built-ins the service calls ([str] methods,
                 [bytes.decode], [str.encode], [str(int)]);
    - [Hashlib]  SHA-256, as used by [generate_document_id];
    - [Clock]    [time.time()] and exceptions, threaded as explicit state;
    - the Pydantic models, as records;
    - [generate_document_id], the Markdown, plain-text and HTML normalizers
      (over the tree of [Bs4]), the adapter of the conversion backend (over
      the objects of [Docling]), the dispatch function [parse] and the
      endpoints [health] and [get_formats];
    - the properties of the normalizers.

    Python [str] values are sequences of Unicode code points, Python [int]
    values are unbounded integers; both are modelled as such.  The external
    libraries (the HTML parser, the conversion backend, Base64 decoding)
    are parameters of the functions that call them; a call that can raise
    returns a [result]. *)

From Stdlib Require Import List ZArith NArith Bool Lia Ascii String QArith Qround.
From Stdlib Require Import Strings.Byte.
From Stdlib Require Import Numbers.DecimalString Numbers.DecimalZ Numbers.DecimalPos.
Import ListNotations.

Local Close Scope Q_scope.
Local Open Scope list_scope.

(* ================================================================== *)
(** * Python built-ins *)
(* ================================================================== *)

Module Py.

(** A [str] is a sequence of code points; [bytes] is a sequence of octets. *)
Definition char := N.
Definition str := list char.
Definition bytes := list byte.

(** Literals: [ch "#"] is the code point of an ASCII character and
    [u "abc"] the [str] of an ASCII literal.  [nl] is ['\n']. *)
Definition ch (a : ascii) : char := N_of_ascii a.
Definition u (s : string) : str := map ch (list_ascii_of_string s).
Definition nl : char := 10%N.

Fixpoint str_eqb (a b : str) : bool :=
  match a, b with
  | [], [] => true
  | x :: a', y :: b' => (x =? y)%N && str_eqb a' b'
  | _, _ => false
  end.

(** Truth value of a [str] / of a list: non-empty. *)
Definition truthy {A} (l : list A) : bool :=
  match l with [] => false | _ :: _ => true end.

(** [a or b] on optional strings, as in [line[3:].strip() or None]. *)
Definition or_None (s : str) : option str :=
  if truthy s then Some s else None.

(** ** Character classes (CPython 3.11, Unicode 14.0.0) *)

Definition in_ranges (tbl : list (N * N)) (c : char) : bool :=
  existsb (fun r => (fst r <=? c)%N && (c <=? snd r)%N) tbl.

(** [str.isspace] for one character. *)
Definition space_ranges : list (N * N) :=
  [ (0x9, 0xd); (0x1c, 0x20); (0x85, 0x85); (0xa0, 0xa0); (0x1680, 0x1680);
    (0x2000, 0x200a); (0x2028, 0x2029); (0x202f, 0x202f); (0x205f, 0x205f);
    (0x3000, 0x3000) ]%N.

Definition isspace (c : char) : bool := in_ranges space_ranges c.

(** [str.isdigit] for one character: the decimal digits of every script and
    the other characters with a digit value (superscripts, circled digits). *)
Definition digit_ranges : list (N * N) :=
  [ (0x30, 0x39); (0xb2, 0xb3); (0xb9, 0xb9); (0x660, 0x669); (0x6f0, 0x6f9);
    (0x7c0, 0x7c9); (0x966, 0x96f); (0x9e6, 0x9ef); (0xa66, 0xa6f);
    (0xae6, 0xaef); (0xb66, 0xb6f); (0xbe6, 0xbef); (0xc66, 0xc6f);
    (0xce6, 0xcef); (0xd66, 0xd6f); (0xde6, 0xdef); (0xe50, 0xe59);
    (0xed0, 0xed9); (0xf20, 0xf29); (0x1040, 0x1049); (0x1090, 0x1099);
    (0x1369, 0x1371); (0x17e0, 0x17e9); (0x1810, 0x1819); (0x1946, 0x194f);
    (0x19d0, 0x19da); (0x1a80, 0x1a89); (0x1a90, 0x1a99); (0x1b50, 0x1b59);
    (0x1bb0, 0x1bb9); (0x1c40, 0x1c49); (0x1c50, 0x1c59); (0x2070, 0x2070);
    (0x2074, 0x2079); (0x2080, 0x2089); (0x2460, 0x2468); (0x2474, 0x247c);
    (0x2488, 0x2490); (0x24ea, 0x24ea); (0x24f5, 0x24fd); (0x24ff, 0x24ff);
    (0x2776, 0x277e); (0x2780, 0x2788); (0x278a, 0x2792); (0xa620, 0xa629);
    (0xa8d0, 0xa8d9); (0xa900, 0xa909); (0xa9d0, 0xa9d9); (0xa9f0, 0xa9f9);
    (0xaa50, 0xaa59); (0xabf0, 0xabf9); (0xff10, 0xff19); (0x104a0, 0x104a9);
    (0x10a40, 0x10a43); (0x10d30, 0x10d39); (0x10e60, 0x10e68);
    (0x11052, 0x1105a); (0x11066, 0x1106f); (0x110f0, 0x110f9);
    (0x11136, 0x1113f); (0x111d0, 0x111d9); (0x112f0, 0x112f9);
    (0x11450, 0x11459); (0x114d0, 0x114d9); (0x11650, 0x11659);
    (0x116c0, 0x116c9); (0x11730, 0x11739); (0x118e0, 0x118e9);
    (0x11950, 0x11959); (0x11c50, 0x11c59); (0x11d50, 0x11d59);
    (0x11da0, 0x11da9); (0x16a60, 0x16a69); (0x16ac0, 0x16ac9);
    (0x16b50, 0x16b59); (0x1d7ce, 0x1d7ff); (0x1e140, 0x1e149);
    (0x1e2f0, 0x1e2f9); (0x1e950, 0x1e959); (0x1f100, 0x1f10a);
    (0x1fbf0, 0x1fbf9) ]%N.

Definition isdigit (c : char) : bool := in_ranges digit_ranges c.

(** ** [str] methods *)

(** [s.startswith(prefix)] *)
Fixpoint startswith (s prefix : str) : bool :=
  match prefix, s with
  | [], _ => true
  | p :: prefix', c :: s' => (c =? p)%N && startswith s' prefix'
  | _ :: _, [] => false
  end.

(** [s.startswith((p1, p2, ...))] *)
Definition startswith_any (s : str) (prefixes : list str) : bool :=
  existsb (startswith s) prefixes.

(** [sub in s] *)
Fixpoint contains (sub s : str) : bool :=
  startswith s sub ||
  match s with
  | [] => false
  | _ :: s' => contains sub s'
  end.

(** Removal of a leading / trailing run of characters. *)
Fixpoint lstrip_by (drop : char -> bool) (s : str) : str :=
  match s with
  | [] => []
  | c :: s' => if drop c then lstrip_by drop s' else s
  end.

Definition rstrip_by (drop : char -> bool) (s : str) : str :=
  rev (lstrip_by drop (rev s)).

(** [s.strip()], [s.lstrip(chars)] *)
Definition strip (s : str) : str := rstrip_by isspace (lstrip_by isspace s).

Definition mem (c : char) (chars : str) : bool := existsb (N.eqb c) chars.

Definition lstrip (s chars : str) : str := lstrip_by (fun c => mem c chars) s.

(** [sep.join(parts)] *)
Fixpoint join (sep : str) (parts : list str) : str :=
  match parts with
  | [] => []
  | [p] => p
  | p :: rest => p ++ sep ++ join sep rest
  end.

(** [s.split(sep)] for a non-empty separator: the occurrences of [sep] are
    found left to right and do not overlap.  [skip] counts the characters of
    a matched separator still to pass over, [cur] holds the current piece in
    reverse. *)
Fixpoint split_from (sep s : str) (skip : nat) (cur : str) : list str :=
  match s with
  | [] => [rev cur]
  | c :: s' =>
      match skip with
      | S k => split_from sep s' k cur
      | O =>
          if startswith s sep
          then rev cur :: split_from sep s' (List.length sep - 1) []
          else split_from sep s' 0 (c :: cur)
      end
  end.

Definition split (s sep : str) : list str := split_from sep s 0 [].

(** [s.lower()].  ASCII capitals are mapped to small letters; so are the two
    other code points whose lower-case form contains an ASCII letter (U+212A
    KELVIN SIGN, U+0130).  Every other code point lower-cases to non-ASCII
    text and is kept as it is: the service only compares lower-cased text
    with ASCII keys, and those comparisons are unaffected. *)
Definition lower_char (c : char) : str :=
  if ((0x41 <=? c) && (c <=? 0x5a))%N then [(c + 32)%N]
  else if (c =? 0x212a)%N then [ch "k"]
  else if (c =? 0x130)%N then [ch "i"; 0x307%N]
  else [c].

Definition lower (s : str) : str := flat_map lower_char s.

(** [str(n)] for an [int]. *)
Definition str_of_int (n : Z) : str := u (NilZero.string_of_int (Z.to_int n)).

(** [int(c)] for a one-character string holding an ASCII digit. *)
Definition int_of_digit (c : char) : option Z :=
  if ((0x30 <=? c) && (c <=? 0x39))%N then Some (Z.of_N (c - 0x30)) else None.

(** ** Encoding and decoding *)

(** Python exceptions are values carrying the exception class and message. *)
Record exn := Exception { exn_class : string; exn_msg : str }.

Definition result (A : Type) := sum exn A.

Definition is_surrogate (c : char) : bool := ((0xd800 <=? c) && (c <=? 0xdfff))%N.

Definition b_ (n : N) : byte :=
  match Byte.of_N n with Some b => b | None => x00 end.

(** [s.encode()]: UTF-8, strict; a surrogate cannot be encoded.  A [str]
    holds code points below [0x110000]. *)
Definition encode_char (c : char) : option bytes :=
  if (c <? 0x80)%N then Some [b_ c]
  else if (c <? 0x800)%N then Some [b_ (0xc0 + c / 64); b_ (0x80 + c mod 64)]
  else if is_surrogate c then None
  else if (c <? 0x10000)%N then
    Some [b_ (0xe0 + c / 4096); b_ (0x80 + (c / 64) mod 64); b_ (0x80 + c mod 64)]
  else if (c <? 0x110000)%N then
    Some [b_ (0xf0 + c / 262144); b_ (0x80 + (c / 4096) mod 64);
          b_ (0x80 + (c / 64) mod 64); b_ (0x80 + c mod 64)]
  else None.

(** [str(e)] of the [UnicodeEncodeError] that [s.encode()] raises: the
    encoder stops at the first surrogate, at index [start], and reports the
    run [start .. stop - 1] of consecutive surrogates that begins there; a
    run of one is shown with its escape [\udXXX]. *)
Definition hex_digit (n : N) : char := (if n <? 10 then 0x30 + n else 0x57 + n)%N.

Definition escape_u (c : char) : str :=
  u "\u" ++ [hex_digit (c / 4096); hex_digit ((c / 256) mod 16);
             hex_digit ((c / 16) mod 16); hex_digit (c mod 16)]%N.

Fixpoint surrogates (s : str) : Z :=
  match s with
  | c :: s' => if is_surrogate c then (1 + surrogates s')%Z else 0%Z
  | [] => 0%Z
  end.

Definition UnicodeEncodeError (c : char) (start stop : Z) : exn :=
  Exception "UnicodeEncodeError"
    (u "'utf-8' codec can't encode "
     ++ (if (stop =? start + 1)%Z
         then u "character '" ++ escape_u c ++ u "' in position "
              ++ str_of_int start
         else u "characters in position " ++ str_of_int start ++ u "-"
              ++ str_of_int (stop - 1)%Z)
     ++ u ": surrogates not allowed").

(** The encoder from index [pos] on. *)
Fixpoint encode_from (pos : Z) (s : str) : result bytes :=
  match s with
  | [] => inr []
  | c :: s' =>
      match encode_char c with
      | None => inl (UnicodeEncodeError c pos (pos + 1 + surrogates s')%Z)
      | Some bs =>
          match encode_from (pos + 1)%Z s' with
          | inl e => inl e
          | inr rest => inr (bs ++ rest)
          end
      end
  end.

Definition encode (s : str) : result bytes := encode_from 0%Z s.

(** [b.decode('utf-8', errors=...)].  A well-formed sequence yields its code
    point.  At an ill-formed sequence the [Strict] handler raises, the
    [Replace] handler emits U+FFFD for the longest prefix of the sequence
    that could still start a well-formed one (at least one byte) and resumes
    right after it. *)
Inductive errors := Strict | Replace.

Definition replacement : char := 0xfffd%N.

Definition is_cont (b : N) : bool := ((0x80 <=? b) && (b <=? 0xbf))%N.

(** Admissible range of the second byte after lead byte [b0]. *)
Definition second_ok (b0 b1 : N) : bool :=
  if (b0 =? 0xe0)%N then ((0xa0 <=? b1) && (b1 <=? 0xbf))%N
  else if (b0 =? 0xed)%N then ((0x80 <=? b1) && (b1 <=? 0x9f))%N
  else if (b0 =? 0xf0)%N then ((0x90 <=? b1) && (b1 <=? 0xbf))%N
  else if (b0 =? 0xf4)%N then ((0x80 <=? b1) && (b1 <=? 0x8f))%N
  else is_cont b1.

(** One decoding step: [Some (c, rest)] for a well-formed sequence at the
    head of the input, [None] followed by the number of bytes of the
    ill-formed prefix otherwise. *)
Definition decode_one (b0 : N) (rest : list N) : (option char * nat) :=
  if (b0 <? 0x80)%N then (Some b0, 1)
  else if (b0 <? 0xc2)%N then (None, 1)
  else if (b0 <? 0xe0)%N then
    match rest with
    | b1 :: _ =>
        if is_cont b1 then (Some ((b0 - 0xc0) * 64 + (b1 - 0x80))%N, 2)
        else (None, 1)
    | [] => (None, 1)
    end
  else if (b0 <? 0xf0)%N then
    match rest with
    | b1 :: rest1 =>
        if second_ok b0 b1 then
          match rest1 with
          | b2 :: _ =>
              if is_cont b2
              then (Some ((b0 - 0xe0) * 4096 + (b1 - 0x80) * 64 + (b2 - 0x80))%N, 3)
              else (None, 2)
          | [] => (None, 2)
          end
        else (None, 1)
    | [] => (None, 1)
    end
  else if (b0 <? 0xf5)%N then
    match rest with
    | b1 :: rest1 =>
        if second_ok b0 b1 then
          match rest1 with
          | b2 :: rest2 =>
              if is_cont b2 then
                match rest2 with
                | b3 :: _ =>
                    if is_cont b3
                    then (Some ((b0 - 0xf0) * 262144 + (b1 - 0x80) * 4096
                                + (b2 - 0x80) * 64 + (b3 - 0x80))%N, 4)
                    else (None, 3)
                | [] => (None, 3)
                end
              else (None, 2)
          | [] => (None, 2)
          end
        else (None, 1)
    | [] => (None, 1)
    end
  else (None, 1).

(** The decoding loop; [skip] counts the bytes of the current sequence that
    were already consumed by [decode_one]. *)
Fixpoint decode_from (h : errors) (bs : list N) (skip : nat) : result str :=
  match bs with
  | [] => inr []
  | b0 :: rest =>
      match skip with
      | S k => decode_from h rest k
      | O =>
          let '(oc, n) := decode_one b0 rest in
          match oc, h with
          | None, Strict =>
              inl (Exception "UnicodeDecodeError" (u "invalid utf-8 sequence"))
          | _, _ =>
              match decode_from h rest (n - 1) with
              | inl e => inl e
              | inr s =>
                  inr (match oc with Some c => c | None => replacement end :: s)
              end
          end
      end
  end.

Definition decode (b : bytes) (h : errors) : result str :=
  decode_from h (map Byte.to_N b) 0.

End Py.

Import Py.

(* ================================================================== *)
(** * [hashlib.sha256] *)
(* ================================================================== *)

Module Hashlib.

(** 32-bit words are numbers below [2^32]; additions wrap around. *)
Definition wrap (x : N) : N := (x mod 0x100000000)%N.
Definition add32 (a b : N) : N := wrap (a + b).
Definition rotr (n x : N) : N := N.lor (N.shiftr x n) (wrap (N.shiftl x (32 - n))).
Definition not32 (x : N) : N := N.lxor x 0xffffffff.

Definition Ch (x y z : N) : N := N.lxor (N.land x y) (N.land (not32 x) z).
Definition Maj (x y z : N) : N :=
  N.lxor (N.lxor (N.land x y) (N.land x z)) (N.land y z).
Definition Sigma0 (x : N) : N := N.lxor (N.lxor (rotr 2 x) (rotr 13 x)) (rotr 22 x).
Definition Sigma1 (x : N) : N := N.lxor (N.lxor (rotr 6 x) (rotr 11 x)) (rotr 25 x).
Definition sigma0 (x : N) : N := N.lxor (N.lxor (rotr 7 x) (rotr 18 x)) (N.shiftr x 3).
Definition sigma1 (x : N) : N := N.lxor (N.lxor (rotr 17 x) (rotr 19 x)) (N.shiftr x 10).

(** The round constants and the initial hash value are the first 32 bits of
    the fractional parts of the cube roots of the first 64 primes, and of
    the square roots of the first 8 primes. *)
Definition is_prime (n : nat) : bool :=
  forallb (fun d => negb (Nat.eqb (Nat.modulo n d) 0)) (seq 2 (n - 2)).

Definition primes (count bound : nat) : list nat :=
  firstn count (filter is_prime (seq 2 bound)).

(** The integer [k]-th root of [x], bit by bit from bit [bits - 1] down. *)
Fixpoint root_bits (k : N) (bits : nat) (x r : N) : N :=
  match bits with
  | O => r
  | S b =>
      let r' := (r + 2 ^ N.of_nat b)%N in
      if (r' ^ k <=? x)%N then root_bits k b x r' else root_bits k b x r
  end.

Definition frac_root (k : N) (p : nat) : N :=
  wrap (root_bits k 40 (N.of_nat p * 2 ^ (32 * k)) 0).

Definition K : list N := Eval vm_compute in map (frac_root 3) (primes 64 400).

Definition H0 : list N := Eval vm_compute in map (frac_root 2) (primes 8 400).

(** Big-endian octets of a number, [n] of them. *)
Fixpoint be_octets (n : nat) (x : N) : list N :=
  match n with
  | O => []
  | S k => ((x / 256 ^ N.of_nat k) mod 256)%N :: be_octets k x
  end.

(** Padding: a 1 bit, zeros up to 56 modulo 64 octets, the bit length. *)
Definition pad (msg : list N) : list N :=
  let len := List.length msg in
  let zeros := (64 - (len + 9) mod 64) mod 64 in
  msg ++ [0x80%N] ++ repeat 0%N zeros ++ be_octets 8 (8 * N.of_nat len).

Fixpoint chunks {A} (size fuel : nat) (l : list A) : list (list A) :=
  match fuel, l with
  | _, [] => []
  | O, _ => []
  | S f, _ => firstn size l :: chunks size f (skipn size l)
  end.

Definition word_of (bs : list N) : N :=
  fold_left (fun acc b => (acc * 256 + b)%N) bs 0%N.

(** The message schedule: 16 words of the block, extended to 64. *)
Fixpoint extend (n : nat) (w : list N) : list N :=
  match n with
  | O => w
  | S k =>
      let i := List.length w in
      let wi := add32 (add32 (sigma1 (nth (i - 2) w 0%N)) (nth (i - 7) w 0%N))
                      (add32 (sigma0 (nth (i - 15) w 0%N)) (nth (i - 16) w 0%N)) in
      extend k (w ++ [wi])
  end.

Definition schedule (block : list N) : list N :=
  extend 48 (map word_of (chunks 4 16 block)).

Record regs := Regs { ra : N; rb : N; rc : N; rd : N; re : N; rf : N; rg : N; rh : N }.

Definition round (r : regs) (kw : N * N) : regs :=
  let t1 := add32 (add32 (add32 (rh r) (Sigma1 (re r))) (Ch (re r) (rf r) (rg r)))
                  (add32 (fst kw) (snd kw)) in
  let t2 := add32 (Sigma0 (ra r)) (Maj (ra r) (rb r) (rc r)) in
  Regs (add32 t1 t2) (ra r) (rb r) (rc r) (add32 (rd r) t1) (re r) (rf r) (rg r).

Definition regs_of (h : list N) : regs :=
  Regs (nth 0 h 0%N) (nth 1 h 0%N) (nth 2 h 0%N) (nth 3 h 0%N)
       (nth 4 h 0%N) (nth 5 h 0%N) (nth 6 h 0%N) (nth 7 h 0%N).

Definition list_of (r : regs) : list N :=
  [ra r; rb r; rc r; rd r; re r; rf r; rg r; rh r].

Definition compress (h : list N) (block : list N) : list N :=
  let r := fold_left round (combine K (schedule block)) (regs_of h) in
  map (fun p => add32 (fst p) (snd p)) (combine h (list_of r)).

Definition digest_words (msg : list N) : list N :=
  let padded := pad msg in
  fold_left compress (chunks 64 (List.length padded) padded) H0.

Definition hex_digit (d : N) : char :=
  if (d <? 10)%N then (0x30 + d)%N else (0x61 + (d - 10))%N.

Definition hex_octet (b : N) : str := [hex_digit (b / 16); hex_digit (b mod 16)].

(** The hasher object: the octets fed so far. *)
Record hasher := Hasher { fed : bytes }.

Definition sha256 : hasher := Hasher [].
Definition update (h : hasher) (data : bytes) : hasher := Hasher (fed h ++ data).

Definition digest (h : hasher) : list N :=
  flat_map (be_octets 4) (digest_words (map Byte.to_N (fed h))).

Definition hexdigest (h : hasher) : str := flat_map hex_octet (digest h).

End Hashlib.

(* ================================================================== *)
(** * [time.time()] and exceptions *)
(* ================================================================== *)

(** The service reads the wall clock and may raise.  A computation takes the
    state of the world (how often the clock was read so far, and what each
    reading returns) and yields a value or an exception, and the new state.
    Clock readings are Python floats; they are modelled as rationals. *)
Module Clock.

Record world := World { reads : nat; wall : nat -> Q }.

Definition M (A : Type) : Type := world -> result A * world.

Definition ret {A} (a : A) : M A := fun w => (inr a, w).

Definition bind {A B} (m : M A) (k : A -> M B) : M B :=
  fun w =>
    match m w with
    | (inl e, w') => (inl e, w')
    | (inr a, w') => k a w'
    end.

Definition lift {A} (r : result A) : M A := fun w => (r, w).

(** [time.time()] *)
Definition read_clock (w : world) : Q * world :=
  (wall w (reads w), World (S (reads w)) (wall w)).

Definition time : M Q := fun w => (inr (fst (read_clock w)), snd (read_clock w)).

(** [int(x)] for a float: truncation towards zero. *)
Definition int_of_float (x : Q) : Z := Z.quot (Qnum x) (Zpos (Qden x)).

End Clock.

Import Clock.

Notation "x <- m ;; k" := (bind m (fun x => k))
  (at level 61, m at next level, right associativity).

(* ================================================================== *)
(** * Pydantic models *)
(* ================================================================== *)

Local Open Scope Z_scope.

Record TableCell := {
  cell_content : str;
  row : Z;
  col : Z;
  rowSpan : Z;
  colSpan : Z;
  isHeader : bool
}.

(** [TableCell(content=..., row=..., col=..., isHeader=...)]; the spans
    default to 1. *)
Definition new_TableCell (content : str) (r c : Z) (is_header : bool) : TableCell :=
  {| cell_content := content; row := r; col := c;
     rowSpan := 1; colSpan := 1; isHeader := is_header |}.

Record TableStructure := {
  rows : Z;
  cols : Z;
  headers : list str;
  cells : list TableCell;
  markdown : str;
  hasHeader : bool
}.

Record ImageMetadata := {
  src : option str;
  alt : option str;
  width : option Z;
  height : option Z
}.

(** The values the service assigns to [ContentBlock.type] and to
    [ContentBlock.listType]. *)
Inductive BlockType :=
  paragraph | heading | table_ | list_ | code | image_ | caption | footer | header.

Inductive ListType := ordered | unordered.

Record ContentBlock := {
  type : BlockType;
  content : str;
  pageNumber : option Z;
  position : Z;
  headingLevel : option Z;
  listType : option ListType;
  listItems : option (list str);
  table : option TableStructure;
  codeLanguage : option str;
  image : option ImageMetadata;
  confidence : option Q
}.

(** [ContentBlock(type=..., content=..., position=..., pageNumber=...)]: the fields
    not passed to the constructor take their default, [None]. *)
Definition new_ContentBlock (ty : BlockType) (text : str) (pos : Z)
    (page : option Z) : ContentBlock :=
  {| type := ty; content := text; pageNumber := page; position := pos;
     headingLevel := None; listType := None; listItems := None;
     table := None; codeLanguage := None; image := None; confidence := None |}.

(** The same constructor with one or two more keyword arguments. *)
Definition heading_block (text : str) (pos level : Z) (page : option Z) : ContentBlock :=
  {| type := heading; content := text; pageNumber := page; position := pos;
     headingLevel := Some level; listType := None; listItems := None;
     table := None; codeLanguage := None; image := None; confidence := None |}.

Definition code_block (text : str) (pos : Z) (lang : option str)
    (page : option Z) : ContentBlock :=
  {| type := code; content := text; pageNumber := page; position := pos;
     headingLevel := None; listType := None; listItems := None;
     table := None; codeLanguage := lang; image := None; confidence := None |}.

Definition list_block (text : str) (pos : Z) (lt : ListType) (items : list str)
    (page : option Z) : ContentBlock :=
  {| type := list_; content := text; pageNumber := page; position := pos;
     headingLevel := None; listType := Some lt; listItems := Some items;
     table := None; codeLanguage := None; image := None; confidence := None |}.

Definition table_block (text : str) (pos : Z) (t : TableStructure)
    (page : option Z) : ContentBlock :=
  {| type := table_; content := text; pageNumber := page; position := pos;
     headingLevel := None; listType := None; listItems := None;
     table := Some t; codeLanguage := None; image := None; confidence := None |}.

Record DocumentOutlineItem := {
  title : str;
  level : Z;
  o_pageNumber : option Z;
  o_position : Z
  (* [children] is never populated by this service *)
}.

Record DocumentParseMetadata := {
  filename : str;
  format : str;
  fileSize : Z;
  pageCount : Z;
  m_title : option str;
  parsingDurationMs : Q;
  parser : str;
  parserVersion : option str
  (* [author], [createdDate], [modifiedDate] are never populated *)
}.

Record ParsingWarning := {
  w_code : str;
  message : str;
  w_pageNumber : option Z;
  w_position : option Z;
  severity : str
}.

Record ParsedDocument := {
  documentId : str;
  metadata : DocumentParseMetadata;
  blocks : list ContentBlock;
  fullText : str;
  outline : list DocumentOutlineItem;
  warnings : list ParsingWarning;
  success : bool
}.

Record ParseOptions := {
  extractTables : bool;
  extractImages : bool;
  enableOCR : bool;
  maxPages : Z;
  language : str
}.

Definition default_ParseOptions : ParseOptions :=
  {| extractTables := true; extractImages := false; enableOCR := false;
     maxPages := 0; language := u "de" |}.

Record ParseRequest := {
  fileContent : str;
  req_filename : str;
  mimeType : option str;
  options : option ParseOptions
}.

Record ParseResponse := {
  r_success : bool;
  document : option ParsedDocument;
  error : option str;
  processingTimeMs : Q
}.

(** [len(x)] as a Python [int]. *)
Definition len {A} (l : list A) : Z := Z.of_nat (List.length l).

(* ================================================================== *)
(** * Parser implementation *)
(* ================================================================== *)

(** ** [generate_document_id] *)

Definition generate_document_id (content : bytes) (filename : str) : M str :=
  let hasher := Hashlib.sha256 in
  let hasher := Hashlib.update hasher content in
  name_bytes <- lift (encode filename) ;;
  let hasher := Hashlib.update hasher name_bytes in
  now <- time ;;
  ret (u "doc_" ++ str_of_int (int_of_float now) ++ u "_"
       ++ firstn 12%nat (Hashlib.hexdigest hasher)).

(** Elapsed milliseconds, [(time.time() - start_time) * 1000]. *)
Definition elapsed_ms (start_time now : Q) : Q := ((now - start_time) * 1000)%Q.

(** ** [parse_markdown_content] *)

(** The local variables of the scan. *)
Record md_state := {
  md_blocks : list ContentBlock;
  md_position : Z;
  md_outline : list DocumentOutlineItem;
  current_paragraph : list str
}.

(** The paragraph flush that opens every branch but the one collecting
    paragraph lines. *)
Definition flush (st : md_state) : md_state :=
  if truthy (current_paragraph st) then
    let para_text := strip (join [nl] (current_paragraph st)) in
    if truthy para_text then
      {| md_blocks := md_blocks st
                      ++ [new_ContentBlock paragraph para_text (md_position st) (Some 1)];
         md_position := md_position st + 1;
         md_outline := md_outline st;
         current_paragraph := [] |}
    else
      {| md_blocks := md_blocks st; md_position := md_position st;
         md_outline := md_outline st; current_paragraph := [] |}
  else st.

(** [s[0].isdigit()]; the service evaluates it on non-empty [s] only. *)
Definition first_isdigit (s : str) : bool :=
  match s with
  | c :: _ => isdigit c
  | [] => false
  end.

Definition is_heading_line (line : str) : bool := startswith line (u "#").

Definition is_fence_line (line : str) : bool := startswith line (u "```").

Definition is_list_line (line : str) : bool :=
  startswith_any (strip line) [u "- "; u "* "; u "+ "]
  || (truthy (strip line) && first_isdigit (strip line)
      && contains (u ". ") (firstn 4%nat line)).

Definition heading_level (line : str) : Z :=
  Z.min (len line - len (lstrip line (u "#"))) 6.

Definition heading_text (line : str) : str := strip (lstrip line (u "#")).

Definition fence_lang (line : str) : option str := or_None (strip (skipn 3%nat line)).

Definition list_type (line : str) : ListType :=
  if first_isdigit (strip line) then ordered else unordered.

Definition item_text (line : str) : str :=
  strip (lstrip (strip line) (u "-*+0123456789. ")).

(** The body of [for line in lines]. *)
Definition md_step (st : md_state) (line : str) : md_state :=
  if is_heading_line line then
    let st := flush st in
    {| md_blocks := md_blocks st
         ++ [heading_block (heading_text line) (md_position st)
                           (heading_level line) (Some 1)];
       md_position := md_position st + 1;
       md_outline := md_outline st
         ++ [{| title := heading_text line; level := heading_level line;
                o_pageNumber := Some 1; o_position := md_position st |}];
       current_paragraph := current_paragraph st |}
  else if is_fence_line line then
    let st := flush st in
    {| md_blocks := md_blocks st
         ++ [code_block [] (md_position st) (fence_lang line) (Some 1)];
       md_position := md_position st + 1;
       md_outline := md_outline st;
       current_paragraph := current_paragraph st |}
  else if is_list_line line then
    let st := flush st in
    {| md_blocks := md_blocks st
         ++ [list_block (item_text line) (md_position st) (list_type line)
                        [item_text line] (Some 1)];
       md_position := md_position st + 1;
       md_outline := md_outline st;
       current_paragraph := current_paragraph st |}
  else if truthy (strip line) then
    {| md_blocks := md_blocks st; md_position := md_position st;
       md_outline := md_outline st;
       current_paragraph := current_paragraph st ++ [line] |}
  else flush st.

Definition md_init : md_state :=
  {| md_blocks := []; md_position := 0; md_outline := []; current_paragraph := [] |}.

(** The loop, followed by the flush of the remaining paragraph (which does
    not advance [position] any more). *)
Definition md_scan (content : str) : md_state :=
  let st := fold_left md_step (split content [nl]) md_init in
  if truthy (current_paragraph st) then
    let para_text := strip (join [nl] (current_paragraph st)) in
    if truthy para_text then
      {| md_blocks := md_blocks st
                      ++ [new_ContentBlock paragraph para_text (md_position st) (Some 1)];
         md_position := md_position st;
         md_outline := md_outline st;
         current_paragraph := current_paragraph st |}
    else st
  else st.

Definition parse_markdown_content (content filename : str) : M ParsedDocument :=
  start_time <- time ;;
  let st := md_scan content in
  now <- time ;;
  let duration_ms := elapsed_ms start_time now in
  content_bytes <- lift (encode content) ;;
  doc_id <- generate_document_id content_bytes filename ;;
  size_bytes <- lift (encode content) ;;
  ret {| documentId := doc_id;
         metadata := {| filename := filename; format := u "md";
                        fileSize := len size_bytes; pageCount := 1;
                        m_title := None; parsingDurationMs := duration_ms;
                        parser := u "native-md"; parserVersion := None |};
         blocks := md_blocks st;
         fullText := content;
         outline := md_outline st;
         warnings := [];
         success := true |}.

(** ** [parse_txt_content] *)

Definition txt_step (st : list ContentBlock * Z) (para : str) : list ContentBlock * Z :=
  let para_text := strip para in
  if truthy para_text
  then (fst st ++ [new_ContentBlock paragraph para_text (snd st) (Some 1)], snd st + 1)
  else st.

Definition txt_scan (content : str) : list ContentBlock * Z :=
  fold_left txt_step (split content [nl; nl]) ([], 0).

Definition parse_txt_content (content filename : str) : M ParsedDocument :=
  start_time <- time ;;
  let st := txt_scan content in
  now <- time ;;
  let duration_ms := elapsed_ms start_time now in
  content_bytes <- lift (encode content) ;;
  doc_id <- generate_document_id content_bytes filename ;;
  size_bytes <- lift (encode content) ;;
  ret {| documentId := doc_id;
         metadata := {| filename := filename; format := u "txt";
                        fileSize := len size_bytes; pageCount := 1;
                        m_title := None; parsingDurationMs := duration_ms;
                        parser := u "native-txt"; parserVersion := None |};
         blocks := fst st;
         fullText := content;
         outline := [];
         warnings := [];
         success := true |}.

(** ** [parse_html_content] *)

(** The tree [BeautifulSoup(content, 'html.parser')] returns, as far as the
    service looks at it: tags with their name, their [class] attribute
    ([tag.get('class')], a list of tokens) and their children; text nodes;
    and the strings [get_text] skips (comments and the like), which no
    operation below reports. *)
Module Bs4.

Inductive tag : Type :=
  Tag (name : str) (class : option (list str)) (contents : list page_element)
with page_element : Type :=
  | NavigableString (s : str)
  | Comment (s : str)
  | Element (t : tag).

Definition name (t : tag) : str := match t with Tag n _ _ => n end.
Definition class (t : tag) : option (list str) := match t with Tag _ c _ => c end.
Definition contents (t : tag) : list page_element :=
  match t with Tag _ _ cs => cs end.

(** The tags below [t], in document order. *)
Fixpoint descendants (t : tag) : list tag :=
  match t with
  | Tag _ _ cs =>
      flat_map (fun c => match c with
                         | Element t' => t' :: descendants t'
                         | _ => []
                         end) cs
  end.

(** The text nodes below [t], in document order. *)
Fixpoint strings (t : tag) : list str :=
  match t with
  | Tag _ _ cs =>
      flat_map (fun c => match c with
                         | NavigableString s => [s]
                         | Comment _ => []
                         | Element t' => strings t'
                         end) cs
  end.

Definition children (t : tag) : list tag :=
  flat_map (fun c => match c with Element t' => [t'] | _ => [] end) (contents t).

Definition has_name (names : list str) (t : tag) : bool :=
  existsb (str_eqb (name t)) names.

(** [t.find_all(names)], [t.find_all(names, recursive=False)], [t.find(n)],
    [t.get_text(separator)] *)
Definition find_all (t : tag) (names : list str) : list tag :=
  filter (has_name names) (descendants t).

Definition find_all_children (t : tag) (names : list str) : list tag :=
  filter (has_name names) (children t).

Definition find (t : tag) (n : str) : option tag := hd_error (find_all t [n]).

Definition get_text (t : tag) (separator : str) : str := join separator (strings t).

End Bs4.

(** [enumerate(l)] and [range(a, b)] *)
Fixpoint enumerate_from {A} (i : Z) (l : list A) : list (Z * A) :=
  match l with
  | [] => []
  | x :: l' => (i, x) :: enumerate_from (i + 1) l'
  end.

Definition enumerate {A} (l : list A) : list (Z * A) := enumerate_from 0 l.

Definition range (a b : Z) : list Z :=
  map (fun k => a + Z.of_nat k) (seq 0 (Z.to_nat (b - a))).

(** Table reconstruction: the two nested [enumerate] loops over rows and
    cells, with the local lists [headers] and [cells]. *)
Definition html_cell_step (row_idx : Z) (st : list str * list TableCell)
    (ic : Z * Bs4.tag) : list str * list TableCell :=
  let col_idx := fst ic in
  let cell_text := strip (Bs4.get_text (snd ic) []) in
  let is_header := str_eqb (Bs4.name (snd ic)) (u "th") || (row_idx =? 0) in
  (if is_header && (row_idx =? 0) then fst st ++ [cell_text] else fst st,
   snd st ++ [new_TableCell cell_text row_idx col_idx is_header]).

Definition html_row_step (st : list str * list TableCell) (ir : Z * Bs4.tag)
    : list str * list TableCell :=
  fold_left (html_cell_step (fst ir))
            (enumerate (Bs4.find_all (snd ir) [u "th"; u "td"])) st.

(** One line of a pipe table. *)
Definition md_row (cells : list str) : str :=
  u "| " ++ join (u " | ") cells ++ u " |".

Definition html_table_markdown (n_rows : Z) (headers : list str)
    (cells : list TableCell) : str :=
  let md_lines :=
    if truthy headers
    then [md_row headers; md_row (repeat (u "---") (List.length headers))]
    else [] in
  let md_lines :=
    fold_left
      (fun md_lines row_idx =>
         let row_cells :=
           map cell_content (filter (fun c => row c =? row_idx) cells) in
         if truthy row_cells then md_lines ++ [md_row row_cells] else md_lines)
      (range (if truthy headers then 1 else 0) n_rows) md_lines in
  join [nl] md_lines.

(** The [TableStructure] built from the [tr] elements of a table. *)
Definition html_table (trs : list Bs4.tag) : TableStructure :=
  let hc := fold_left html_row_step (enumerate trs) ([], []) in
  let headers := fst hc in
  let cells := snd hc in
  let table_md := html_table_markdown (len trs) headers cells in
  {| rows := len trs;
     cols := if len headers =? 0
             then (if truthy trs then len cells / len trs else 0)
             else len headers;
     headers := headers;
     cells := cells;
     markdown := table_md;
     hasHeader := truthy headers |}.

Record html_state := {
  h_blocks : list ContentBlock;
  h_position : Z;
  h_outline : list DocumentOutlineItem
}.

Definition html_query : list str :=
  map u ["h1"; "h2"; "h3"; "h4"; "h5"; "h6"; "p"; "table"; "pre"; "code";
         "ul"; "ol"]%string.

(** [int(tag_name[1])] *)
Definition int_of_second (tag_name : str) : result Z :=
  match nth_error tag_name 1 with
  | Some c =>
      match int_of_digit c with
      | Some n => inr n
      | None => inl (Exception "ValueError" (u "invalid literal for int()"))
      end
  | None => inl (Exception "IndexError" (u "string index out of range"))
  end.

(** The body of [for element in body.find_all([...])]. *)
Definition html_step (st : html_state) (element : Bs4.tag) : result html_state :=
  let tag_name := lower (Bs4.name element) in
  if startswith tag_name (u "h") && (len tag_name =? 2) then
    match int_of_second tag_name with
    | inl e => inl e
    | inr level =>
        let text := strip (Bs4.get_text element []) in
        if truthy text then
          inr {| h_blocks := h_blocks st
                   ++ [heading_block text (h_position st) level (Some 1)];
                 h_position := h_position st + 1;
                 h_outline := h_outline st
                   ++ [{| title := text; level := level;
                          o_pageNumber := Some 1; o_position := h_position st |}] |}
        else inr st
    end
  else if str_eqb tag_name (u "p") then
    let text := strip (Bs4.get_text element []) in
    if truthy text then
      inr {| h_blocks := h_blocks st
               ++ [new_ContentBlock paragraph text (h_position st) (Some 1)];
             h_position := h_position st + 1;
             h_outline := h_outline st |}
    else inr st
  else if existsb (str_eqb tag_name) [u "pre"; u "code"] then
    let text := strip (Bs4.get_text element []) in
    if truthy text then
      let lang := match Bs4.class element with
                  | Some (c :: _) => Some c
                  | _ => None
                  end in
      inr {| h_blocks := h_blocks st
               ++ [code_block text (h_position st) lang (Some 1)];
             h_position := h_position st + 1;
             h_outline := h_outline st |}
    else inr st
  else if existsb (str_eqb tag_name) [u "ul"; u "ol"] then
    let items := map (fun li => strip (Bs4.get_text li []))
                     (Bs4.find_all_children element [u "li"]) in
    if truthy items then
      inr {| h_blocks := h_blocks st
               ++ [list_block (join [nl] items) (h_position st)
                     (if str_eqb tag_name (u "ol") then ordered else unordered)
                     items (Some 1)];
             h_position := h_position st + 1;
             h_outline := h_outline st |}
    else inr st
  else if str_eqb tag_name (u "table") then
    let trs := Bs4.find_all element [u "tr"] in
    if truthy trs then
      let t := html_table trs in
      inr {| h_blocks := h_blocks st
               ++ [table_block (markdown t) (h_position st) t (Some 1)];
             h_position := h_position st + 1;
             h_outline := h_outline st |}
    else inr st
  else inr st.

Fixpoint html_loop (st : html_state) (elements : list Bs4.tag) : result html_state :=
  match elements with
  | [] => inr st
  | element :: rest =>
      match html_step st element with
      | inl e => inl e
      | inr st' => html_loop st' rest
      end
  end.

Definition html_init : html_state :=
  {| h_blocks := []; h_position := 0; h_outline := [] |}.

(** What the [try] block computes once [bs4] is imported: the blocks, the
    outline, the full text and the title. *)
Definition html_extract (soup : Bs4.tag)
    : result (html_state * str * option str) :=
  let title := match Bs4.find soup (u "title") with
               | Some title_tag => Some (strip (Bs4.get_text title_tag []))
               | None => None
               end in
  let body := match Bs4.find soup (u "body") with
              | Some b => b
              | None => soup
              end in
  match html_loop html_init (Bs4.find_all body html_query) with
  | inl e => inl e
  | inr st => inr (st, strip (Bs4.get_text soup [nl]), title)
  end.

Definition BEAUTIFULSOUP_MISSING : ParsingWarning :=
  {| w_code := u "BEAUTIFULSOUP_MISSING";
     message := u "BeautifulSoup not installed. Install with: pip install beautifulsoup4";
     w_pageNumber := None; w_position := None;
     severity := u "error" |}.

(** [len(warnings) == 0 or all(w.severity != 'error' for w in warnings)] *)
Definition html_success (warnings : list ParsingWarning) : bool :=
  (len warnings =? 0)
  || forallb (fun w => negb (str_eqb (severity w) (u "error"))) warnings.

(** [except ImportError] catches [ImportError] and the classes derived from
    it: [ModuleNotFoundError] and [zipimport.ZipImportError]. *)
Definition is_ImportError (e : exn) : bool :=
  existsb (String.eqb (exn_class e))
          ["ImportError"; "ModuleNotFoundError"; "ZipImportError"]%string.

(** [BeautifulSoup] is [None] when [from bs4 import BeautifulSoup] raises
    [ImportError]; otherwise it is the call
    [BeautifulSoup(content, 'html.parser')], which returns the tree or
    raises ([ParserRejectedMarkup] when [html.parser] rejects the markup).
    The handler of the [try] block catches [ImportError] only: it runs when
    the import fails, and when the call raises an [ImportError], before any
    block is appended; every other exception leaves the function.  The code
    after the call raises no [ImportError]. *)
Definition parse_html_content (BeautifulSoup : option (str -> result Bs4.tag))
    (content filename : str) : M ParsedDocument :=
  start_time <- time ;;
  extracted <-
    lift (let missing := inr ([], [], [BEAUTIFULSOUP_MISSING], content, None) in
          match BeautifulSoup with
          | Some html_parser =>
              match html_parser content with
              | inl e => if is_ImportError e then missing else inl e
              | inr soup =>
                  match html_extract soup with
                  | inl e => inl e
                  | inr (st, full_text, title) =>
                      inr (h_blocks st, h_outline st, [], full_text, title)
                  end
              end
          | None => missing
          end) ;;
  let '(blocks, outline, warnings, full_text, title) := extracted in
  now <- time ;;
  let duration_ms := elapsed_ms start_time now in
  content_bytes <- lift (encode content) ;;
  doc_id <- generate_document_id content_bytes filename ;;
  size_bytes <- lift (encode content) ;;
  ret {| documentId := doc_id;
         metadata := {| filename := filename; format := u "html";
                        fileSize := len size_bytes; pageCount := 1;
                        m_title := title; parsingDurationMs := duration_ms;
                        parser := u "native-html"; parserVersion := None |};
         blocks := blocks;
         fullText := full_text;
         outline := outline;
         warnings := warnings;
         success := html_success warnings |}.

(** ** [get_format_from_filename] *)

(** [Path(filename).suffix]: the final component of the path is the last one
    that is neither empty nor [.]; its suffix starts at its last dot, unless
    that dot is its first or its last character. *)
Definition path_name (filename : str) : str :=
  last (filter (fun part => truthy part && negb (str_eqb part (u ".")))
               (split filename (u "/"))) [].

Fixpoint rfind_from (c : char) (s : str) (i : nat) (found : option nat) : option nat :=
  match s with
  | [] => found
  | x :: s' => rfind_from c s' (S i) (if (x =? c)%N then Some i else found)
  end.

Definition path_suffix (filename : str) : str :=
  let name := path_name filename in
  match rfind_from (ch ".") name 0 None with
  | Some i =>
      if ((0 <? i) && (i <? List.length name - 1))%nat then skipn i name else []
  | None => []
  end.

(** [d.get(key)] on a dictionary literal *)
Fixpoint dict_get {V} (d : list (str * V)) (key : str) : option V :=
  match d with
  | [] => None
  | (k, v) :: d' => if str_eqb k key then Some v else dict_get d' key
  end.

Definition get_format_from_filename (filename : str) : option str :=
  let ext_map :=
    [ (u ".pdf", u "pdf"); (u ".docx", u "docx"); (u ".pptx", u "pptx");
      (u ".xlsx", u "xlsx"); (u ".html", u "html"); (u ".htm", u "html");
      (u ".md", u "md"); (u ".markdown", u "md"); (u ".txt", u "txt") ] in
  let ext := lower (path_suffix filename) in
  dict_get ext_map ext.

(** ** [parse_with_docling] *)

(** What the service reads from the objects of the conversion backend.  An
    attribute the service probes with [hasattr]/[getattr] is an [option]; a
    method that may raise returns a [result]. *)
Module Docling.

(** An element of [doc.texts]: [item.text] if the attribute exists,
    [str(item)], [item.label], [item.page_no]. *)
Record TextItem := {
  text : option str;
  item_str : str;
  label : option str;
  page_no : option Z
}.

(** A [pandas.DataFrame]: [str(c)] for each column label [c], and for each
    row of [iterrows()] the outcome of [int(row_idx)] on its index label
    together with [str(v)] for each of its values. *)
Record DataFrame := {
  columns : list str;
  iterrows : list (result Z * list str)
}.

(** An element of [doc.tables]: the outcome of [export_to_dataframe()] if the
    method exists, and [table.page_no]. *)
Record TableItem := {
  export_to_dataframe : option (result DataFrame);
  table_page_no : option Z
}.

Record Document := {
  pages : option Z;                      (* [len(doc.pages)] *)
  doc_title : option str;
  texts : option (list TextItem);
  tables : option (list TableItem);
  export_to_markdown : option (result str)
}.

(** The converter: [convert] receives the octets written to the temporary
    file and the suffix of its name. *)
Record DocumentConverter := {
  convert : bytes -> str -> result Document;
  version : option str                   (* [__version__] *)
}.

End Docling.

Record dl_state := {
  d_blocks : list ContentBlock;
  d_position : Z;
  d_outline : list DocumentOutlineItem;
  d_warnings : list ParsingWarning
}.

Definition getattr {A} (attr : option A) (default : A) : A :=
  match attr with Some a => a | None => default end.

(** Heading level from the label. *)
Definition docling_level (label : str) : Z :=
  let level := if contains (u "title") label then 1 else 2 in
  if contains (u "h1") label then 1
  else if contains (u "h2") label then 2
  else if contains (u "h3") label then 3
  else if contains (u "h4") label then 4
  else if contains (u "h5") label then 5
  else if contains (u "h6") label then 6
  else level.

(** The body of [for item in doc.texts]. *)
Definition docling_text_step (st : dl_state) (item : Docling.TextItem) : dl_state :=
  let text := match Docling.text item with
              | Some t => strip t
              | None => strip (Docling.item_str item)
              end in
  if negb (truthy text) then st
  else
    let label := lower (getattr (Docling.label item) (u "paragraph")) in
    let page_num := Some (getattr (Docling.page_no item) 1) in
    let pos := d_position st in
    let emit (b : ContentBlock) (o : list DocumentOutlineItem) :=
      {| d_blocks := d_blocks st ++ [b];
         d_position := pos + 1;
         d_outline := d_outline st ++ o;
         d_warnings := d_warnings st |} in
    if contains (u "heading") label || contains (u "title") label then
      let level := docling_level label in
      emit (heading_block text pos level page_num)
           [{| title := text; level := level;
               o_pageNumber := page_num; o_position := pos |}]
    else if contains (u "list") label then
      emit (list_block text pos unordered [text] page_num) []
    else if contains (u "code") label then
      emit (new_ContentBlock code text pos page_num) []
    else if contains (u "caption") label then
      emit (new_ContentBlock caption text pos page_num) []
    else if contains (u "footer") label then
      emit (new_ContentBlock footer text pos page_num) []
    else if contains (u "header") label then
      emit (new_ContentBlock header text pos page_num) []
    else
      emit (new_ContentBlock paragraph text pos page_num) [].

(** The inner loop [for col_idx, value in enumerate(row)] of a data row:
    [int(row_idx)] is evaluated once per value, so it raises at the first
    value, and a row without values never evaluates it. *)
Fixpoint docling_value_cells (row_idx : result Z) (values : list (Z * str))
    : result (list TableCell) :=
  match values with
  | [] => inr []
  | (col_idx, value) :: rest =>
      match row_idx with
      | inl e => inl e
      | inr i =>
          match docling_value_cells row_idx rest with
          | inl e => inl e
          | inr cells => inr (new_TableCell value (i + 1) col_idx false :: cells)
          end
      end
  end.

(** The data rows: the outer loop [for row_idx, row in iterrows()], which an
    exception of the inner loop leaves. *)
Fixpoint docling_data_cells (rows : list (result Z * list str))
    : result (list TableCell) :=
  match rows with
  | [] => inr []
  | (row_idx, values) :: rest =>
      match docling_value_cells row_idx (enumerate values) with
      | inl e => inl e
      | inr row_cells =>
          match docling_data_cells rest with
          | inl e => inl e
          | inr cells => inr (row_cells ++ cells)
          end
      end
  end.

(** The [try] block of the table loop: [inr None] when there is no frame,
    [inr (Some block)] for a converted table, [inl e] when it raises. *)
Definition docling_table (pos : Z) (table : Docling.TableItem)
    : result (option ContentBlock) :=
  match Docling.export_to_dataframe table with
  | None => inr None
  | Some (inl e) => inl e
  | Some (inr table_data) =>
      let headers := Docling.columns table_data in
      let header_cells :=
        map (fun ih => new_TableCell (snd ih) 0 (fst ih) true) (enumerate headers) in
      match docling_data_cells (Docling.iterrows table_data) with
      | inl e => inl e
      | inr data_cells =>
          let cells := header_cells ++ data_cells in
          let md_lines :=
            [md_row headers; md_row (repeat (u "---") (List.length headers))]
            ++ map (fun r => md_row (snd r)) (Docling.iterrows table_data) in
          let table_md := join [nl] md_lines in
          inr (Some (table_block table_md pos
                       {| rows := len (Docling.iterrows table_data) + 1;
                          cols := len headers;
                          headers := headers;
                          cells := cells;
                          markdown := table_md;
                          hasHeader := true |}
                       (Some (getattr (Docling.table_page_no table) 1))))
      end
  end.

Definition TABLE_EXTRACTION_FAILED (table_idx : Z) (e : exn) : ParsingWarning :=
  {| w_code := u "TABLE_EXTRACTION_FAILED";
     message := u "Failed to extract table " ++ str_of_int table_idx
                ++ u ": " ++ exn_msg e;
     w_pageNumber := None; w_position := None;
     severity := u "warning" |}.

(** The body of [for table_idx, table in enumerate(doc.tables)], with its
    [try]/[except Exception]. *)
Definition docling_table_step (st : dl_state) (it : Z * Docling.TableItem) : dl_state :=
  match docling_table (d_position st) (snd it) with
  | inr None => st
  | inr (Some block) =>
      {| d_blocks := d_blocks st ++ [block];
         d_position := d_position st + 1;
         d_outline := d_outline st;
         d_warnings := d_warnings st |}
  | inl e =>
      {| d_blocks := d_blocks st;
         d_position := d_position st;
         d_outline := d_outline st;
         d_warnings := d_warnings st ++ [TABLE_EXTRACTION_FAILED (fst it) e] |}
  end.

Definition dl_init : dl_state :=
  {| d_blocks := []; d_position := 0; d_outline := []; d_warnings := [] |}.

(** The two loops over the converted document. *)
Definition docling_scan (options : ParseOptions) (doc : Docling.Document) : dl_state :=
  let st := match Docling.texts doc with
            | Some items => fold_left docling_text_step items dl_init
            | None => dl_init
            end in
  match extractTables options, Docling.tables doc with
  | true, Some tables => fold_left docling_table_step (enumerate tables) st
  | _, _ => st
  end.

(** The temporary file written for the backend and removed afterwards is
    represented by what the backend reads from it: the octets and the
    suffix. *)
Definition parse_with_docling (DOCLING_AVAILABLE : bool)
    (converter : option Docling.DocumentConverter)
    (file_content : bytes) (filename : str) (options : ParseOptions)
    : M ParsedDocument :=
  match DOCLING_AVAILABLE, converter with
  | true, Some conv =>
      start_time <- time ;;
      let file_ext := lower (path_suffix filename) in
      doc <- lift (Docling.convert conv file_content file_ext) ;;
      let page_count := match Docling.pages doc with
                        | Some n => if n =? 0 then 1 else n
                        | None => 1
                        end in
      let title := Docling.doc_title doc in
      let st := docling_scan options doc in
      full_text <- lift (match Docling.export_to_markdown doc with
                         | Some r => r
                         | None => inr (join [nl] (map content (d_blocks st)))
                         end) ;;
      let format_map :=
        [ (u ".pdf", u "pdf"); (u ".docx", u "docx");
          (u ".pptx", u "pptx"); (u ".xlsx", u "xlsx") ] in
      let detected_format := getattr (dict_get format_map file_ext) (u "pdf") in
      now <- time ;;
      let duration_ms := elapsed_ms start_time now in
      doc_id <- generate_document_id file_content filename ;;
      ret {| documentId := doc_id;
             metadata := {| filename := filename; format := detected_format;
                            fileSize := len file_content; pageCount := page_count;
                            m_title := title; parsingDurationMs := duration_ms;
                            parser := u "docling";
                            parserVersion :=
                              Some (getattr (Docling.version conv) (u "1.0.0")) |};
             blocks := d_blocks st;
             fullText := full_text;
             outline := d_outline st;
             warnings := d_warnings st;
             success := true |}
  | _, _ => lift (inl (Exception "ValueError" (u "Docling converter not available")))
  end.

(** ** [parse] *)

Definition MAX_FILE_SIZE : Z := 150 * 1024 * 1024.

(** What the endpoint does: it raises an [HTTPException] or returns a
    [ParseResponse]. *)
Inductive http_result :=
  | HTTPException (status_code : Z) (detail : str)
  | Returns (response : ParseResponse).

(** [round(x, 2)] on a rational: to the nearest hundredth, ties to even. *)
Definition round2 (x : Q) : Q :=
  let y := (x * 100)%Q in
  let n := Qfloor y in
  let twice_frac := (2 * (y - inject_Z n))%Q in
  let up := match Qcompare twice_frac 1 with
            | Lt => false
            | Gt => true
            | Eq => Z.odd n
            end in
  Qmake (if up then n + 1 else n) 100.

Section Dispatch.

(** The capabilities of the process: [base64.b64decode], the [bs4] import,
    and the Docling import and converter loaded at start-up. *)
Variable b64decode : str -> result bytes.
Variable BeautifulSoup : option (str -> result Bs4.tag).
Variable DOCLING_AVAILABLE : bool.
Variable converter : option Docling.DocumentConverter.

(** The tail of the [try] block: run the selected normalizer and wrap its
    document, or the exception it raised, into the response. *)
Definition respond (start_time : Q) (normalize : M ParsedDocument) (w : world)
    : http_result * world :=
  match normalize w with
  | (inr doc, w1) =>
      let (now, w2) := read_clock w1 in
      (Returns {| r_success := success doc; document := Some doc; error := None;
                  processingTimeMs := round2 (elapsed_ms start_time now) |}, w2)
  | (inl e, w1) =>
      let (now, w2) := read_clock w1 in
      (Returns {| r_success := false; document := None; error := Some (exn_msg e);
                  processingTimeMs := round2 (elapsed_ms start_time now) |}, w2)
  end.

Definition parse (request : ParseRequest) (w : world) : http_result * world :=
  let (start_time, w) := read_clock w in
  match b64decode (fileContent request) with
  | inl e => (HTTPException 400 (u "Invalid base64 content: " ++ exn_msg e), w)
  | inr file_content =>
      if MAX_FILE_SIZE <? len file_content then
        (HTTPException 413
           (u "File too large. Maximum size: "
            ++ str_of_int (MAX_FILE_SIZE / (1024 * 1024)) ++ u "MB"), w)
      else
        match get_format_from_filename (req_filename request) with
        | None =>
            (HTTPException 400
               (u "Unsupported file format: " ++ req_filename request), w)
        | Some detected_format =>
            let options := getattr (options request) default_ParseOptions in
            if existsb (str_eqb detected_format) [u "md"; u "markdown"] then
              respond start_time
                (content <- lift (decode file_content Replace) ;;
                 parse_markdown_content content (req_filename request)) w
            else if str_eqb detected_format (u "txt") then
              respond start_time
                (content <- lift (decode file_content Replace) ;;
                 parse_txt_content content (req_filename request)) w
            else if str_eqb detected_format (u "html") then
              respond start_time
                (content <- lift (decode file_content Replace) ;;
                 parse_html_content BeautifulSoup content (req_filename request)) w
            else
              match DOCLING_AVAILABLE, converter with
              | true, Some _ =>
                  respond start_time
                    (parse_with_docling DOCLING_AVAILABLE converter file_content
                       (req_filename request) options) w
              | _, _ =>
                  (HTTPException 503
                     (u "Docling not available for " ++ detected_format
                      ++ u " parsing. Install docling package."), w)
              end
        end
  end.

End Dispatch.

(** ** [health] and [get_formats] *)

Definition SUPPORTED_FORMATS : list str :=
  [u "pdf"; u "docx"; u "pptx"; u "xlsx"; u "html"; u "md"; u "txt"].

(** The fields [parser] and [version] of the model are [hr_parser] and
    [hr_version] here. *)
Record HealthResponse := {
  status : str;
  hr_parser : str;
  hr_version : str;
  supportedFormats : list str;
  ready : bool
}.

(** The truth value of the global [converter]: [None] is false, a converter
    object is true. *)
Definition loaded (converter : option Docling.DocumentConverter) : bool :=
  match converter with Some _ => true | None => false end.

Definition health (DOCLING_AVAILABLE : bool)
    (converter : option Docling.DocumentConverter) : HealthResponse :=
  {| status := if (DOCLING_AVAILABLE && loaded converter) || true
               then u "ok" else u "loading";
     hr_parser := if DOCLING_AVAILABLE then u "docling" else u "native";
     hr_version := u "1.0.0";
     supportedFormats := SUPPORTED_FORMATS;
     ready := true |}.

(** The dictionary returned by [get_formats], as a record of its keys. *)
Record FormatsListing := {
  fl_supportedFormats : list str;
  doclingFormats : list str;
  nativeFormats : list str;
  doclingAvailable : bool
}.

Definition get_formats (DOCLING_AVAILABLE : bool) : FormatsListing :=
  let docling_formats :=
    if DOCLING_AVAILABLE then [u "pdf"; u "docx"; u "pptx"; u "xlsx"] else [] in
  let native_formats := [u "html"; u "md"; u "txt"] in
  {| fl_supportedFormats := SUPPORTED_FORMATS;
     doclingFormats := docling_formats;
     nativeFormats := native_formats;
     doclingAvailable := DOCLING_AVAILABLE |}.

(* ================================================================== *)
(** * Definitions used to state the properties *)
(* ================================================================== *)

(** A computation [m], started in world [w], returns [a]. *)
Definition returns {A} (m : M A) (w : world) (a : A) : Prop := fst (m w) = inr a.

(** A string [str.encode] accepts. *)
Definition encodable (s : str) : Prop := exists b, encode s = inr b.

Definition BlockType_eqb (a b : BlockType) : bool :=
  match a, b with
  | paragraph, paragraph | heading, heading | table_, table_ | list_, list_
  | code, code | image_, image_ | caption, caption | footer, footer
  | header, header => true
  | _, _ => false
  end.

Definition has_type (ty : BlockType) (b : ContentBlock) : bool :=
  BlockType_eqb (type b) ty.

(** The number of [#] characters a line begins with. *)
Fixpoint leading_hashes (line : str) : Z :=
  match line with
  | c :: rest => if (c =? ch "#")%N then 1 + leading_hashes rest else 0
  | [] => 0
  end.

(** The lines of a Markdown text. *)
Definition md_lines (content : str) : list str := split content [nl].

(** A world whose clock starts at 1700000000 s and advances by 0.1 s per
    reading, and a few inputs, for examples. *)
Definition w0 : world :=
  World 0%nat (fun n => (1700000000 # 1) + (Z.of_nat n # 10))%Q.

Definition text_of (lines : list string) : str := join [nl] (map u lines).

Definition md_example : str :=
  text_of [ "# Title"; "first line"; "second line"; "```py"; "x = 1"; "```";
            "- item"; "####### deep"; "tail" ]%string.

Definition fence_example : str :=
  text_of ["intro"; "```py"; "x = 1"; "```"]%string.

Definition txt_example : str :=
  text_of [ "first"; "paragraph"; EmptyString; "  "; EmptyString; "second";
            EmptyString; EmptyString; "third" ]%string.

(** ** The Markdown scan *)

(** What a flush emits: the pending paragraph, if it has text. *)
Definition flushed (st : md_state) : list ContentBlock :=
  if truthy (current_paragraph st) then
    let para_text := strip (join [nl] (current_paragraph st)) in
    if truthy para_text
    then [new_ContentBlock paragraph para_text (md_position st) (Some 1)]
    else []
  else [].

(** The block of a heading, fence or list line, at position [pos]. *)
Definition line_block (pos : Z) (line : str) : list ContentBlock :=
  if is_heading_line line then
    [heading_block (heading_text line) pos (heading_level line) (Some 1)]
  else if is_fence_line line then
    [code_block [] pos (fence_lang line) (Some 1)]
  else if is_list_line line then
    [list_block (item_text line) pos (list_type line) [item_text line] (Some 1)]
  else [].

Definition is_marker_line (line : str) : bool :=
  is_heading_line line || is_fence_line line || is_list_line line.

(** The blocks one iteration of the loop appends. *)
Definition step_out (st : md_state) (line : str) : list ContentBlock :=
  if is_marker_line line
  then flushed st ++ line_block (md_position st + len (flushed st)) line
  else if truthy (strip line) then [] else flushed st.

(** The loop invariant on positions: the blocks emitted so far are numbered
    [0, 1, ...] and [pos] is the next number. *)
Definition counted (bs : list ContentBlock) (pos : Z) : Prop :=
  map position bs = range 0 pos /\ pos = len bs.

(** The item text as the specification words it: the trimmed line without
    its list marker (a bullet and the space after it, or a number, its dot
    and the space after it), trimmed again; whatever follows the marker is
    kept. *)
Definition is_ascii_digit (c : char) : bool := ((0x30 <=? c) && (c <=? 0x39))%N.

Definition without_marker (line : str) : str :=
  let s := strip line in
  if startswith_any s [u "- "; u "* "; u "+ "] then strip (skipn 2%nat s)
  else
    let after_number := lstrip_by is_ascii_digit s in
    if startswith after_number (u ". ") then strip (skipn 2%nat after_number)
    else s.

(** ** The plain-text scan *)

Definition txt_segments (input : str) : list str :=
  filter truthy (map strip (split input [nl; nl])).

Definition txt_paragraph (ip : Z * str) : ContentBlock :=
  new_ContentBlock paragraph (snd ip) (fst ip) (Some 1).

(** ** Document identifiers and decoding *)

(** A Unicode scalar value: a code point that is no surrogate. *)
Definition scalar (c : char) : Prop := (c < 0x110000)%N /\ is_surrogate c = false.


(** The whole seconds of the next clock reading, [int(time.time())]. *)
Definition seconds (w : world) : Z := int_of_float (wall w (reads w)).

(** SHA-256 of a byte string, in hexadecimal. *)
Definition sha256_hex (data : bytes) : str :=
  Hashlib.hexdigest (Hashlib.update Hashlib.sha256 data).

Definition abc : bytes := [x61; x62; x63].

(** Octets that are not UTF-8: [ff 23 20 41]. *)
Definition not_utf8 : bytes := [xff; x23; x20; x41].

(** A [b64decode] that yields a given payload, and a request with the
    Base64 text of [not_utf8]. *)
Definition yields (payload : bytes) : str -> result bytes := fun _ => inr payload.


(** ** HTML input *)

(** A tree builder for plain markup: start tags [<name>] without
    attributes, end tags [</name>] and text.  On such input, with every
    element closed in order, it builds the tree the [html.parser] backend of
    BeautifulSoup builds; with the markup that backend rejects in the
    examples, it serves as a concrete parser there. *)
Module SimpleHtml.

Inductive token := StartTag (n : str) | EndTag (n : str) | Data (s : str).

Definition data_token (rev_text : str) : list token :=
  match rev_text with [] => [] | _ => [Data (rev rev_text)] end.

Definition tag_token (rev_name : str) : token :=
  match rev rev_name with
  | c :: n => if (c =? ch "/")%N then EndTag (lower n) else StartTag (lower (c :: n))
  | [] => StartTag []
  end.

(** [inside] is [Some] of the reversed characters read since [<], if any. *)
Fixpoint tokens (s : str) (rev_text : str) (inside : option str) : list token :=
  match s with
  | [] => data_token rev_text
  | c :: s' =>
      match inside with
      | None =>
          if (c =? ch "<")%N
          then data_token rev_text ++ tokens s' [] (Some [])
          else tokens s' (c :: rev_text) None
      | Some rev_name =>
          if (c =? ch ">")%N
          then tag_token rev_name :: tokens s' [] None
          else tokens s' rev_text (Some (c :: rev_name))
      end
  end.

(** [open] holds, innermost first, the names of the open elements with the
    reversed siblings that precede them; [rev_here] the reversed children of
    the innermost open element. *)
Fixpoint build (ts : list token) (open : list (str * list Bs4.page_element))
    (rev_here : list Bs4.page_element) : list Bs4.page_element :=
  match ts with
  | [] =>
      fold_left (fun here frame =>
                   Bs4.Element (Bs4.Tag (fst frame) None (rev here)) :: snd frame)
                open rev_here
  | Data s :: ts' => build ts' open (Bs4.NavigableString s :: rev_here)
  | StartTag n :: ts' => build ts' ((n, rev_here) :: open) []
  | EndTag _ :: ts' =>
      match open with
      | (n, before) :: open' =>
          build ts' open' (Bs4.Element (Bs4.Tag n None (rev rev_here)) :: before)
      | [] => build ts' [] rev_here
      end
  end.

Definition tree (markup : str) : Bs4.tag :=
  Bs4.Tag (u "[document]") None (rev (build (tokens markup [] None) [] [])).

(** Markup that begins with the marked section [<![x]>]: [html.parser]
    fails on its unknown keyword with an [AssertionError], which
    BeautifulSoup raises again as [ParserRejectedMarkup]. *)
Definition ParserRejectedMarkup : exn :=
  Exception "ParserRejectedMarkup"
    (u "AssertionError: unknown status keyword 'x' in marked section").

Definition parser (markup : str) : result Bs4.tag :=
  if startswith markup (u "<![x]>") then inl ParserRejectedMarkup
  else inr (tree markup).

End SimpleHtml.

Definition el (n : string) (cs : list Bs4.page_element) : Bs4.page_element :=
  Bs4.Element (Bs4.Tag (u n) None cs).

Definition txt (s : string) : Bs4.page_element := Bs4.NavigableString (u s).

(** The two-by-two table, as markup, as a tree and as a [TableStructure]. *)
Definition table_AB_html : str :=
  u "<table><tr><th>A</th><th>B</th></tr><tr><td>1</td><td>2</td></tr></table>".

Definition table_AB_soup : Bs4.tag :=
  Bs4.Tag (u "[document]") None
    [ el "table"
        [ el "tr" [ el "th" [txt "A"]; el "th" [txt "B"] ];
          el "tr" [ el "td" [txt "1"]; el "td" [txt "2"] ] ] ].

Definition table_AB : TableStructure :=
  {| rows := 2; cols := 2;
     headers := [u "A"; u "B"];
     cells := [ new_TableCell (u "A") 0 0 true; new_TableCell (u "B") 0 1 true;
                new_TableCell (u "1") 1 0 false; new_TableCell (u "2") 1 1 false ];
     markdown := u "| A | B |" ++ [nl] ++ u "| --- | --- |" ++ [nl] ++ u "| 1 | 2 |";
     hasHeader := true |}.

(** Markup with elements left open and a stray end tag. *)
Definition messy_html : str :=
  u "<h2>Title</h2><p>open <b>bold</p></i><pre><code>x</code></pre><ul><li>a<li>b</ul>".

(** ** Tables *)

Definition cell_key (c : TableCell) : Z * Z := (row c, col c).

Definition row0 (t : TableStructure) : list TableCell :=
  filter (fun c => row c =? 0) (cells t).

(** The invariant of a [TableStructure]: no two cells share [(row, col)];
    with a header, the cells of row 0 are header cells, they come in column
    order, and their contents are the headers. *)
Definition table_inv (t : TableStructure) : Prop :=
  NoDup (map cell_key (cells t))
  /\ (hasHeader t = true ->
      Forall (fun c => isHeader c = true) (row0 t)
      /\ map col (row0 t) = range 0 (len (headers t))
      /\ map cell_content (row0 t) = headers t).

Definition tables_ok (bs : list ContentBlock) : Prop :=
  Forall (fun b => forall t, table b = Some t -> table_inv t) bs.

(** The cells and the headers the HTML loops add for one row. *)
Definition html_row_cells (ir : Z * Bs4.tag) : list TableCell :=
  map (fun ic =>
         new_TableCell (strip (Bs4.get_text (snd ic) [])) (fst ir) (fst ic)
                       (str_eqb (Bs4.name (snd ic)) (u "th") || (fst ir =? 0)))
      (enumerate (Bs4.find_all (snd ir) [u "th"; u "td"])).

Definition html_row_headers (ir : Z * Bs4.tag) : list str :=
  if fst ir =? 0 then map cell_content (html_row_cells ir) else [].

(** ** The conversion backend *)




Definition docling_row_cells (iv : Z * list str) : list TableCell :=
  map (fun cv => new_TableCell (snd cv) (fst iv + 1) (fst cv) false)
      (enumerate (snd iv)).

(** The table blocks and the warnings the table loop adds, from position
    [pos] and table index [k] on. *)
Fixpoint table_blocks (pos : Z) (ts : list Docling.TableItem) : list ContentBlock :=
  match ts with
  | [] => []
  | t :: ts' =>
      match docling_table pos t with
      | inr (Some b) => b :: table_blocks (pos + 1) ts'
      | _ => table_blocks pos ts'
      end
  end.

Fixpoint table_warnings (pos k : Z) (ts : list Docling.TableItem)
    : list ParsingWarning :=
  match ts with
  | [] => []
  | t :: ts' =>
      match docling_table pos t with
      | inl e => TABLE_EXTRACTION_FAILED k e :: table_warnings pos (k + 1) ts'
      | inr (Some _) => table_warnings (pos + 1) (k + 1) ts'
      | inr None => table_warnings pos (k + 1) ts'
      end
  end.

Definition converts (t : Docling.TableItem) : Prop :=
  exists ob, docling_table 0 t = inr ob.

(** How the [try] block of the HTML normalizer ends on [input]: with the
    tree of the markup, in its [ImportError] handler, or with the exception
    that the tree builder raised. *)
Inductive html_outcome :=
  | Parsed (soup : Bs4.tag)
  | Missing
  | Rejected (e : exn).

Definition html_try (bs4 : option (str -> result Bs4.tag)) (input : str)
    : html_outcome :=
  match bs4 with
  | Some html_parser =>
      match html_parser input with
      | inr soup => Parsed soup
      | inl e => if is_ImportError e then Missing else Rejected e
      end
  | None => Missing
  end.



(** The converted document [d] with other tables. *)
Definition with_tables (d : Docling.Document) (ts : list Docling.TableItem)
    : Docling.Document :=
  {| Docling.pages := Docling.pages d;
     Docling.doc_title := Docling.doc_title d;
     Docling.texts := Docling.texts d;
     Docling.tables := Some ts;
     Docling.export_to_markdown := Docling.export_to_markdown d |}.

(** A converted report: a title, a paragraph and the given tables; a table
    with two data rows; a table whose conversion raises; a backend that
    returns a given document. *)
Definition frame_kv : Docling.DataFrame :=
  {| Docling.columns := [u "key"; u "value"];
     Docling.iterrows := [ (inr 0, [u "a"; u "1"]); (inr 1, [u "b"; u "2"]) ] |}.

Definition good_table (page : Z) : Docling.TableItem :=
  {| Docling.export_to_dataframe := Some (inr frame_kv);
     Docling.table_page_no := Some page |}.

Definition bad_table : Docling.TableItem :=
  {| Docling.export_to_dataframe :=
       Some (inl (Exception "ValueError" (u "malformed table")));
     Docling.table_page_no := Some 2 |}.

Definition report (ts : list Docling.TableItem) : Docling.Document :=
  {| Docling.pages := Some 3;
     Docling.doc_title := Some (u "Report");
     Docling.texts :=
       Some [ {| Docling.text := Some (u "Results"); Docling.item_str := [];
                 Docling.label := Some (u "title");
                 Docling.page_no := Some 1 |};
              {| Docling.text := Some (u "Body text."); Docling.item_str := [];
                 Docling.label := Some (u "text"); Docling.page_no := Some 1 |} ];
     Docling.tables := Some ts;
     Docling.export_to_markdown := None |}.

Definition backend (d : Docling.Document) : Docling.DocumentConverter :=
  {| Docling.convert := fun _ _ => inr d; Docling.version := None |}.

Definition pdf_bytes : bytes := [x25; x50; x44; x46].

(** ** White space *)

(** A string of white space only (the empty string included). *)
Definition blank (s : str) : bool := forallb isspace s.

(** ** Blocks and outlines *)

(** The optional fields of a block agree with its type: a heading level on
    headings only, a list type and items on lists only, a table on tables
    only, a language on code only; no image data and no confidence. *)
Definition fields_fit (b : ContentBlock) : Prop :=
  (headingLevel b <> None <-> type b = heading)
  /\ (listType b <> None <-> type b = list_)
  /\ (listItems b <> None <-> type b = list_)
  /\ (table b <> None <-> type b = table_)
  /\ (codeLanguage b <> None -> type b = code)
  /\ image b = None /\ confidence b = None.

(** What an outline entry and a heading block say about a heading. *)
Definition outline_entry (o : DocumentOutlineItem)
    : str * option Z * option Z * Z :=
  (title o, Some (level o), o_pageNumber o, o_position o).

Definition heading_entry (b : ContentBlock) : str * option Z * option Z * Z :=
  (content b, headingLevel b, pageNumber b, position b).

Definition headings (bs : list ContentBlock) : list ContentBlock :=
  filter (has_type heading) bs.

(** A Markdown line that is collected into a paragraph. *)
Definition is_text_line (line : str) : bool :=
  negb (is_marker_line line) && negb (blank line).

Definition prose : str :=
  text_of ["  Call me Ishmael."; "Some years ago.  "]%string.

Definition list_example : str :=
  text_of ["- milk"; "2. eggs"; "plain"; "  * tea"]%string.

(** Text with an accented letter, a CJK character and a character outside
    the basic plane, and its UTF-8 encoding. *)
Definition polyglot : str := u "# " ++ [0xe9; 0x4e2d; 0x1f600]%N.

Definition polyglot_utf8 : bytes :=
  [x23; x20; xc3; xa9; xe4; xb8; xad; xf0; x9f; x98; x80].

(** A request with the given Base64 text and file name, and no options. *)
Definition request_of (content64 name : string) : ParseRequest :=
  {| fileContent := u content64; req_filename := u name;
     mimeType := None; options := None |}.

Definition polyglot_request : ParseRequest :=
  request_of "IyDDqeS4rfCfmIA=" "notes.md".

(** ** The HTML loop *)

(** The elements the loop of the HTML normalizer visits, in document
    order: the descendants of [body] (of the whole tree without a [body])
    with one of the twelve names. *)
Definition html_elements (soup : Bs4.tag) : list Bs4.tag :=
  Bs4.find_all (match Bs4.find soup (u "body") with
                | Some b => b
                | None => soup
                end) html_query.

(** The block an element yields when the loop visits it first. *)
Definition html_block_of (element : Bs4.tag) : list ContentBlock :=
  match html_step html_init element with
  | inr st => h_blocks st
  | inl _ => []
  end.

(** The block [b], moved to position [pos]. *)
Definition at_position (ib : Z * ContentBlock) : ContentBlock :=
  let b := snd ib in
  {| type := type b; content := content b; pageNumber := pageNumber b;
     position := fst ib; headingLevel := headingLevel b;
     listType := listType b; listItems := listItems b; table := table b;
     codeLanguage := codeLanguage b; image := image b;
     confidence := confidence b |}.

(** Markup with a code element nested in a [pre] element. *)
Definition nested_html : str :=
  u "<h1>Guide</h1><pre><code>x = 1</code></pre><p>Done</p>".

(** ** The loops of the adapter *)

(** The text items and the tables the adapter visits. *)
Definition docling_texts (d : Docling.Document) : list Docling.TextItem :=
  getattr (Docling.texts d) [].

Definition docling_tables (options : ParseOptions) (d : Docling.Document)
    : list Docling.TableItem :=
  if extractTables options then getattr (Docling.tables d) [] else [].

(** The block a text item, or a table, yields when it is visited first. *)
Definition docling_block_of (item : Docling.TextItem) : list ContentBlock :=
  d_blocks (docling_text_step dl_init item).

Definition docling_table_of (t : Docling.TableItem) : list ContentBlock :=
  match docling_table 0 t with
  | inr (Some b) => [b]
  | _ => []
  end.

(** The warning of a table whose conversion raises. *)
Definition docling_warning_of (it : Z * Docling.TableItem) : list ParsingWarning :=
  match docling_table 0 (snd it) with
  | inl e => [TABLE_EXTRACTION_FAILED (fst it) e]
  | inr _ => []
  end.

(** A text item with the given text, label and page. *)
Definition item (t l : string) (page : Z) : Docling.TextItem :=
  {| Docling.text := Some (u t); Docling.item_str := [];
     Docling.label := Some (u l); Docling.page_no := Some page |}.

(** A converted document with a blank item between two others and with
    three tables, the second of which fails. *)
Definition minutes : Docling.Document :=
  {| Docling.pages := Some 2;
     Docling.doc_title := None;
     Docling.texts :=
       Some [ item "Minutes" "title" 1; item "   " "text" 1;
              item "Agenda" "list_item" 2 ];
     Docling.tables := Some [good_table 1; bad_table; good_table 2];
     Docling.export_to_markdown := None |}.

(** [int('x')] *)
Definition int_x : result Z :=
  inl (Exception "ValueError" (u "invalid literal for int() with base 10: 'x'")).

(** A table whose second row label is no integer. *)
Definition unlabelled_frame : Docling.DataFrame :=
  {| Docling.columns := [u "k"];
     Docling.iterrows := [ (inr 0, [u "a"]); (int_x, [u "b"]) ] |}.

Definition unlabelled_table : Docling.TableItem :=
  {| Docling.export_to_dataframe := Some (inr unlabelled_frame);
     Docling.table_page_no := None |}.



(** [pd.DataFrame(index=['x'])]: one row labelled ['x'], no column. *)
Definition columnless_frame : Docling.DataFrame :=
  {| Docling.columns := []; Docling.iterrows := [ (int_x, []) ] |}.

Definition columnless_table : Docling.TableItem :=
  {| Docling.export_to_dataframe := Some (inr columnless_frame);
     Docling.table_page_no := None |}.

(** ** File names *)

(** The character [c] does not occur in [s]. *)
Definition lacks (c : char) (s : str) : bool := forallb (fun x => negb (x =? c)%N) s.

(** ** Responses *)

(** The formats handed to the conversion backend. *)
Definition binary_formats : list str := map u ["pdf"; "docx"; "pptx"; "xlsx"]%string.

(** A response carries either a document, whose [success] it repeats, and
    no error; or no document, an error message and [success = false]. *)
Definition well_formed_response (r : ParseResponse) : Prop :=
  match document r with
  | Some doc => error r = None /\ r_success r = success doc
  | None => error r <> None /\ r_success r = false
  end.

(** A decoder that rejects its input, as [b64decode] rejects [AA]; a payload
    of zero octets, one octet above the limit, with its Base64 text and a
    request for it. *)
Definition rejects : str -> result bytes :=
  fun _ => inl (Exception "binascii.Error" (u "Incorrect padding")).

Definition oversized : bytes := repeat x00 (Z.to_nat (MAX_FILE_SIZE + 1)).

Definition oversized_request : ParseRequest :=
  {| fileContent :=
       repeat (ch "A") (4 * Z.to_nat (MAX_FILE_SIZE / 3) + 2) ++ u "==";
     req_filename := u "notes.md"; mimeType := None; options := None |}.

(** A backend whose conversion raises. *)
Definition failing_backend : Docling.DocumentConverter :=
  {| Docling.convert := fun _ _ => inl (Exception "RuntimeError" (u "conversion failed"));
     Docling.version := None |}.

(** Markup that [html.parser] rejects, its octets and a request for it. *)
Definition rejected_html : str := u "<![x]>".

Definition rejected_bytes : bytes := [x3c; x21; x5b; x78; x5d; x3e].

Definition rejected_request : ParseRequest := request_of "PCFbeF0+" "x.html".

(** The octets of [<p>Hi</p>]. *)
Definition html_bytes : bytes := [x3c; x70; x3e; x48; x69; x3c; x2f; x70; x3e].

(* ================================================================== *)
(** * Properties of the built-ins *)
(* ================================================================== *)

Lemma str_eqb_eq (a b : str) : str_eqb a b = true <-> a = b.
Proof.
  revert b; induction a as [|x a IH]; intros [|y b]; simpl; split;
    try congruence; try reflexivity.
  - intros H. apply andb_true_iff in H as [Hx Hab].
    apply N.eqb_eq in Hx. apply IH in Hab. congruence.
  - intros H. injection H as -> ->. rewrite N.eqb_refl. simpl.
    now apply IH.
Qed.

Lemma len_app {A} (l1 l2 : list A) : len (l1 ++ l2) = len l1 + len l2.
Proof. unfold len. rewrite length_app. lia. Qed.

Lemma len_nonneg {A} (l : list A) : 0 <= len l.
Proof. unfold len. lia. Qed.

Lemma range_snoc (n : Z) : 0 <= n -> range 0 (n + 1) = range 0 n ++ [n].
Proof.
  intros Hn. unfold range.
  replace (Z.to_nat (n + 1 - 0)) with (S (Z.to_nat (n - 0))) by lia.
  rewrite seq_S, map_app. simpl. do 2 f_equal. lia.
Qed.

(** ** [str.split] and [str.join] *)

Lemma startswith_app (s prefix : str) :
  startswith s prefix = true ->
  s = prefix ++ skipn (List.length prefix) s.
Proof.
  revert s. induction prefix as [|p prefix IH]; intros s H; [reflexivity|].
  destruct s as [|c s]; [discriminate|]. cbn in H.
  apply andb_true_iff in H as [Hc Hs]. apply N.eqb_eq in Hc. subst.
  cbn. f_equal. now apply IH.
Qed.

Lemma split_from_nonempty (sep s : str) (skip : nat) (cur : str) :
  split_from sep s skip cur <> [].
Proof.
  revert skip cur. induction s as [|c s IH]; intros skip cur; cbn [split_from].
  - discriminate.
  - destruct skip; [|apply IH]. destruct (startswith (c :: s) sep);
      [discriminate|apply IH].
Qed.

Lemma join_cons (sep p : str) (rest : list str) :
  rest <> [] -> join sep (p :: rest) = p ++ sep ++ join sep rest.
Proof. destruct rest; [congruence|reflexivity]. Qed.

Lemma join_split_from (sep s : str) :
  sep <> [] ->
  forall (skip : nat) (cur : str),
    (skip <= List.length s)%nat ->
    join sep (split_from sep s skip cur) = rev cur ++ skipn skip s.
Proof.
  intros Hsep. induction s as [|c s IH]; intros skip cur Hskip.
  - cbn in Hskip. replace skip with 0%nat by lia. cbn. now rewrite app_nil_r.
  - cbn [split_from]. destruct skip as [|k].
    + destruct (startswith (c :: s) sep) eqn:E.
      * rewrite join_cons by apply split_from_nonempty.
        pose proof (startswith_app _ _ E) as Hs.
        destruct sep as [|p sep]; [congruence|].
        assert (Hlen : (List.length sep <= List.length s)%nat).
        { apply (f_equal (@List.length _)) in Hs.
          rewrite length_app, length_skipn in Hs. cbn in Hs. lia. }
        rewrite IH by (cbn; lia). cbn [rev app].
        cbn [List.length] in *. replace (S (List.length sep) - 1)%nat
          with (List.length sep) by lia.
        cbn [skipn] in Hs |- *. rewrite Hs at 1. reflexivity.
      * rewrite IH by lia. cbn [rev skipn]. now rewrite <- app_assoc.
    + cbn [List.length] in Hskip. rewrite IH by lia. reflexivity.
Qed.

Lemma join_split (s sep : str) : sep <> [] -> join sep (split s sep) = s.
Proof.
  intros Hsep. unfold split.
  rewrite (join_split_from sep s Hsep 0 []) by lia. reflexivity.
Qed.

Example split_at_blank_lines :
  split (text_of ["a"; EmptyString; EmptyString; "b"; EmptyString; "c"]%string)
        [nl; nl]
  = [u "a"; nl :: u "b"; u "c"].
Proof. reflexivity. Qed.

Example format_detection_ignores_case :
  get_format_from_filename (u "REPORT.PDF") = Some (u "pdf")
  /\ get_format_from_filename (u "report.pdf") = Some (u "pdf")
  /\ get_format_from_filename (u "archive.tar.gz") = None.
Proof. repeat split; reflexivity. Qed.

Example blank_markdown_has_no_blocks :
  md_blocks (md_scan (text_of [EmptyString; "   "; EmptyString]%string)) = [].
Proof. reflexivity. Qed.

(** ** Heading lines *)

Lemma lstrip_cons c rest chars :
  lstrip (c :: rest) chars = if mem c chars then lstrip rest chars else c :: rest.
Proof. reflexivity. Qed.

Lemma mem_hash c : mem c (u "#") = (c =? ch "#")%N.
Proof. unfold mem. simpl. apply orb_false_r. Qed.

Lemma len_cons {A} (x : A) l : len (x :: l) = 1 + len l.
Proof. unfold len. simpl List.length. lia. Qed.

Lemma lstrip_hashes (line : str) :
  len line - len (lstrip line (u "#")) = leading_hashes line.
Proof.
  induction line as [|c rest IH]; [reflexivity|].
  rewrite lstrip_cons, mem_hash. cbn [leading_hashes].
  destruct (c =? ch "#")%N.
  - rewrite <- IH, len_cons. lia.
  - lia.
Qed.

Lemma leading_hashes_nonneg line : 0 <= leading_hashes line.
Proof.
  induction line as [|x r IH]; cbn [leading_hashes]; [lia|].
  destruct (x =? ch "#")%N; lia.
Qed.

Lemma is_heading_line_cons line :
  is_heading_line line = true -> exists rest, line = ch "#" :: rest.
Proof.
  destruct line as [|c rest]; unfold is_heading_line; cbn; [discriminate|].
  destruct (c =? 35)%N eqn:E; [|discriminate].
  apply N.eqb_eq in E. subst. intros _. now exists rest.
Qed.

Lemma leading_hashes_pos (line : str) :
  is_heading_line line = true -> 1 <= leading_hashes line.
Proof.
  intros H. apply is_heading_line_cons in H as [rest ->].
  cbn [leading_hashes]. rewrite N.eqb_refl.
  pose proof (leading_hashes_nonneg rest). lia.
Qed.

Lemma heading_level_spec (line : str) :
  heading_level line = Z.min (leading_hashes line) 6.
Proof. unfold heading_level. now rewrite lstrip_hashes. Qed.

(** ** The Markdown scan: positions *)

Lemma flush_blocks st : md_blocks (flush st) = md_blocks st ++ flushed st.
Proof.
  unfold flush, flushed.
  destruct (truthy (current_paragraph st)); [|now rewrite app_nil_r].
  cbv zeta. destruct (truthy (strip _)); cbn; [reflexivity|now rewrite app_nil_r].
Qed.

Lemma flush_position st : md_position (flush st) = md_position st + len (flushed st).
Proof.
  unfold flush, flushed.
  destruct (truthy (current_paragraph st)); [|cbn; lia].
  cbv zeta. destruct (truthy (strip _)); cbn; lia.
Qed.

Lemma flush_outline st : md_outline (flush st) = md_outline st.
Proof.
  unfold flush. destruct (truthy (current_paragraph st)); [|reflexivity].
  cbv zeta. destruct (truthy (strip _)); reflexivity.
Qed.

Lemma flush_clears st : current_paragraph (flush st) = [].
Proof.
  unfold flush. destruct (truthy (current_paragraph st)) eqn:E.
  - cbv zeta. destruct (truthy (strip _)); reflexivity.
  - now destruct (current_paragraph st).
Qed.

Lemma md_step_blocks st line :
  md_blocks (md_step st line) = md_blocks st ++ step_out st line.
Proof.
  unfold md_step, step_out, is_marker_line, line_block.
  destruct (is_heading_line line); cbn [orb md_blocks].
  { now rewrite flush_blocks, flush_position, app_assoc. }
  destruct (is_fence_line line); cbn [orb md_blocks].
  { now rewrite flush_blocks, flush_position, app_assoc. }
  destruct (is_list_line line); cbn [orb md_blocks].
  { now rewrite flush_blocks, flush_position, app_assoc. }
  destruct (truthy (strip line)); cbn [md_blocks].
  - now rewrite app_nil_r.
  - apply flush_blocks.
Qed.

Lemma line_block_len pos line :
  len (line_block pos line) = if is_marker_line line then 1 else 0.
Proof.
  unfold line_block, is_marker_line.
  destruct (is_heading_line line), (is_fence_line line), (is_list_line line);
    reflexivity.
Qed.

Lemma md_step_position st line :
  md_position (md_step st line) = md_position st + len (step_out st line).
Proof.
  unfold md_step, step_out.
  pose proof (line_block_len (md_position st + len (flushed st)) line) as HL.
  unfold is_marker_line in *.
  destruct (is_heading_line line); cbn [orb md_position] in *.
  { rewrite flush_position, len_app, HL. lia. }
  destruct (is_fence_line line); cbn [orb md_position] in *.
  { rewrite flush_position, len_app, HL. lia. }
  destruct (is_list_line line); cbn [orb md_position] in *.
  { rewrite flush_position, len_app, HL. lia. }
  destruct (truthy (strip line)); cbn [md_position].
  - cbn. lia.
  - apply flush_position.
Qed.

Lemma counted_nil : counted [] 0.
Proof. split; reflexivity. Qed.

Lemma counted_snoc bs pos b :
  counted bs pos -> position b = pos -> counted (bs ++ [b]) (pos + 1).
Proof.
  intros [Hm Hp] Hb. split.
  - rewrite map_app, Hm, range_snoc; [cbn [map]; now rewrite Hb|].
    rewrite Hp. apply len_nonneg.
  - rewrite len_app, Hp. reflexivity.
Qed.

Lemma counted_flushed bs st :
  counted bs (md_position st) ->
  counted (bs ++ flushed st) (md_position st + len (flushed st)).
Proof.
  intros H. unfold flushed.
  destruct (truthy (current_paragraph st)); cbv zeta;
    [destruct (truthy (strip _))|]; cbn [len List.length Z.of_nat];
    rewrite ?app_nil_r, ?Z.add_0_r; try exact H.
  now apply counted_snoc.
Qed.

Lemma counted_line_block bs pos line :
  counted bs pos ->
  counted (bs ++ line_block pos line) (pos + len (line_block pos line)).
Proof.
  intros H. unfold line_block.
  destruct (is_heading_line line); [now apply counted_snoc|].
  destruct (is_fence_line line); [now apply counted_snoc|].
  destruct (is_list_line line); [now apply counted_snoc|].
  cbn. now rewrite app_nil_r, Z.add_0_r.
Qed.

Lemma counted_step st line :
  counted (md_blocks st) (md_position st) ->
  counted (md_blocks (md_step st line)) (md_position (md_step st line)).
Proof.
  intros H. rewrite md_step_blocks, md_step_position. unfold step_out.
  destruct (is_marker_line line).
  - rewrite app_assoc, len_app, Z.add_assoc.
    apply counted_line_block. now apply counted_flushed.
  - destruct (truthy (strip line)).
    + cbn. now rewrite app_nil_r, Z.add_0_r.
    + now apply counted_flushed.
Qed.

Lemma counted_loop lines st :
  counted (md_blocks st) (md_position st) ->
  counted (md_blocks (fold_left md_step lines st))
          (md_position (fold_left md_step lines st)).
Proof.
  revert st. induction lines as [|l lines IH]; intros st H; [exact H|].
  cbn [fold_left]. apply IH. now apply counted_step.
Qed.

Lemma md_scan_blocks content :
  md_blocks (md_scan content)
  = md_blocks (fold_left md_step (md_lines content) md_init)
    ++ flushed (fold_left md_step (md_lines content) md_init).
Proof.
  unfold md_scan, flushed, md_lines.
  destruct (truthy (current_paragraph _)); cbv zeta;
    [destruct (truthy (strip _))|]; cbn [md_blocks]; now rewrite ?app_nil_r.
Qed.

Lemma md_scan_positions content :
  map position (md_blocks (md_scan content))
  = range 0 (len (md_blocks (md_scan content))).
Proof.
  rewrite md_scan_blocks.
  pose proof (counted_loop (md_lines content) md_init counted_nil) as H.
  apply counted_flushed in H. destruct H as [Hm Hp]. now rewrite Hm, Hp.
Qed.

(** ** The Markdown scan: heading and code blocks *)

Lemma map_filter_flat_map {A B} (p : A -> bool) (f : A -> B) (l : list A) :
  map f (filter p l) = flat_map (fun a => if p a then [f a] else []) l.
Proof.
  induction l as [|a l IH]; [reflexivity|].
  cbn [filter flat_map]. destruct (p a); cbn; now rewrite IH.
Qed.

Lemma flushed_paragraphs st : Forall (fun b => type b = paragraph) (flushed st).
Proof.
  unfold flushed. destruct (truthy (current_paragraph st)); cbv zeta;
    [destruct (truthy (strip _))|]; repeat constructor.
Qed.

Lemma filter_flushed ty st :
  ty <> paragraph -> filter (has_type ty) (flushed st) = [].
Proof.
  intros Hty. pose proof (flushed_paragraphs st) as H.
  induction H as [|b l Hb _ IH]; [reflexivity|].
  cbn [filter]. unfold has_type at 1. rewrite Hb.
  destruct ty; try congruence; exact IH.
Qed.

Lemma fence_not_heading line :
  is_fence_line line = true -> is_heading_line line = false.
Proof.
  unfold is_fence_line, is_heading_line.
  destruct line as [|c rest]; [discriminate|]. cbn.
  destruct (c =? 96)%N eqn:E; [|discriminate].
  apply N.eqb_eq in E. now subst.
Qed.

Lemma filter_step_heading st line :
  filter (has_type heading) (step_out st line)
  = if is_heading_line line
    then [heading_block (heading_text line) (md_position st + len (flushed st))
                        (heading_level line) (Some 1)]
    else [].
Proof.
  unfold step_out, is_marker_line, line_block.
  destruct (is_heading_line line); cbn [orb].
  { rewrite filter_app, filter_flushed by discriminate. reflexivity. }
  destruct (is_fence_line line); cbn [orb].
  { rewrite filter_app, filter_flushed by discriminate. reflexivity. }
  destruct (is_list_line line); cbn [orb].
  { rewrite filter_app, filter_flushed by discriminate. reflexivity. }
  destruct (truthy (strip line)); [reflexivity|].
  apply filter_flushed. discriminate.
Qed.

Lemma filter_step_code st line :
  filter (has_type code) (step_out st line)
  = if is_fence_line line
    then [code_block [] (md_position st + len (flushed st)) (fence_lang line) (Some 1)]
    else [].
Proof.
  unfold step_out, is_marker_line, line_block.
  destruct (is_fence_line line) eqn:F.
  { rewrite (fence_not_heading line F). cbn [orb].
    rewrite filter_app, filter_flushed by discriminate. reflexivity. }
  destruct (is_heading_line line); cbn [orb].
  { rewrite filter_app, filter_flushed by discriminate. reflexivity. }
  destruct (is_list_line line); cbn [orb].
  { rewrite filter_app, filter_flushed by discriminate. reflexivity. }
  destruct (truthy (strip line)); [reflexivity|].
  apply filter_flushed. discriminate.
Qed.

(** A view of the blocks that depends on the line alone is, after the loop,
    the concatenation of the views of the lines. *)
Lemma loop_view {X} (ty : BlockType) (f : ContentBlock -> X) (g : str -> list X) :
  (forall st line, map f (filter (has_type ty) (step_out st line)) = g line) ->
  forall lines st,
    map f (filter (has_type ty) (md_blocks (fold_left md_step lines st)))
    = map f (filter (has_type ty) (md_blocks st)) ++ flat_map g lines.
Proof.
  intros Hg. induction lines as [|l lines IH]; intros st.
  - cbn. now rewrite app_nil_r.
  - cbn [fold_left flat_map]. rewrite IH, md_step_blocks, filter_app, map_app, Hg.
    now rewrite app_assoc.
Qed.

Lemma scan_view {X} (ty : BlockType) (f : ContentBlock -> X) (g : str -> list X) :
  ty <> paragraph ->
  (forall st line, map f (filter (has_type ty) (step_out st line)) = g line) ->
  forall content,
    map f (filter (has_type ty) (md_blocks (md_scan content)))
    = flat_map g (md_lines content).
Proof.
  intros Hty Hg content.
  rewrite md_scan_blocks, filter_app, filter_flushed, app_nil_r by exact Hty.
  now rewrite (loop_view ty f g Hg).
Qed.

Lemma md_heading_levels content :
  map headingLevel (filter (has_type heading) (md_blocks (md_scan content)))
  = map (fun line => Some (heading_level line))
        (filter is_heading_line (md_lines content)).
Proof.
  rewrite (map_filter_flat_map is_heading_line). apply scan_view; [discriminate|].
  intros st line. rewrite filter_step_heading.
  now destruct (is_heading_line line).
Qed.

Lemma md_code_blocks input :
  map (fun b => (content b, codeLanguage b))
      (filter (has_type code) (md_blocks (md_scan input)))
  = map (fun line => ([], fence_lang line))
        (filter is_fence_line (md_lines input)).
Proof.
  rewrite (map_filter_flat_map is_fence_line). apply scan_view; [discriminate|].
  intros st line. rewrite filter_step_code.
  now destruct (is_fence_line line).
Qed.

(** ** What [parse_markdown_content] returns *)

Lemma generate_document_id_run content filename name_bytes w :
  encode filename = inr name_bytes ->
  generate_document_id content filename w
  = (inr (u "doc_" ++ str_of_int (int_of_float (wall w (reads w))) ++ u "_"
          ++ firstn 12 (Hashlib.hexdigest
                          (Hashlib.update (Hashlib.update Hashlib.sha256 content)
                                          name_bytes))),
     World (S (reads w)) (wall w)).
Proof.
  intros H. unfold generate_document_id, bind, lift, time, ret, read_clock.
  rewrite H. reflexivity.
Qed.

Lemma generate_document_id_raises content filename e w :
  encode filename = inl e -> generate_document_id content filename w = (inl e, w).
Proof.
  intros H. unfold generate_document_id, bind, lift. now rewrite H.
Qed.

Lemma parse_markdown_content_returns content filename w doc :
  returns (parse_markdown_content content filename) w doc ->
  blocks doc = md_blocks (md_scan content)
  /\ outline doc = md_outline (md_scan content)
  /\ warnings doc = [] /\ success doc = true /\ fullText doc = content.
Proof.
  unfold returns, parse_markdown_content, bind, lift, time, ret.
  cbn [fst snd].
  destruct (encode content) as [e|cb]; [discriminate|].
  destruct (encode filename) as [e|nb] eqn:En.
  - erewrite generate_document_id_raises by eassumption. discriminate.
  - erewrite generate_document_id_run by eassumption. cbn [fst].
    intros H. injection H as <-. cbn. auto.
Qed.

Lemma parse_markdown_content_total content filename w :
  encodable content -> encodable filename ->
  exists doc, returns (parse_markdown_content content filename) w doc.
Proof.
  intros [cb Hc] [nb Hn].
  unfold returns, parse_markdown_content, bind, lift, time, ret.
  cbn [fst snd]. rewrite Hc. erewrite generate_document_id_run by eassumption. cbn [fst].
  eexists. reflexivity.
Qed.

(** ** Positions and heading levels *)

(** C1.  For every Markdown input the normalizer returns a document (the
    input and the file name being text that can be encoded, as all decoded
    input is), and the positions of its blocks are exactly
    [0, 1, ..., n-1].  Its heading blocks are, in order, those of the lines
    that start with [#], each with the number of leading [#] characters of
    its line, capped at 6, as [headingLevel]; hence every heading level lies
    between 1 and 6. *)
Theorem C1_markdown_positions_and_heading_levels :
  forall (input filename : str) (w : world),
    (encodable input -> encodable filename ->
     exists doc, returns (parse_markdown_content input filename) w doc)
    /\ forall doc : ParsedDocument,
         returns (parse_markdown_content input filename) w doc ->
         map position (blocks doc) = range 0 (len (blocks doc))
         /\ map headingLevel (filter (has_type heading) (blocks doc))
            = map (fun line => Some (Z.min (leading_hashes line) 6))
                  (filter is_heading_line (md_lines input))
         /\ Forall (fun b => type b = heading ->
                      exists l, headingLevel b = Some l /\ 1 <= l <= 6)
                   (blocks doc).
Proof.
  intros input filename w.
  split; [apply parse_markdown_content_total|]. intros doc Hret.
  apply parse_markdown_content_returns in Hret as [Hb _].
  rewrite Hb. clear Hb doc.
  assert (Hlevels :
    map headingLevel (filter (has_type heading) (md_blocks (md_scan input)))
    = map (fun line => Some (Z.min (leading_hashes line) 6))
          (filter is_heading_line (md_lines input))).
  { rewrite md_heading_levels. apply map_ext. intros line.
    now rewrite heading_level_spec. }
  split; [apply md_scan_positions|]. split; [exact Hlevels|].
  apply Forall_forall. intros b Hin Hty.
  assert (Hb : In (headingLevel b)
                 (map headingLevel
                      (filter (has_type heading) (md_blocks (md_scan input))))).
  { apply in_map, filter_In. split; [exact Hin|].
    unfold has_type. now rewrite Hty. }
  rewrite Hlevels in Hb. apply in_map_iff in Hb as [line [Hl Hline]].
  apply filter_In in Hline as [_ Hline]. apply leading_hashes_pos in Hline.
  exists (Z.min (leading_hashes line) 6). split; [now symmetry|lia].
Qed.

Lemma C1_markdown_witness :
  exists doc,
    returns (parse_markdown_content md_example (u "notes.md")) w0 doc
    /\ map position (blocks doc) = range 0 (len (blocks doc))
    /\ map headingLevel (filter (has_type heading) (blocks doc))
       = [Some 1; Some 6].
Proof.
  destruct (C1_markdown_positions_and_heading_levels
              md_example (u "notes.md") w0) as [Htotal Hpartial].
  destruct Htotal as [doc Hret]; [eexists; vm_compute; reflexivity ..|].
  exists doc. split; [exact Hret|].
  destruct (Hpartial doc Hret) as [Hp [Hl _]].
  split; [exact Hp|]. rewrite Hl. vm_compute. reflexivity.
Defined.

(** ** Fence lines *)

Lemma md_step_fence st line :
  is_fence_line line = true ->
  md_step st line
  = {| md_blocks := md_blocks (flush st)
         ++ [code_block [] (md_position (flush st)) (fence_lang line) (Some 1)];
       md_position := md_position (flush st) + 1;
       md_outline := md_outline st;
       current_paragraph := [] |}.
Proof.
  intros F. unfold md_step.
  rewrite (fence_not_heading line F), F, flush_outline, flush_clears.
  reflexivity.
Qed.

(** C4.  The code blocks of the document returned for a Markdown input are,
    in order, those of its lines that start with three backticks: one block
    per such line, with an empty body and with the trimmed text after the
    backticks as language, absent if that text is empty.  At such a line the
    scan flushes the pending paragraph and appends the code block at the
    next position; no later line is collected into its body. *)
Theorem C4_markdown_fence_emits_empty_code_block :
  forall (input filename : str) (w : world),
    (encodable input -> encodable filename ->
     exists doc, returns (parse_markdown_content input filename) w doc)
    /\ (forall doc : ParsedDocument,
          returns (parse_markdown_content input filename) w doc ->
          map (fun b => (content b, codeLanguage b))
              (filter (has_type code) (blocks doc))
          = map (fun line => ([], or_None (strip (skipn 3 line))))
                (filter is_fence_line (md_lines input)))
    /\ forall (st : md_state) (line : str),
         is_fence_line line = true ->
         md_step st line
         = {| md_blocks := md_blocks (flush st)
                ++ [code_block [] (md_position (flush st))
                               (or_None (strip (skipn 3 line))) (Some 1)];
              md_position := md_position (flush st) + 1;
              md_outline := md_outline st;
              current_paragraph := [] |}.
Proof.
  intros input filename w.
  split; [apply parse_markdown_content_total|]. split.
  - intros doc Hret.
    apply parse_markdown_content_returns in Hret as [Hb _].
    rewrite Hb. apply md_code_blocks.
  - intros st line F. now apply md_step_fence.
Qed.

Lemma C4_markdown_fence_witness :
  (exists doc,
     returns (parse_markdown_content fence_example (u "notes.md")) w0 doc
     /\ map (fun b => (content b, codeLanguage b))
            (filter (has_type code) (blocks doc))
        = [([], Some (u "py")); ([], None)])
  /\ is_fence_line (u "```py") = true
  /\ map (fun b => (type b, content b, codeLanguage b, position b))
         (md_blocks
            (md_step {| md_blocks := []; md_position := 0; md_outline := [];
                        current_paragraph := [u "intro"] |} (u "```py")))
     = [(paragraph, u "intro", None, 0); (code, [], Some (u "py"), 1)].
Proof.
  destruct (C4_markdown_fence_emits_empty_code_block
              fence_example (u "notes.md") w0) as [Htotal [Hdoc Hstep]].
  split.
  - destruct Htotal as [doc Hret]; [eexists; vm_compute; reflexivity ..|].
    exists doc. split; [exact Hret|].
    rewrite (Hdoc doc Hret). vm_compute. reflexivity.
  - split; [reflexivity|].
    rewrite (Hstep _ (u "```py") eq_refl). vm_compute. reflexivity.
Defined.

(** ** List items *)

Lemma md_step_list (st : md_state) (line : str) :
  is_heading_line line = false -> is_fence_line line = false ->
  is_list_line line = true ->
  md_step st line
  = {| md_blocks := md_blocks (flush st)
         ++ [list_block (item_text line) (md_position (flush st))
                        (list_type line) [item_text line] (Some 1)];
       md_position := md_position (flush st) + 1;
       md_outline := md_outline st;
       current_paragraph := [] |}.
Proof.
  intros H F L. unfold md_step.
  rewrite H, F, L, flush_outline, flush_clears. reflexivity.
Qed.

(** C3.  The item text of a list line is computed with [lstrip] over the
    character set [-*+0123456789. ], which removes more than the marker:
    digits and marker characters that begin the item's own text are lost.
    The line [- 2024 report] is a list line and yields the single item
    [report], where the line without its marker reads [2024 report]; the
    line [1. 2nd place] yields [nd place]. *)
Theorem C3_item_text_loses_leading_digits :
  is_list_line (u "- 2024 report") = true
  /\ map (fun b => (type b, listType b, listItems b, content b))
         (md_blocks (md_scan (u "- 2024 report")))
     = [(list_, Some unordered, Some [u "report"], u "report")]
  /\ without_marker (u "- 2024 report") = u "2024 report"
  /\ item_text (u "1. 2nd place") = u "nd place"
  /\ without_marker (u "1. 2nd place") = u "2nd place".
Proof. vm_compute. repeat split; reflexivity. Qed.

(** ** The plain-text normalizer *)

Lemma enumerate_from_positions {A} (l : list A) (i : Z) :
  map fst (enumerate_from i l) = map (fun k => i + Z.of_nat k) (seq 0 (List.length l)).
Proof.
  revert i. induction l as [|x l IH]; intros i; [reflexivity|].
  cbn [enumerate_from map List.length seq fst]. rewrite IH.
  rewrite <- seq_shift, map_map. f_equal; [lia|].
  apply map_ext. intros k. lia.
Qed.

Lemma enumerate_positions {A} (l : list A) :
  map fst (enumerate l) = range 0 (len l).
Proof.
  unfold enumerate, range, len. rewrite enumerate_from_positions.
  now replace (Z.to_nat (Z.of_nat (List.length l) - 0)) with (List.length l) by lia.
Qed.

Lemma enumerate_from_values {A} (l : list A) (i : Z) :
  map snd (enumerate_from i l) = l.
Proof.
  revert i. induction l as [|x l IH]; intros i; [reflexivity|].
  cbn. now rewrite IH.
Qed.

Lemma enumerate_values {A} (l : list A) : map snd (enumerate l) = l.
Proof. apply enumerate_from_values. Qed.

Lemma enumerate_length {A} (l : list A) : List.length (enumerate l) = List.length l.
Proof. now rewrite <- (length_map snd), enumerate_values. Qed.

Lemma txt_loop segments bs pos :
  fold_left txt_step segments (bs, pos)
  = (bs ++ map txt_paragraph
             (enumerate_from pos (filter truthy (map strip segments))),
     pos + len (filter truthy (map strip segments))).
Proof.
  revert bs pos. induction segments as [|s segments IH]; intros bs pos.
  - cbn. rewrite app_nil_r. f_equal. lia.
  - cbn [fold_left map filter]. unfold txt_step at 2. cbn [fst snd].
    destruct (truthy (strip s)).
    + rewrite IH. cbn [enumerate_from map]. rewrite <- app_assoc.
      f_equal. unfold len. cbn [List.length]. lia.
    + apply IH.
Qed.

Lemma txt_scan_blocks input :
  fst (txt_scan input) = map txt_paragraph (enumerate (txt_segments input)).
Proof. unfold txt_scan. now rewrite txt_loop. Qed.

Lemma parse_txt_content_returns input filename w doc :
  returns (parse_txt_content input filename) w doc ->
  blocks doc = fst (txt_scan input)
  /\ outline doc = [] /\ warnings doc = [] /\ success doc = true.
Proof.
  unfold returns, parse_txt_content, bind, lift, time, ret.
  cbn [fst snd].
  destruct (encode input) as [e|cb]; [discriminate|].
  destruct (encode filename) as [e|nb] eqn:En.
  - erewrite generate_document_id_raises by eassumption. discriminate.
  - erewrite generate_document_id_run by eassumption. cbn [fst].
    intros H. injection H as <-. cbn. auto.
Qed.

Lemma parse_txt_content_total input filename w :
  encodable input -> encodable filename ->
  exists doc, returns (parse_txt_content input filename) w doc.
Proof.
  intros [cb Hc] [nb Hn].
  unfold returns, parse_txt_content, bind, lift, time, ret.
  cbn [fst snd]. rewrite Hc. erewrite generate_document_id_run by eassumption.
  cbn [fst]. eexists. reflexivity.
Qed.

(** C7.  The plain-text normalizer returns a document for every input.  It
    splits the input at every occurrence of two newlines and emits one
    paragraph block per segment that is not empty once trimmed: the blocks
    are those segments, trimmed, in order, at positions [0, 1, ...] and on
    page 1; their number is the number of such segments; [outline] and
    [warnings] are empty and [success] is true. *)
Theorem C7_plain_text_paragraphs :
  forall (input filename : str) (w : world),
    let segments := filter truthy (map strip (split input [nl; nl])) in
    (encodable input -> encodable filename ->
     exists doc, returns (parse_txt_content input filename) w doc)
    /\ forall doc : ParsedDocument,
         returns (parse_txt_content input filename) w doc ->
         blocks doc
         = map (fun ip => new_ContentBlock paragraph (snd ip) (fst ip) (Some 1))
               (enumerate segments)
         /\ len (blocks doc) = len segments
         /\ map content (blocks doc) = segments
         /\ map position (blocks doc) = range 0 (len segments)
         /\ Forall (fun b => type b = paragraph /\ pageNumber b = Some 1)
                   (blocks doc)
         /\ outline doc = [] /\ warnings doc = [] /\ success doc = true.
Proof.
  intros input filename w segments.
  split; [apply parse_txt_content_total|]. intros doc Hret.
  apply parse_txt_content_returns in Hret as [Hb [Ho [Hw Hs]]].
  rewrite Hb, txt_scan_blocks. fold txt_paragraph. fold (txt_segments input).
  fold (txt_segments input) in segments. subst segments.
  repeat split; try assumption.
  - unfold len. now rewrite length_map, enumerate_length.
  - rewrite map_map. cbn [txt_paragraph content]. apply enumerate_values.
  - rewrite map_map. cbn [txt_paragraph position]. apply enumerate_positions.
  - apply Forall_forall. intros b Hin. apply in_map_iff in Hin as [ip [<- _]].
    split; reflexivity.
Qed.

Lemma C7_plain_text_witness :
  exists doc,
    returns (parse_txt_content txt_example (u "notes.txt")) w0 doc
    /\ map (fun b => (content b, position b)) (blocks doc)
       = [ (u "first" ++ [nl] ++ u "paragraph", 0); (u "second", 1);
           (u "third", 2) ]
    /\ len (blocks doc) = 3.
Proof.
  destruct (C7_plain_text_paragraphs txt_example (u "notes.txt") w0)
    as [Htotal Hpartial].
  destruct Htotal as [doc Hret]; [eexists; vm_compute; reflexivity ..|].
  exists doc. split; [exact Hret|].
  destruct (Hpartial doc Hret) as [Hb [Hn _]].
  split; [rewrite Hb|rewrite Hn]; vm_compute; reflexivity.
Defined.

(** ** Document identifiers *)

Lemma ch_inj a b : ch a = ch b -> a = b.
Proof.
  unfold ch. intros H.
  rewrite <- (ascii_N_embedding a), <- (ascii_N_embedding b). now rewrite H.
Qed.

Lemma u_inj s t : u s = u t -> s = t.
Proof.
  unfold u. intros H.
  rewrite <- (string_of_list_ascii_of_string s),
          <- (string_of_list_ascii_of_string t).
  f_equal. revert H. generalize (list_ascii_of_string s) (list_ascii_of_string t).
  induction l as [|a l IH]; intros [|b l'] H; try discriminate; [reflexivity|].
  cbn [map] in H. injection H as Hab Hl. apply ch_inj in Hab. apply IH in Hl.
  congruence.
Qed.

Lemma to_int_proper (n : Z) :
  Z.to_int n <> Decimal.Pos Decimal.Nil /\ Z.to_int n <> Decimal.Neg Decimal.Nil.
Proof.
  destruct n; cbn; split; try discriminate; intros H; injection H;
    apply Unsigned.to_uint_nonnil.
Qed.

Lemma str_of_int_inj (m n : Z) : str_of_int m = str_of_int n -> m = n.
Proof.
  unfold str_of_int. intros H. apply u_inj in H.
  destruct (to_int_proper m) as [Hm1 Hm2], (to_int_proper n) as [Hn1 Hn2].
  pose proof (NilZero.isi _ Hm1 Hm2) as Em.
  pose proof (NilZero.isi _ Hn1 Hn2) as En.
  rewrite H in Em. rewrite Em in En. injection En as En.
  rewrite <- (DecimalZ.of_to m), <- (DecimalZ.of_to n). now rewrite En.
Qed.

Lemma compress_length h block :
  List.length h = 8%nat -> List.length (Hashlib.compress h block) = 8%nat.
Proof.
  intros H. unfold Hashlib.compress.
  rewrite length_map, length_combine, H. reflexivity.
Qed.

Lemma digest_words_length msg : List.length (Hashlib.digest_words msg) = 8%nat.
Proof.
  unfold Hashlib.digest_words.
  generalize (Hashlib.chunks 64 (List.length (Hashlib.pad msg)) (Hashlib.pad msg)).
  assert (H : List.length Hashlib.H0 = 8%nat) by reflexivity.
  revert H. generalize Hashlib.H0.
  intros h H l. revert h H. induction l as [|b l IH]; intros h H; [exact H|].
  cbn [fold_left]. apply IH. now apply compress_length.
Qed.

Lemma flat_map_length_const {A B} (f : A -> list B) (k : nat) (l : list A) :
  (forall a, List.length (f a) = k) ->
  List.length (flat_map f l) = (k * List.length l)%nat.
Proof.
  intros Hf. induction l as [|a l IH]; cbn [flat_map List.length]; [lia|].
  rewrite length_app, Hf, IH. lia.
Qed.

Lemma hexdigest_length h : List.length (Hashlib.hexdigest h) = 64%nat.
Proof.
  unfold Hashlib.hexdigest, Hashlib.digest.
  rewrite (flat_map_length_const _ 2) by reflexivity.
  rewrite (flat_map_length_const _ 4) by reflexivity.
  now rewrite digest_words_length.
Qed.

Example sha256_empty :
  sha256_hex []
  = u "e3b0c44298fc1c149afbf4c8996fb92427ae41e4649b934ca495991b7852b855".
Proof. vm_compute. reflexivity. Qed.

Example sha256_abc :
  sha256_hex abc
  = u "ba7816bf8f01cfea414140de5dae2223b00361a396177a9cb410ff61f20015ad".
Proof. vm_compute. reflexivity. Qed.

(** C8.  The document identifier is [doc_], the whole seconds of the clock
    at the call, [_], and the first 12 hexadecimal digits of the SHA-256 of
    the content followed by the encoded file name.  Two calls on the same
    content and file name in the same second return the same identifier;
    calls in different seconds return different identifiers, which differ in
    the seconds only. *)
Theorem C8_document_id_format_and_stability :
  forall (data : bytes) (filename : str) (name_bytes : bytes),
    encode filename = inr name_bytes ->
    let digest12 := firstn 12 (sha256_hex (data ++ name_bytes)) in
    let id_at (w : world) :=
      u "doc_" ++ str_of_int (seconds w) ++ u "_" ++ digest12 in
    List.length digest12 = 12%nat
    /\ (forall w, returns (generate_document_id data filename) w (id_at w))
    /\ (forall w1 w2, seconds w1 = seconds w2 -> id_at w1 = id_at w2)
    /\ (forall w1 w2, seconds w1 <> seconds w2 -> id_at w1 <> id_at w2).
Proof.
  intros data filename name_bytes Hn digest12 id_at. repeat split.
  - unfold digest12, sha256_hex. rewrite length_firstn, hexdigest_length.
    reflexivity.
  - intros w. unfold returns.
    rewrite (generate_document_id_run data filename name_bytes w Hn).
    reflexivity.
  - intros w1 w2 H. unfold id_at. now rewrite H.
  - intros w1 w2 H E. apply H. unfold id_at in E.
    apply app_inv_head, app_inv_tail in E. now apply str_of_int_inj.
Qed.

Lemma C8_document_id_witness :
  encode (u "a.txt") = inr [x61; x2e; x74; x78; x74]
  /\ returns (generate_document_id abc (u "a.txt")) w0
             (u "doc_1700000000_00620d941ac0").
Proof.
  split; [vm_compute; reflexivity|].
  destruct (C8_document_id_format_and_stability abc (u "a.txt")
              [x61; x2e; x74; x78; x74]) as [_ [H _]];
    [vm_compute; reflexivity|].
  unfold returns in *. rewrite (H w0). vm_compute. reflexivity.
Defined.

(** ** Decoding and encoding *)

Lemma replacement_scalar : scalar replacement.
Proof. split; reflexivity. Qed.

Ltac bool_to_N :=
  repeat match goal with
  | H : (_ && _)%bool = true |- _ => apply andb_true_iff in H as [? ?]
  | H : (_ && _)%bool = false |- _ => apply andb_false_iff in H
  | H : (_ <=? _)%N = true |- _ => apply N.leb_le in H
  | H : (_ <=? _)%N = false |- _ => apply N.leb_gt in H
  | H : (_ <? _)%N = true |- _ => apply N.ltb_lt in H
  | H : (_ <? _)%N = false |- _ => apply N.ltb_ge in H
  | H : (_ =? _)%N = true |- _ => apply N.eqb_eq in H
  | H : (_ =? _)%N = false |- _ => apply N.eqb_neq in H
  end.

Lemma scalar_intro (c : char) :
  (c < 0xd800 \/ 0xdfff < c)%N -> (c < 0x110000)%N -> scalar c.
Proof.
  intros H1 H2. split; [exact H2|]. unfold is_surrogate.
  apply andb_false_iff. rewrite N.leb_gt, N.leb_gt. lia.
Qed.

Lemma decode_one_scalar (b0 : N) (rest : list N) (c : char) (n : nat) :
  decode_one b0 rest = (Some c, n) -> scalar c.
Proof.
  unfold decode_one, second_ok, is_cont.
  repeat match goal with
  | |- context [match ?l with [] => _ | _ :: _ => _ end] => destruct l
  | |- context [if ?b then _ else _] => destruct b eqn:?
  end;
  intros H; try discriminate; injection H as <- _;
  repeat match goal with
  | H : context [if ?b then _ else _] |- _ => destruct b eqn:?
  end;
  bool_to_N; subst; apply scalar_intro; lia.
Qed.

Lemma encode_char_scalar (c : char) :
  scalar c -> exists bs, encode_char c = Some bs.
Proof.
  intros [Hlt Hs]. unfold encode_char. rewrite Hs.
  apply N.ltb_lt in Hlt. rewrite Hlt.
  repeat match goal with
  | |- context [if ?b then _ else _] => destruct b
  end; eexists; reflexivity.
Qed.

(** The bytes do not depend on the index the encoder starts from. *)
Lemma encode_from_pos (s : str) :
  forall (p q : Z) (b : bytes), encode_from p s = inr b -> encode_from q s = inr b.
Proof.
  induction s as [|c s IH]; intros p q b H; [exact H|].
  cbn [encode_from] in *. destruct (encode_char c); [|discriminate].
  destruct (encode_from (p + 1) s) as [e|rest] eqn:E; [discriminate|].
  now rewrite (IH _ (q + 1) _ E).
Qed.

Lemma encode_cons (c : char) (s : str) (bs rest : bytes) :
  encode_char c = Some bs -> encode s = inr rest ->
  encode (c :: s) = inr (bs ++ rest).
Proof.
  unfold encode. intros Hc Hs. cbn [encode_from]. rewrite Hc.
  now rewrite (encode_from_pos s 0 (0 + 1) rest Hs).
Qed.

Lemma encode_cons_inv (c : char) (s : str) (b : bytes) :
  encode (c :: s) = inr b ->
  exists bs rest, encode_char c = Some bs /\ encode s = inr rest /\ b = bs ++ rest.
Proof.
  unfold encode. cbn [encode_from]. intros H.
  destruct (encode_char c) as [bs|]; [|discriminate].
  destruct (encode_from (0 + 1) s) as [e|rest] eqn:E; [discriminate|].
  exists bs, rest. injection H as <-.
  now rewrite (encode_from_pos s (0 + 1) 0 rest E).
Qed.

Lemma encode_scalars (s : str) : Forall scalar s -> encodable s.
Proof.
  unfold encodable. induction 1 as [|c s Hc _ [bs IH]]; [now exists []|].
  destruct (encode_char_scalar c Hc) as [cb Hcb].
  eexists. apply encode_cons; eassumption.
Qed.

Lemma decode_from_replace (bs : list N) :
  forall skip, exists s, decode_from Replace bs skip = inr s /\ Forall scalar s.
Proof.
  induction bs as [|b0 rest IH]; intros skip; [exists []; split; constructor|].
  cbn [decode_from]. destruct skip as [|k]; [|apply IH].
  destruct (decode_one b0 rest) as [oc n] eqn:E.
  destruct (IH (n - 1)%nat) as [s [Hs Hall]].
  destruct oc as [c|]; rewrite Hs; eexists; (split; [reflexivity|]);
    constructor; try assumption.
  - eapply decode_one_scalar; eassumption.
  - apply replacement_scalar.
Qed.

Lemma decode_replace_total (b : bytes) :
  exists s, decode b Replace = inr s /\ encodable s.
Proof.
  destruct (decode_from_replace (map Byte.to_N b) 0) as [s [Hs Hall]].
  exists s. split; [exact Hs|]. now apply encode_scalars.
Qed.

(** ** UTF-8: decoding what [str.encode] produced *)

Lemma to_N_b_ (n : N) : (n < 256)%N -> Byte.to_N (b_ n) = n.
Proof.
  intros H. unfold b_. destruct (Byte.of_N n) as [b|] eqn:E.
  - now apply Byte.to_of_N.
  - apply Byte.of_N_None_iff in E. lia.
Qed.

Lemma decode_from_skip (h : errors) (l tail : list N) :
  decode_from h (l ++ tail) (List.length l) = decode_from h tail 0.
Proof.
  induction l as [|b l IH]; [reflexivity|]. exact IH.
Qed.

(** Linear arithmetic with division by constants. *)
Ltac div_lia := zify; Z.to_euclidean_division_equations; lia.

Lemma decode_one_encode_char (c : char) (tail : list N) :
  match encode_char c with
  | Some bs =>
      match map Byte.to_N bs with
      | b0 :: r => decode_one b0 (r ++ tail) = (Some c, List.length bs)
      | [] => False
      end
  | None => True
  end.
Proof.
  unfold encode_char, is_surrogate.
  repeat match goal with
  | |- context [if ?b then _ else _] => destruct b eqn:?
  end; try exact I;
  cbn [map List.length]; bool_to_N;
  rewrite ?to_N_b_ by div_lia;
  unfold decode_one, second_ok, is_cont; cbn [app];
  repeat lazymatch goal with
  | |- (if ?b then _ else _) = _ => destruct b eqn:?
  end;
  repeat match goal with
  | H : context [if ?b then _ else _] |- _ => destruct b eqn:?
  end; bool_to_N;
  repeat match goal with
  | H : _ \/ _ |- _ => destruct H
  end; bool_to_N;
  solve [ exfalso; div_lia | f_equal; f_equal; div_lia ].
Qed.

Lemma decode_encode_char (h : errors) (c : char) (bs : bytes) (tail : list N) :
  encode_char c = Some bs ->
  decode_from h (map Byte.to_N bs ++ tail) 0
  = match decode_from h tail 0 with
    | inl e => inl e
    | inr s => inr (c :: s)
    end.
Proof.
  intros Hc. pose proof (decode_one_encode_char c tail) as H1.
  rewrite Hc in H1.
  destruct (map Byte.to_N bs) as [|b0 r] eqn:Hm; [contradiction|].
  cbn [app decode_from]. rewrite H1.
  replace (List.length bs - 1)%nat with (List.length r).
  - rewrite decode_from_skip. now destruct h.
  - apply (f_equal (@List.length N)) in Hm. rewrite length_map in Hm.
    cbn [List.length] in Hm. lia.
Qed.

(** [b.decode()] returns the text that [str.encode] was applied to, with
    either error handler. *)
Lemma decode_encode (h : errors) (s : str) (b : bytes) :
  encode s = inr b -> decode b h = inr s.
Proof.
  unfold decode. revert b. induction s as [|c s IH]; intros b H.
  - injection H as <-. reflexivity.
  - destruct (encode_cons_inv c s b H) as [bs [rest [Hc [Hs ->]]]].
    rewrite map_app, (decode_encode_char h c bs _ Hc), (IH rest Hs).
    reflexivity.
Qed.

(** ** UTF-8: what the [replace] handler returns *)









Example encode_surrogate_raises :
  encode (u "a" ++ [0xdc80%N])
  = inl (Exception "UnicodeEncodeError"
           (u "'utf-8' codec can't encode character '\udc80' in position 1: surrogates not allowed"))
  /\ encode (u "a" ++ [0xdc80%N; 0xdc81%N] ++ u "b")
     = inl (Exception "UnicodeEncodeError"
              (u "'utf-8' codec can't encode characters in position 1-2: surrogates not allowed")).
Proof. split; vm_compute; reflexivity. Qed.

Example decode_strict_raises :
  exists e, decode [xff] Strict = inl e.
Proof. eexists. reflexivity. Qed.

Example simple_parser_table_AB :
  SimpleHtml.parser table_AB_html = inr table_AB_soup.
Proof. vm_compute. reflexivity. Qed.

(** ** What [parse_html_content] returns *)

Lemma parse_html_content_returns bs4 input filename w doc :
  returns (parse_html_content bs4 input filename) w doc ->
  match html_try bs4 input with
  | Parsed soup =>
      exists st full_text title,
        html_extract soup = inr (st, full_text, title)
        /\ blocks doc = h_blocks st /\ outline doc = h_outline st
        /\ warnings doc = [] /\ success doc = true
  | Missing =>
      blocks doc = [] /\ outline doc = [] /\ fullText doc = input
      /\ warnings doc = [BEAUTIFULSOUP_MISSING] /\ success doc = false
  | Rejected _ => False
  end.
Proof.
  unfold returns, parse_html_content, html_try, bind, lift, time, ret.
  cbn [fst snd].
  destruct bs4 as [html_parser|];
    [destruct (html_parser input) as [e|soup];
     [destruct (is_ImportError e); [|discriminate]
     |destruct (html_extract soup) as [e|[[st full_text] title]];
      [discriminate|]]|];
    (destruct (encode input) as [e'|cb]; [discriminate|]);
    (destruct (encode filename) as [e'|nb] eqn:En;
     [erewrite generate_document_id_raises by eassumption; discriminate|]);
    erewrite generate_document_id_run by eassumption; cbn [fst];
    intros H; injection H as <-; [|exists st, full_text, title|]; cbn; auto.
Qed.

(** ** The HTML loop never raises *)

Lemma has_name_cases (names : list str) (t : Bs4.tag) :
  Bs4.has_name names t = true -> In (Bs4.name t) names.
Proof.
  unfold Bs4.has_name. intros H. apply existsb_exists in H as [n [Hin Heq]].
  apply str_eqb_eq in Heq. now subst.
Qed.

Lemma html_step_total (st : html_state) (element : Bs4.tag) :
  Bs4.has_name html_query element = true ->
  exists st', html_step st element = inr st'.
Proof.
  intros H. apply has_name_cases in H. unfold html_step.
  cbn in H.
  repeat (destruct H as [H|H]; [rewrite <- H; cbn;
    repeat match goal with
    | |- context [if ?b then _ else _] => destruct b
    end; eexists; reflexivity|]).
  contradiction.
Qed.

Lemma html_loop_total (elements : list Bs4.tag) :
  Forall (fun e => Bs4.has_name html_query e = true) elements ->
  forall st, exists st', html_loop st elements = inr st'.
Proof.
  induction 1 as [|e elements He _ IH]; intros st; [now exists st|].
  cbn [html_loop]. destruct (html_step_total st e He) as [st1 ->]. apply IH.
Qed.

Lemma find_all_names (t : Bs4.tag) (names : list str) :
  Forall (fun e => Bs4.has_name names e = true) (Bs4.find_all t names).
Proof.
  unfold Bs4.find_all. apply Forall_forall. intros e He.
  now apply filter_In in He as [_ He].
Qed.

Lemma html_extract_total (soup : Bs4.tag) : exists r, html_extract soup = inr r.
Proof.
  unfold html_extract.
  match goal with
  | |- context [html_loop html_init ?els] =>
      destruct (html_loop_total els (find_all_names _ _) html_init) as [st ->]
  end.
  eexists. reflexivity.
Qed.

Lemma parse_html_content_total bs4 input filename w :
  encodable input -> encodable filename ->
  (forall e, html_try bs4 input <> Rejected e) ->
  exists doc, returns (parse_html_content bs4 input filename) w doc.
Proof.
  intros [cb Hc] [nb Hn] Hacc.
  unfold returns, parse_html_content, bind, lift, time, ret.
  unfold html_try in Hacc.
  cbn [fst snd].
  destruct bs4 as [html_parser|];
    [destruct (html_parser input) as [e|soup];
     [destruct (is_ImportError e); [|now destruct (Hacc e)]
     |destruct (html_extract_total soup) as [[[st ft] ti] ->]]|];
    rewrite Hc; erewrite generate_document_id_run by eassumption;
    cbn [fst]; eexists; reflexivity.
Qed.

(** An exception of the tree builder that is no [ImportError] leaves the
    normalizer. *)
Lemma parse_html_content_raises bs4 input filename w e :
  html_try bs4 input = Rejected e ->
  fst (parse_html_content bs4 input filename w) = inl e.
Proof.
  unfold parse_html_content, html_try, bind, lift, time, ret.
  cbn [fst snd].
  destruct bs4 as [html_parser|]; [|discriminate].
  destruct (html_parser input) as [e'|soup]; [|discriminate].
  destruct (is_ImportError e'); [discriminate|].
  intros H. injection H as <-. reflexivity.
Qed.

(** ** The two-by-two table *)

(** C2.  For the markup [<table><tr><th>A</th><th>B</th></tr>
    <tr><td>1</td><td>2</td></tr></table>], parsed into the tree that
    [html.parser] builds for it, the HTML normalizer returns a document with
    one block, a table.
    Its [TableStructure] has the headers [A] and [B], [hasHeader = true],
    two cells in row 0, both header cells, two cells in row 1, both data
    cells, and as [markdown] the lines [| A | B |], [| --- | --- |] and
    [| 1 | 2 |] joined by newlines. *)
Theorem C2_html_table_AB :
  forall (html_parser : str -> result Bs4.tag) (filename : str) (w : world),
    html_parser table_AB_html = inr table_AB_soup ->
    (encodable filename ->
     exists doc,
       returns (parse_html_content (Some html_parser) table_AB_html filename)
               w doc)
    /\ forall doc : ParsedDocument,
         returns (parse_html_content (Some html_parser) table_AB_html filename)
                 w doc ->
         exists t,
           blocks doc = [table_block (markdown t) 0 t (Some 1)]
           /\ headers t = [u "A"; u "B"]
           /\ hasHeader t = true
           /\ cells t
              = [ new_TableCell (u "A") 0 0 true; new_TableCell (u "B") 0 1 true;
                  new_TableCell (u "1") 1 0 false;
                  new_TableCell (u "2") 1 1 false ]
           /\ markdown t
              = u "| A | B |" ++ [nl] ++ u "| --- | --- |" ++ [nl]
                ++ u "| 1 | 2 |".
Proof.
  intros html_parser filename w Hsoup. split.
  { intros Hname. apply parse_html_content_total; [|exact Hname|].
    - eexists. vm_compute. reflexivity.
    - intros e. unfold html_try. rewrite Hsoup. discriminate. }
  intros doc Hret.
  apply parse_html_content_returns in Hret.
  unfold html_try in Hret. rewrite Hsoup in Hret.
  destruct Hret as [st [full_text [title [Hx [Hb _]]]]].
  vm_compute in Hx. injection Hx as <- _ _.
  exists table_AB. rewrite Hb. repeat split; vm_compute; reflexivity.
Qed.

Lemma C2_html_table_witness :
  SimpleHtml.parser table_AB_html = inr table_AB_soup
  /\ exists doc t,
       returns (parse_html_content (Some SimpleHtml.parser) table_AB_html
                                   (u "t.html")) w0 doc
       /\ map table (blocks doc) = [Some t]
       /\ headers t = [u "A"; u "B"]
       /\ map (fun c => (cell_content c, row c, col c, isHeader c)) (cells t)
          = [ (u "A", 0, 0, true); (u "B", 0, 1, true);
              (u "1", 1, 0, false); (u "2", 1, 1, false) ].
Proof.
  split; [vm_compute; reflexivity|].
  destruct (C2_html_table_AB SimpleHtml.parser (u "t.html") w0)
    as [Htotal Hpartial]; [vm_compute; reflexivity|].
  destruct Htotal as [doc Hret]; [eexists; vm_compute; reflexivity|].
  destruct (Hpartial doc Hret) as [t [Hb [Hh [_ [Hc _]]]]].
  exists doc, t. split; [exact Hret|].
  split; [now rewrite Hb|]. split; [exact Hh|]. now rewrite Hc.
Defined.

(** ** Warnings of the HTML normalizer *)

(** C10.  When [bs4] can be imported and the tree builder returns a tree,
    the HTML normalizer returns a document without warnings and with
    [success = true], whatever the markup and whatever the tree.  When the
    [ImportError] handler runs, it returns a document with the single
    warning [BEAUTIFULSOUP_MISSING] and [success = false]; no other
    document has a warning.  When the tree builder raises another
    exception, the normalizer returns no document: the exception leaves
    it. *)
Theorem C10_html_warnings_only_without_parser :
  forall (BeautifulSoup : option (str -> result Bs4.tag)) (input filename : str)
         (w : world),
    (encodable input -> encodable filename ->
     match html_try BeautifulSoup input with
     | Rejected e =>
         fst (parse_html_content BeautifulSoup input filename w) = inl e
     | _ =>
         exists doc,
           returns (parse_html_content BeautifulSoup input filename) w doc
     end)
    /\ forall doc : ParsedDocument,
         returns (parse_html_content BeautifulSoup input filename) w doc ->
         match html_try BeautifulSoup input with
         | Parsed _ => warnings doc = [] /\ success doc = true
         | Missing =>
             warnings doc = [BEAUTIFULSOUP_MISSING] /\ success doc = false
         | Rejected _ => False
         end.
Proof.
  intros bs4 input filename w. split.
  - intros Hi Hf. destruct (html_try bs4 input) as [soup| |e] eqn:E;
      [apply parse_html_content_total; try assumption; rewrite E; discriminate ..
      |now apply parse_html_content_raises].
  - intros doc Hret. apply parse_html_content_returns in Hret.
    destruct (html_try bs4 input); [|now destruct Hret as [_ [_ [_ Hw]]]|exact Hret].
    now destruct Hret as [st [full_text [title [_ [_ [_ Hw]]]]]].
Qed.

Lemma C10_html_warnings_witness :
  exists doc,
    returns (parse_html_content (Some SimpleHtml.parser) messy_html
                                (u "m.html")) w0 doc
    /\ warnings doc = [] /\ success doc = true.
Proof.
  destruct (C10_html_warnings_only_without_parser
              (Some SimpleHtml.parser) messy_html (u "m.html") w0)
    as [Htotal Hpartial].
  destruct Htotal as [doc Hret]; [eexists; vm_compute; reflexivity ..|].
  exists doc. split; [exact Hret|]. exact (Hpartial doc Hret).
Defined.

(** With [bs4] imported, the markup [<![x]>] yields no document: the
    exception of the tree builder leaves the normalizer, and the service
    answers with [success = false]. *)
Lemma C10_rejected_markup_fails :
  fst (parse_html_content (Some SimpleHtml.parser) rejected_html (u "x.html") w0)
  = inl SimpleHtml.ParserRejectedMarkup
  /\ (forall doc,
        ~ returns (parse_html_content (Some SimpleHtml.parser) rejected_html
                                      (u "x.html")) w0 doc)
  /\ exists ms,
       fst (parse (yields rejected_bytes) (Some SimpleHtml.parser) false None
                  rejected_request w0)
       = Returns {| r_success := false; document := None;
                    error := Some (exn_msg SimpleHtml.ParserRejectedMarkup);
                    processingTimeMs := ms |}.
Proof.
  assert (H : fst (parse_html_content (Some SimpleHtml.parser) rejected_html
                                      (u "x.html") w0)
              = inl SimpleHtml.ParserRejectedMarkup)
    by (vm_compute; reflexivity).
  split; [exact H|]. split.
  - intros doc Hret. unfold returns in Hret. rewrite H in Hret. discriminate.
  - eexists. vm_compute. reflexivity.
Qed.

(** ** Grids of cells *)





Lemma filter_none {A} (p : A -> bool) (l : list A) :
  Forall (fun a => p a = false) l -> filter p l = [].
Proof.
  induction 1 as [|a l Ha _ IH]; [reflexivity|]. cbn. now rewrite Ha.
Qed.


(** ** The HTML table loops *)

Lemma html_cell_loop (row_idx : Z) (ics : list (Z * Bs4.tag))
    (hs : list str) (cs : list TableCell) :
  let mk ic :=
    new_TableCell (strip (Bs4.get_text (snd ic) [])) row_idx (fst ic)
                  (str_eqb (Bs4.name (snd ic)) (u "th") || (row_idx =? 0)) in
  fold_left (html_cell_step row_idx) ics (hs, cs)
  = (hs ++ (if row_idx =? 0 then map cell_content (map mk ics) else []),
     cs ++ map mk ics).
Proof.
  intros mk. revert hs cs. induction ics as [|ic ics IH]; intros hs cs.
  - cbn. destruct (row_idx =? 0); now rewrite !app_nil_r.
  - cbn [fold_left map]. unfold html_cell_step at 2. cbn [fst snd].
    rewrite IH. fold (mk ic). rewrite <- !app_assoc. cbn [app].
    destruct (row_idx =? 0); cbn [andb orb].
    + rewrite orb_true_r. cbn [andb]. rewrite <- app_assoc. reflexivity.
    + rewrite andb_false_r. rewrite !app_nil_r. reflexivity.
Qed.

Lemma html_row_loop (irs : list (Z * Bs4.tag)) (hs : list str) (cs : list TableCell) :
  fold_left html_row_step irs (hs, cs)
  = (hs ++ flat_map html_row_headers irs, cs ++ flat_map html_row_cells irs).
Proof.
  revert hs cs. induction irs as [|ir irs IH]; intros hs cs.
  - cbn. now rewrite !app_nil_r.
  - cbn [fold_left flat_map]. unfold html_row_step at 2.
    rewrite html_cell_loop, IH, <- !app_assoc. reflexivity.
Qed.

Lemma html_row_cells_row (ir : Z * Bs4.tag) :
  Forall (fun c => row c = fst ir) (html_row_cells ir).
Proof.
  unfold html_row_cells. apply Forall_forall. intros c Hc.
  apply in_map_iff in Hc as [ic [<- _]]. reflexivity.
Qed.


Lemma html_later_rows (trs : list Bs4.tag) (k : Z) :
  0 < k ->
  flat_map html_row_headers (enumerate_from k trs) = []
  /\ filter (fun c => row c =? 0) (flat_map html_row_cells (enumerate_from k trs)) = [].
Proof.
  revert k. induction trs as [|tr trs IH]; intros k Hk; [now split|].
  cbn [enumerate_from flat_map]. destruct (IH (k + 1)) as [IH1 IH2]; [lia|].
  rewrite IH1, filter_app, IH2, !app_nil_r. split.
  - unfold html_row_headers. cbn [fst].
    destruct (k =? 0) eqn:E; [lia|reflexivity].
  - apply filter_none. eapply Forall_impl; [|apply html_row_cells_row].
    cbn. intros c ->. lia.
Qed.


(** ** Every table block of the HTML normalizer *)

Lemma tables_ok_snoc (bs : list ContentBlock) (b : ContentBlock) :
  tables_ok bs -> (forall t, table b = Some t -> table_inv t) ->
  tables_ok (bs ++ [b]).
Proof.
  intros H Hb. apply Forall_app. split; [exact H|]. now constructor.
Qed.




(** ** Tables of the conversion backend *)

Lemma docling_value_cells_label (i : Z) (values : list (Z * str)) :
  docling_value_cells (inr i) values
  = inr (map (fun cv => new_TableCell (snd cv) (i + 1) (fst cv) false) values).
Proof.
  induction values as [|[c v] values IH]; [reflexivity|].
  cbn [docling_value_cells map fst snd]. now rewrite IH.
Qed.

Lemma docling_value_cells_raises (e : exn) (values : list (Z * str)) :
  values <> [] -> docling_value_cells (inl e) values = inl e.
Proof. destruct values as [|[c v] values]; [congruence|reflexivity]. Qed.

Lemma enumerate_nil {A} (l : list A) : enumerate l = [] -> l = [].
Proof. destruct l; [reflexivity|discriminate]. Qed.

Lemma docling_data_cells_labels (rows : list (result Z * list str)) (labels : list Z) :
  map fst rows = map (fun i => inr i) labels ->
  docling_data_cells rows
  = inr (flat_map docling_row_cells (combine labels (map snd rows))).
Proof.
  revert labels. induction rows as [|[r vs] rows IH]; intros [|i labels] H;
    try discriminate; [reflexivity|].
  cbn [map fst] in H. injection H as -> H.
  cbn [docling_data_cells map snd combine flat_map].
  now rewrite docling_value_cells_label, (IH labels H).
Qed.

Lemma range_cons (a b : Z) : a < b -> range a b = a :: range (a + 1) b.
Proof.
  intros H. unfold range.
  replace (Z.to_nat (b - a)) with (S (Z.to_nat (b - (a + 1)))) by lia.
  cbn [seq map]. f_equal; [lia|].
  rewrite <- seq_shift, map_map. apply map_ext. intros k. lia.
Qed.






(** ** The loops of the adapter *)

Lemma docling_text_step_tables (st : dl_state) (item : Docling.TextItem) :
  tables_ok (d_blocks st) -> tables_ok (d_blocks (docling_text_step st item)).
Proof.
  intros Hok. unfold docling_text_step.
  repeat match goal with
  | |- context [if ?b then _ else _] => destruct b
  end; try exact Hok; cbn [d_blocks]; apply tables_ok_snoc; try exact Hok;
  cbn; intros t Ht; discriminate.
Qed.

Lemma docling_text_step_warnings (st : dl_state) (item : Docling.TextItem) :
  d_warnings (docling_text_step st item) = d_warnings st.
Proof.
  unfold docling_text_step.
  repeat match goal with
  | |- context [if ?b then _ else _] => destruct b
  end; reflexivity.
Qed.

Lemma docling_texts_loop (items : list Docling.TextItem) (st : dl_state) :
  tables_ok (d_blocks st) ->
  tables_ok (d_blocks (fold_left docling_text_step items st))
  /\ d_warnings (fold_left docling_text_step items st) = d_warnings st.
Proof.
  revert st. induction items as [|item items IH]; intros st Hok; [now split|].
  cbn [fold_left].
  destruct (IH (docling_text_step st item)) as [H1 H2];
    [now apply docling_text_step_tables|].
  split; [exact H1|]. now rewrite H2, docling_text_step_warnings.
Qed.

Lemma docling_tables_loop (ts : list Docling.TableItem) (k : Z) (st : dl_state) :
  fold_left docling_table_step (enumerate_from k ts) st
  = {| d_blocks := d_blocks st ++ table_blocks (d_position st) ts;
       d_position := d_position st + len (table_blocks (d_position st) ts);
       d_outline := d_outline st;
       d_warnings := d_warnings st ++ table_warnings (d_position st) k ts |}.
Proof.
  revert k st. induction ts as [|t ts IH]; intros k st.
  - cbn. rewrite !app_nil_r, Z.add_0_r. now destruct st.
  - cbn [enumerate_from fold_left table_blocks table_warnings].
    rewrite IH. unfold docling_table_step. cbn [fst snd].
    destruct (docling_table (d_position st) t) as [e|[b|]];
      cbn [d_blocks d_position d_outline d_warnings].
    + now rewrite <- app_assoc.
    + rewrite <- app_assoc. cbn [app]. f_equal.
      unfold len. cbn [List.length]. lia.
    + reflexivity.
Qed.

Lemma docling_table_failure (pos pos' : Z) (t : Docling.TableItem) (e : exn) :
  docling_table pos t = inl e -> docling_table pos' t = inl e.
Proof.
  unfold docling_table.
  destruct (Docling.export_to_dataframe t) as [[e'|df]|]; try discriminate;
    [trivial|].
  destruct (docling_data_cells (Docling.iterrows df)); [trivial|discriminate].
Qed.

Lemma docling_table_success (pos pos' : Z) (t : Docling.TableItem) :
  (exists ob, docling_table pos t = inr ob) ->
  (exists ob, docling_table pos' t = inr ob).
Proof.
  unfold docling_table.
  destruct (Docling.export_to_dataframe t) as [[e'|df]|].
  - intros [ob H]. discriminate.
  - destruct (docling_data_cells (Docling.iterrows df)).
    + intros [ob H]. discriminate.
    + intros _. eexists. reflexivity.
  - intros _. eexists. reflexivity.
Qed.

Lemma table_blocks_skip (e : exn) (bad : Docling.TableItem)
    (t1 t2 : list Docling.TableItem) (pos : Z) :
  docling_table 0 bad = inl e ->
  table_blocks pos (t1 ++ bad :: t2) = table_blocks pos (t1 ++ t2).
Proof.
  intros Hbad. revert pos. induction t1 as [|t t1 IH]; intros pos.
  - cbn [app table_blocks].
    now rewrite (docling_table_failure 0 pos bad e Hbad).
  - cbn [app table_blocks].
    destruct (docling_table pos t) as [e'|[b|]]; now rewrite IH.
Qed.

Lemma table_warnings_good (ts : list Docling.TableItem) (pos k : Z) :
  Forall converts ts -> table_warnings pos k ts = [].
Proof.
  intros H. revert pos k. induction H as [|t ts Ht _ IH]; intros pos k;
    [reflexivity|].
  cbn [table_warnings].
  destruct (docling_table_success 0 pos t Ht) as [[b|] ->]; apply IH.
Qed.

Lemma table_warnings_one (e : exn) (bad : Docling.TableItem)
    (t1 t2 : list Docling.TableItem) (pos k : Z) :
  docling_table 0 bad = inl e -> Forall converts t1 -> Forall converts t2 ->
  table_warnings pos k (t1 ++ bad :: t2)
  = [TABLE_EXTRACTION_FAILED (k + len t1) e].
Proof.
  intros Hbad H1 H2. revert pos k.
  induction H1 as [|t t1 Ht _ IH]; intros pos k.
  - cbn [app table_warnings].
    rewrite (docling_table_failure 0 pos bad e Hbad).
    rewrite table_warnings_good by exact H2. cbn. now rewrite Z.add_0_r.
  - cbn [app table_warnings].
    destruct (docling_table_success 0 pos t Ht) as [[b|] ->]; rewrite IH;
      do 2 f_equal; unfold len; cbn [List.length]; lia.
Qed.

(** ** What [parse_with_docling] returns *)

Lemma parse_with_docling_returns avail conv file_content filename options w doc :
  returns (parse_with_docling avail (Some conv) file_content filename options) w doc ->
  exists d,
    Docling.convert conv file_content (lower (path_suffix filename)) = inr d
    /\ blocks doc = d_blocks (docling_scan options d)
    /\ outline doc = d_outline (docling_scan options d)
    /\ warnings doc = d_warnings (docling_scan options d)
    /\ success doc = true.
Proof.
  unfold returns, parse_with_docling, bind, lift, time, ret.
  destruct avail; [|discriminate]. cbn [fst snd].
  destruct (Docling.convert conv file_content _) as [e|d]; [discriminate|].
  destruct (match Docling.export_to_markdown d with
            | Some r => r
            | None => _
            end) as [e|full_text]; [discriminate|].
  destruct (encode filename) as [e|nb] eqn:En.
  - erewrite generate_document_id_raises by eassumption. discriminate.
  - erewrite generate_document_id_run by eassumption. cbn [fst].
    intros H. injection H as <-. exists d. cbn. auto.
Qed.

Lemma parse_with_docling_total conv file_content filename options w d :
  Docling.convert conv file_content (lower (path_suffix filename)) = inr d ->
  (forall err, Docling.export_to_markdown d <> Some (inl err)) ->
  encodable filename ->
  exists doc,
    returns (parse_with_docling true (Some conv) file_content filename options)
            w doc.
Proof.
  intros Hconv Hmd [nb Hn].
  unfold returns, parse_with_docling, bind, lift, time, ret.
  cbn [fst snd]. rewrite Hconv.
  destruct (Docling.export_to_markdown d) as [[err|full_text]|] eqn:E.
  - now destruct (Hmd err).
  - erewrite generate_document_id_run by eassumption. cbn [fst].
    eexists. reflexivity.
  - erewrite generate_document_id_run by eassumption. cbn [fst].
    eexists. reflexivity.
Qed.


(** ** The table invariant *)





(** ** One table that fails *)

(** C6.  When the backend call succeeds, tables are extracted, the
    conversion of one table raises and that of every other table does not,
    the adapter returns a document (unless the Markdown export of the
    backend raises) with exactly one warning, of code
    [TABLE_EXTRACTION_FAILED] and naming the index of that table, with
    [success = true], and with exactly the blocks, in the same order and at
    the same positions, that it emits for the same document without that
    table. *)
Theorem C6_one_failed_table_is_one_warning :
  forall (conv : Docling.DocumentConverter) (file_content : bytes)
         (filename : str) (options : ParseOptions) (w : world)
         (d : Docling.Document)
         (before after : list Docling.TableItem) (bad : Docling.TableItem)
         (e : exn),
    extractTables options = true ->
    Docling.convert conv file_content (lower (path_suffix filename)) = inr d ->
    Docling.tables d = Some (before ++ bad :: after) ->
    (forall pos, docling_table pos bad = inl e) ->
    Forall (fun t => forall pos, exists ob, docling_table pos t = inr ob)
           (before ++ after) ->
    (encodable filename ->
     (forall err, Docling.export_to_markdown d <> Some (inl err)) ->
     exists doc,
       returns (parse_with_docling true (Some conv) file_content filename options)
               w doc)
    /\ forall doc : ParsedDocument,
         returns (parse_with_docling true (Some conv) file_content filename
                                     options) w doc ->
         warnings doc = [TABLE_EXTRACTION_FAILED (len before) e]
         /\ success doc = true
         /\ blocks doc
            = d_blocks (docling_scan options (with_tables d (before ++ after))).
Proof.
  intros conv fc filename options w d before after bad e
         Hopt Hconv Htables Hbad Hgood.
  split.
  { intros Hname Hmd. now apply parse_with_docling_total with (d := d). }
  intros doc Hret.
  apply parse_with_docling_returns in Hret as [d' [Hc' [Hb [_ [Hw Hs]]]]].
  rewrite Hconv in Hc'. injection Hc' as <-.
  rewrite Hw, Hb. clear Hw Hb. unfold docling_scan.
  rewrite Hopt, Htables. cbn [with_tables Docling.tables Docling.texts].
  set (st := match Docling.texts d with
             | Some items => fold_left docling_text_step items dl_init
             | None => dl_init
             end).
  assert (Hst : d_warnings st = []).
  { subst st. destruct (Docling.texts d) as [items|]; [|reflexivity].
    destruct (docling_texts_loop items dl_init) as [_ H]; [constructor|exact H]. }
  assert (Hconverts : Forall converts before /\ Forall converts after).
  { apply Forall_app. eapply Forall_impl; [|exact Hgood].
    intros t Ht. exact (Ht 0). }
  destruct Hconverts as [H1 H2].
  unfold enumerate. rewrite !docling_tables_loop.
  cbn [d_warnings d_blocks]. rewrite Hst. cbn [app].
  rewrite (table_warnings_one e bad before after _ 0 (Hbad 0) H1 H2).
  rewrite (table_blocks_skip e bad before after _ (Hbad 0)).
  split; [now rewrite Z.add_0_l|]. split; [exact Hs|reflexivity].
Qed.

Lemma C6_failed_table_witness :
  exists doc,
    returns (parse_with_docling true
               (Some (backend (report [good_table 1; bad_table; good_table 3])))
               pdf_bytes (u "report.pdf") default_ParseOptions) w0 doc
    /\ map w_code (warnings doc) = [u "TABLE_EXTRACTION_FAILED"]
    /\ map message (warnings doc)
       = [u "Failed to extract table 1: malformed table"]
    /\ success doc = true
    /\ map (fun b => (type b, position b, pageNumber b)) (blocks doc)
       = [ (heading, 0, Some 1); (paragraph, 1, Some 1);
           (table_, 2, Some 1); (table_, 3, Some 3) ].
Proof.
  destruct (C6_one_failed_table_is_one_warning
              (backend (report [good_table 1; bad_table; good_table 3]))
              pdf_bytes (u "report.pdf") default_ParseOptions w0
              (report [good_table 1; bad_table; good_table 3])
              [good_table 1] [good_table 3] bad_table
              (Exception "ValueError" (u "malformed table")))
    as [Htotal Hpartial].
  - reflexivity.
  - reflexivity.
  - reflexivity.
  - intros pos. reflexivity.
  - apply Forall_cons; [|apply Forall_cons; [|apply Forall_nil]];
      intros pos; eexists; vm_compute; reflexivity.
  - destruct Htotal as [doc Hret];
      [eexists; vm_compute; reflexivity|discriminate|].
    exists doc. split; [exact Hret|].
    destruct (Hpartial doc Hret) as [Hw [Hs Hb]].
    rewrite Hw, Hs, Hb. vm_compute. repeat split; reflexivity.
Defined.

(** ** The native paths of the dispatch *)

Lemma respond_returns (start_time : Q) (normalize : M ParsedDocument)
    (w : world) (doc : ParsedDocument) :
  returns normalize w doc ->
  exists ms,
    fst (respond start_time normalize w)
    = Returns {| r_success := success doc; document := Some doc;
                 error := None; processingTimeMs := ms |}.
Proof.
  unfold returns, respond. destruct (normalize w) as [[e|doc'] w1]; cbn [fst].
  - discriminate.
  - intros H. injection H as ->. eexists. reflexivity.
Qed.

Lemma decode_then (file_content : bytes) (text : str)
    (normalize : str -> M ParsedDocument) (w : world) (doc : ParsedDocument) :
  decode file_content Replace = inr text ->
  returns (normalize text) w doc ->
  returns (content <- lift (decode file_content Replace) ;; normalize content) w doc.
Proof. unfold returns, bind, lift. intros ->. trivial. Qed.






Example not_utf8_decoded :
  decode not_utf8 Replace = inr (replacement :: u "# A")
  /\ exists e, decode not_utf8 Strict = inl e.
Proof. split; [reflexivity|eexists; reflexivity]. Qed.

(* ================================================================== *)
(** * Further properties of the normalizers and of the dispatch *)
(* ================================================================== *)

(** ** White space and [str.strip] *)

Lemma lstrip_by_forallb (drop : char -> bool) (s : str) :
  forallb drop (lstrip_by drop s) = forallb drop s.
Proof.
  induction s as [|c s IH]; [reflexivity|]. cbn [lstrip_by forallb].
  destruct (drop c) eqn:E; [exact IH|]. cbn [forallb]. now rewrite E.
Qed.

Lemma lstrip_by_nil (drop : char -> bool) (s : str) :
  lstrip_by drop s = [] <-> forallb drop s = true.
Proof.
  induction s as [|c s IH]; cbn [lstrip_by forallb]; [tauto|].
  destruct (drop c); cbn [andb]; [exact IH|]. split; discriminate.
Qed.

Lemma forallb_rev {A} (p : A -> bool) (l : list A) :
  forallb p (rev l) = forallb p l.
Proof.
  induction l as [|a l IH]; [reflexivity|].
  cbn [rev forallb]. rewrite forallb_app, IH. cbn [forallb].
  rewrite andb_true_r. apply andb_comm.
Qed.

Lemma strip_truthy (s : str) : truthy (strip s) = negb (blank s).
Proof.
  unfold strip, rstrip_by, blank.
  destruct (forallb isspace s) eqn:E; cbn [negb].
  - apply lstrip_by_nil in E. now rewrite E.
  - destruct (lstrip_by isspace (rev (lstrip_by isspace s))) as [|c t] eqn:L.
    + apply lstrip_by_nil in L. rewrite forallb_rev, lstrip_by_forallb in L.
      congruence.
    + cbn [rev]. now destruct (rev t).
Qed.

Lemma lstrip_by_suffix (drop : char -> bool) (s : str) :
  exists a, s = a ++ lstrip_by drop s.
Proof.
  induction s as [|c s [a IH]]; [now exists []|]. cbn [lstrip_by].
  destruct (drop c); [|now exists []].
  exists (c :: a). cbn. now rewrite <- IH.
Qed.

Lemma strip_infix (s : str) : exists a b, s = a ++ strip s ++ b.
Proof.
  unfold strip, rstrip_by.
  destruct (lstrip_by_suffix isspace s) as [a Ha].
  destruct (lstrip_by_suffix isspace (rev (lstrip_by isspace s))) as [b Hb].
  exists a, (rev b). rewrite <- rev_app_distr, <- Hb, rev_involutive. exact Ha.
Qed.

Lemma lstrip_by_keep (drop : char -> bool) (c : char) (s : str) :
  drop c = false -> lstrip_by drop (c :: s) = c :: s.
Proof. intros H. cbn. now rewrite H. Qed.

Lemma lstrip_by_snoc (drop : char -> bool) (s : str) (c : char) :
  drop c = false -> exists t, lstrip_by drop (s ++ [c]) = t ++ [c].
Proof.
  intros H. induction s as [|x s [t IH]].
  - exists []. cbn. now rewrite H.
  - cbn [app lstrip_by]. destruct (drop x); [now exists t|].
    now exists (x :: s).
Qed.

(** A line whose first character is no white space keeps it under [strip]. *)
Lemma strip_head (c : char) (s : str) :
  isspace c = false -> exists t, strip (c :: s) = c :: t.
Proof.
  intros H. unfold strip, rstrip_by. rewrite lstrip_by_keep by exact H.
  cbn [rev]. destruct (lstrip_by_snoc isspace (rev s) c H) as [t ->].
  exists (rev t). now rewrite rev_app_distr.
Qed.

(** ** Occurrences of a substring *)

Lemma startswith_nil (sub : str) : sub <> [] -> startswith [] sub = false.
Proof. destruct sub; [congruence|reflexivity]. Qed.

Lemma startswith_prefix (b s sub : str) :
  startswith b sub = true -> startswith (b ++ s) sub = true.
Proof.
  revert b. induction sub as [|p sub IH]; intros b H.
  - now destruct (b ++ s).
  - destruct b as [|c b]; [discriminate|]. cbn in H |- *.
    apply andb_true_iff in H as [-> H]. now rewrite IH.
Qed.

Lemma contains_occurrence (sub s : str) :
  contains sub s = true -> exists a b, s = a ++ b /\ startswith b sub = true.
Proof.
  induction s as [|c s IH]; cbn [contains]; intros H.
  - rewrite orb_false_r in H. now exists [], [].
  - apply orb_true_iff in H as [H|H]; [now exists [], (c :: s)|].
    destruct (IH H) as [a [b [-> Hb]]]. now exists (c :: a), b.
Qed.

Lemma occurrence_contains (sub a b : str) :
  startswith b sub = true -> contains sub (a ++ b) = true.
Proof.
  intros H. induction a as [|c a IH].
  - destruct b; cbn [app contains]; now rewrite H.
  - cbn [app contains]. rewrite IH. apply orb_true_r.
Qed.

Lemma contains_infix (sub a m b : str) :
  contains sub (a ++ m ++ b) = false -> contains sub m = false.
Proof.
  intros H. destruct (contains sub m) eqn:E; [|reflexivity].
  apply contains_occurrence in E as [x [y [-> Hy]]].
  rewrite <- app_assoc, app_assoc in H.
  rewrite occurrence_contains in H; [discriminate|].
  now apply startswith_prefix.
Qed.

Lemma contains_strip (sub s : str) :
  contains sub s = false -> contains sub (strip s) = false.
Proof.
  destruct (strip_infix s) as [a [b Hs]]. intros H. rewrite Hs in H.
  eapply contains_infix; eassumption.
Qed.

(** ** The pieces of [str.split] *)

Lemma pending_clean (sep s cur : str) :
  sep <> [] ->
  (forall a b, rev cur = a ++ b -> b <> [] -> startswith (b ++ s) sep = false) ->
  contains sep (rev cur) = false.
Proof.
  intros Hsep Inv. destruct (contains sep (rev cur)) eqn:E; [|reflexivity].
  apply contains_occurrence in E as [a [b [Hab Hb]]].
  assert (Hne : b <> []).
  { intros ->. now rewrite startswith_nil in Hb. }
  specialize (Inv a b Hab Hne).
  rewrite (startswith_prefix b s sep Hb) in Inv. discriminate.
Qed.

Lemma split_from_pieces (sep : str) :
  sep <> [] ->
  forall (s : str) (skip : nat) (cur : str),
    (skip = 0%nat ->
     forall a b, rev cur = a ++ b -> b <> [] -> startswith (b ++ s) sep = false) ->
    (skip <> 0%nat -> cur = []) ->
    Forall (fun p => contains sep p = false) (split_from sep s skip cur).
Proof.
  intros Hsep. induction s as [|c s IH]; intros skip cur Inv Hcur.
  - cbn [split_from]. constructor; [|constructor].
    destruct skip as [|k].
    + apply (pending_clean sep []); [exact Hsep|now apply Inv].
    + rewrite Hcur by discriminate. cbn [rev contains].
      now rewrite startswith_nil.
  - cbn [split_from]. destruct skip as [|k].
    + specialize (Inv eq_refl).
      destruct (startswith (c :: s) sep) eqn:E.
      * constructor; [now apply (pending_clean sep (c :: s))|].
        apply IH; [|reflexivity].
        intros _ a b Hab Hb. destruct a, b; cbn in Hab; congruence.
      * apply IH; [|congruence]. intros _ a b Hab Hb.
        destruct (exists_last Hb) as [b0 [x ->]].
        cbn [rev] in Hab. rewrite app_assoc in Hab.
        apply app_inj_tail in Hab as [Hab ->].
        rewrite <- app_assoc. cbn [app].
        destruct b0 as [|y b0]; [exact E|].
        now apply (Inv a).
    + rewrite Hcur by discriminate. apply IH; [|reflexivity].
      intros _ a b Hab Hb. destruct a, b; cbn in Hab; congruence.
Qed.

(** No piece of [s.split(sep)] contains the separator. *)
Lemma split_pieces (s sep : str) :
  sep <> [] -> Forall (fun p => contains sep p = false) (split s sep).
Proof.
  intros Hsep. apply split_from_pieces; [exact Hsep| |congruence].
  intros _ a b Hab Hb. destruct a, b; cbn in Hab; congruence.
Qed.

Lemma split_from_absent (sep s cur : str) :
  contains sep s = false -> split_from sep s 0 cur = [rev cur ++ s].
Proof.
  revert cur. induction s as [|c s IH]; intros cur H.
  - cbn. now rewrite app_nil_r.
  - cbn [contains] in H. apply orb_false_iff in H as [H1 H2].
    cbn [split_from]. rewrite H1, IH by exact H2.
    cbn [rev]. now rewrite <- app_assoc.
Qed.

(** A string without the separator is its own single piece. *)
Lemma split_absent (s sep : str) :
  contains sep s = false -> split s sep = [s].
Proof. intros H. unfold split. now rewrite split_from_absent. Qed.

(** What holds of every character of a string holds in each of its pieces. *)
Lemma forallb_join (p : char -> bool) (sep : str) (parts : list str) :
  forallb p (join sep parts) = true -> Forall (fun s => forallb p s = true) parts.
Proof.
  induction parts as [|s parts IH]; intros H; [constructor|].
  destruct parts as [|q parts].
  - constructor; [exact H|constructor].
  - rewrite join_cons in H by discriminate.
    rewrite !forallb_app in H.
    apply andb_true_iff in H as [Hp H]. apply andb_true_iff in H as [_ H].
    constructor; [exact Hp|now apply IH].
Qed.

Lemma forallb_split (p : char -> bool) (s sep : str) :
  sep <> [] -> forallb p s = true ->
  Forall (fun piece => forallb p piece = true) (split s sep).
Proof.
  intros Hsep H. apply (forallb_join p sep). now rewrite join_split.
Qed.

Lemma blank_split (s sep : str) :
  sep <> [] -> blank s = true -> Forall (fun p => blank p = true) (split s sep).
Proof. apply forallb_split. Qed.

(** ** The Markdown scan: outline *)

Lemma md_step_outline (st : md_state) (line : str) :
  md_outline (md_step st line)
  = md_outline st
    ++ (if is_heading_line line
        then [{| title := heading_text line; level := heading_level line;
                 o_pageNumber := Some 1;
                 o_position := md_position st + len (flushed st) |}]
        else []).
Proof.
  unfold md_step.
  destruct (is_heading_line line); cbn [md_outline].
  { now rewrite flush_outline, flush_position. }
  destruct (is_fence_line line); cbn [md_outline].
  { now rewrite flush_outline, app_nil_r. }
  destruct (is_list_line line); cbn [md_outline].
  { now rewrite flush_outline, app_nil_r. }
  destruct (truthy (strip line)); cbn [md_outline].
  - now rewrite app_nil_r.
  - now rewrite flush_outline, app_nil_r.
Qed.

Lemma md_loop_outline (lines : list str) (st : md_state) :
  map outline_entry (md_outline st) = map heading_entry (headings (md_blocks st)) ->
  map outline_entry (md_outline (fold_left md_step lines st))
  = map heading_entry (headings (md_blocks (fold_left md_step lines st))).
Proof.
  revert st. induction lines as [|l lines IH]; intros st H; [exact H|].
  cbn [fold_left]. apply IH.
  rewrite md_step_outline, md_step_blocks. unfold headings in *.
  rewrite filter_app, !map_app, H, filter_step_heading.
  now destruct (is_heading_line l).
Qed.

Lemma md_scan_outline (input : str) :
  md_outline (md_scan input)
  = md_outline (fold_left md_step (md_lines input) md_init).
Proof.
  unfold md_scan, md_lines.
  destruct (truthy (current_paragraph _)); cbv zeta;
    [destruct (truthy (strip _))|]; reflexivity.
Qed.

Lemma md_outline_headings (input : str) :
  map outline_entry (md_outline (md_scan input))
  = map heading_entry (headings (md_blocks (md_scan input))).
Proof.
  rewrite md_scan_outline, md_scan_blocks. unfold headings.
  rewrite filter_app, filter_flushed, app_nil_r by discriminate.
  now apply md_loop_outline.
Qed.

Lemma md_loop_titles (lines : list str) (st : md_state) :
  map title (md_outline (fold_left md_step lines st))
  = map title (md_outline st)
    ++ map heading_text (filter is_heading_line lines).
Proof.
  revert st. induction lines as [|l lines IH]; intros st.
  - cbn. now rewrite app_nil_r.
  - cbn [fold_left filter]. rewrite IH, md_step_outline, map_app, <- app_assoc.
    now destruct (is_heading_line l).
Qed.

Lemma md_outline_levels (input : str) :
  Forall (fun o => 1 <= level o <= 6 /\ o_pageNumber o = Some 1)
         (md_outline (md_scan input)).
Proof.
  rewrite md_scan_outline.
  assert (H : forall lines st,
    Forall (fun o => 1 <= level o <= 6 /\ o_pageNumber o = Some 1) (md_outline st) ->
    Forall (fun o => 1 <= level o <= 6 /\ o_pageNumber o = Some 1)
           (md_outline (fold_left md_step lines st))).
  { induction lines as [|l lines IH]; intros st Hst; [exact Hst|].
    cbn [fold_left]. apply IH. rewrite md_step_outline.
    apply Forall_app. split; [exact Hst|].
    destruct (is_heading_line l) eqn:E; constructor; [|constructor].
    cbn [level o_pageNumber]. split; [|reflexivity].
    rewrite heading_level_spec. apply leading_hashes_pos in E. lia. }
  apply H. constructor.
Qed.

(** X1.  The outline of a Markdown document mirrors its heading blocks: one
    entry per heading block, in order, with the same text, level, page and
    position.  The titles are the heading lines without their leading [#]
    characters, trimmed; every level lies between 1 and 6. *)
Theorem markdown_outline_mirrors_headings :
  forall (input filename : str) (w : world),
    encodable input -> encodable filename ->
    exists doc,
      returns (parse_markdown_content input filename) w doc
      /\ map outline_entry (outline doc) = map heading_entry (headings (blocks doc))
      /\ map title (outline doc)
         = map (fun line => strip (lstrip line (u "#")))
               (filter is_heading_line (md_lines input))
      /\ Forall (fun o => 1 <= level o <= 6 /\ o_pageNumber o = Some 1)
                (outline doc).
Proof.
  intros input filename w Hi Hf.
  destruct (parse_markdown_content_total input filename w Hi Hf) as [doc Hret].
  exists doc. split; [exact Hret|].
  apply parse_markdown_content_returns in Hret as [Hb [Ho _]].
  rewrite Hb, Ho. split; [apply md_outline_headings|].
  split; [|apply md_outline_levels].
  rewrite md_scan_outline, md_loop_titles. reflexivity.
Qed.

Lemma markdown_outline_witness :
  exists doc,
    returns (parse_markdown_content md_example (u "notes.md")) w0 doc
    /\ map outline_entry (outline doc) = map heading_entry (headings (blocks doc))
    /\ map title (outline doc) = [u "Title"; u "deep"].
Proof.
  destruct (markdown_outline_mirrors_headings md_example (u "notes.md") w0)
    as [doc [Hret [Hm [Ht _]]]]; [eexists; vm_compute; reflexivity ..|].
  exists doc. split; [exact Hret|]. split; [exact Hm|].
  rewrite Ht. vm_compute. reflexivity.
Defined.

(** ** The Markdown scan: list lines *)

Lemma list_line_not_heading (line : str) :
  is_list_line line = true -> is_heading_line line = false.
Proof.
  unfold is_heading_line. destruct line as [|c rest]; [reflexivity|].
  cbn [startswith u map list_ascii_of_string].
  destruct (c =? ch "#")%N eqn:E; [|reflexivity].
  apply N.eqb_eq in E. subst c.
  destruct (strip_head (ch "#") rest eq_refl) as [t Ht].
  unfold is_list_line. rewrite Ht. discriminate.
Qed.

Lemma list_line_not_fence (line : str) :
  is_list_line line = true -> is_fence_line line = false.
Proof.
  unfold is_fence_line. destruct line as [|c rest]; [reflexivity|].
  cbn [startswith u map list_ascii_of_string].
  destruct (c =? ch "`")%N eqn:E; [|reflexivity].
  apply N.eqb_eq in E. subst c.
  destruct (strip_head (ch "`") rest eq_refl) as [t Ht].
  unfold is_list_line. rewrite Ht. discriminate.
Qed.

Lemma filter_step_list (st : md_state) (line : str) :
  filter (has_type list_) (step_out st line)
  = if is_list_line line
    then [list_block (item_text line) (md_position st + len (flushed st))
                     (list_type line) [item_text line] (Some 1)]
    else [].
Proof.
  unfold step_out, is_marker_line, line_block.
  destruct (is_list_line line) eqn:L.
  { rewrite (list_line_not_heading line L), (list_line_not_fence line L).
    cbn [orb]. rewrite filter_app, filter_flushed by discriminate. reflexivity. }
  destruct (is_heading_line line); cbn [orb].
  { rewrite filter_app, filter_flushed by discriminate. reflexivity. }
  destruct (is_fence_line line); cbn [orb].
  { rewrite filter_app, filter_flushed by discriminate. reflexivity. }
  destruct (truthy (strip line)); [reflexivity|].
  apply filter_flushed. discriminate.
Qed.

(** X2.  The list blocks of a Markdown document are, in order, those of its
    list lines (a trimmed line that starts with [- ], [* ] or [+ ], or
    that starts with a digit while [. ] occurs in the first four characters
    of the line): each line gives one block with a single item, which is
    also its content, ordered exactly when the trimmed line starts with a
    digit.  A list line never is a heading or fence line. *)
Theorem markdown_list_blocks :
  forall (input filename : str) (w : world),
    encodable input -> encodable filename ->
    exists doc,
      returns (parse_markdown_content input filename) w doc
      /\ map (fun b => (content b, listType b, listItems b))
             (filter (has_type list_) (blocks doc))
         = map (fun line =>
                  (item_text line,
                   Some (if first_isdigit (strip line) then ordered else unordered),
                   Some [item_text line]))
               (filter is_list_line (md_lines input))
      /\ Forall (fun line => is_list_line line = true ->
                   is_heading_line line = false /\ is_fence_line line = false)
                (md_lines input).
Proof.
  intros input filename w Hi Hf.
  destruct (parse_markdown_content_total input filename w Hi Hf) as [doc Hret].
  exists doc. split; [exact Hret|].
  apply parse_markdown_content_returns in Hret as [Hb _]. rewrite Hb. split.
  - rewrite (map_filter_flat_map is_list_line). apply scan_view; [discriminate|].
    intros st line. rewrite filter_step_list.
    now destruct (is_list_line line).
  - apply Forall_forall. intros line _ L.
    split; [now apply list_line_not_heading|now apply list_line_not_fence].
Qed.

Lemma markdown_list_witness :
  exists doc,
    returns (parse_markdown_content list_example (u "list.md")) w0 doc
    /\ map (fun b => (content b, listType b, listItems b))
           (filter (has_type list_) (blocks doc))
       = [ (u "milk", Some unordered, Some [u "milk"]);
           (u "eggs", Some ordered, Some [u "eggs"]);
           (u "tea", Some unordered, Some [u "tea"]) ].
Proof.
  destruct (markdown_list_blocks list_example (u "list.md") w0)
    as [doc [Hret [Hl _]]]; [eexists; vm_compute; reflexivity ..|].
  exists doc. split; [exact Hret|]. rewrite Hl. vm_compute. reflexivity.
Defined.

(** ** The Markdown scan: the shape of the blocks *)

Lemma md_scan_forall (P : ContentBlock -> Prop) :
  (forall st, Forall P (flushed st)) ->
  (forall pos line, Forall P (line_block pos line)) ->
  forall input, Forall P (md_blocks (md_scan input)).
Proof.
  intros Hf Hl input. rewrite md_scan_blocks.
  apply Forall_app. split; [|apply Hf].
  assert (H : forall lines st, Forall P (md_blocks st) ->
                               Forall P (md_blocks (fold_left md_step lines st))).
  { induction lines as [|l lines IH]; intros st Hst; [exact Hst|].
    cbn [fold_left]. apply IH. rewrite md_step_blocks.
    apply Forall_app. split; [exact Hst|]. unfold step_out.
    destruct (is_marker_line l).
    - apply Forall_app. split; [apply Hf|apply Hl].
    - destruct (truthy (strip l)); [constructor|apply Hf]. }
  apply H. constructor.
Qed.

(** X3.  Every block of a Markdown document is a paragraph, a heading, a
    code block or a list; it lies on page 1; its optional fields are those
    of its type; a paragraph is never empty. *)
Theorem markdown_block_shape :
  forall (input filename : str) (w : world),
    encodable input -> encodable filename ->
    exists doc,
      returns (parse_markdown_content input filename) w doc
      /\ Forall (fun b =>
                   In (type b) [paragraph; heading; code; list_]
                   /\ pageNumber b = Some 1
                   /\ fields_fit b
                   /\ (type b = paragraph -> content b <> []))
                (blocks doc).
Proof.
  intros input filename w Hi Hf.
  destruct (parse_markdown_content_total input filename w Hi Hf) as [doc Hret].
  exists doc. split; [exact Hret|].
  apply parse_markdown_content_returns in Hret as [Hb _]. rewrite Hb.
  apply md_scan_forall.
  - intros st. unfold flushed.
    destruct (truthy (current_paragraph st)); [|constructor]. cbv zeta.
    destruct (strip _) as [|c t] eqn:E; cbn [truthy]; constructor; [|constructor].
    unfold fields_fit. cbn. intuition congruence.
  - intros pos line. unfold line_block.
    destruct (is_heading_line line);
      [|destruct (is_fence_line line); [|destruct (is_list_line line)]];
      constructor; try constructor;
      unfold fields_fit; cbn; intuition congruence.
Qed.

Lemma markdown_block_shape_witness :
  exists doc,
    returns (parse_markdown_content md_example (u "notes.md")) w0 doc
    /\ Forall (fun b => pageNumber b = Some 1 /\ fields_fit b) (blocks doc).
Proof.
  destruct (markdown_block_shape md_example (u "notes.md") w0)
    as [doc [Hret Hall]]; [eexists; vm_compute; reflexivity ..|].
  exists doc. split; [exact Hret|].
  eapply Forall_impl; [|exact Hall]. cbn. tauto.
Defined.

(** ** Blank input and plain paragraphs *)

Lemma blank_not_marker (line : str) :
  blank line = true -> is_marker_line line = false.
Proof.
  intros H. unfold is_marker_line.
  assert (Hs : strip line = []).
  { pose proof (strip_truthy line) as T. rewrite H in T.
    now destruct (strip line). }
  assert (Hh : is_heading_line line = false).
  { unfold is_heading_line. destruct line as [|c rest]; [reflexivity|].
    cbn [startswith u map list_ascii_of_string].
    destruct (c =? ch "#")%N eqn:E; [|reflexivity].
    apply N.eqb_eq in E. subst c. discriminate. }
  assert (Hf : is_fence_line line = false).
  { unfold is_fence_line. destruct line as [|c rest]; [reflexivity|].
    cbn [startswith u map list_ascii_of_string].
    destruct (c =? ch "`")%N eqn:E; [|reflexivity].
    apply N.eqb_eq in E. subst c. discriminate. }
  rewrite Hh, Hf. unfold is_list_line. rewrite Hs. reflexivity.
Qed.

Lemma md_step_blank (st : md_state) (line : str) :
  blank line = true -> current_paragraph st = [] -> md_step st line = st.
Proof.
  intros H Hc. pose proof (blank_not_marker line H) as Hm.
  unfold is_marker_line in Hm.
  apply orb_false_iff in Hm as [Hm Hl]. apply orb_false_iff in Hm as [Hh Hf].
  unfold md_step. rewrite Hh, Hf, Hl, strip_truthy, H. cbn [negb].
  unfold flush. now rewrite Hc.
Qed.

Lemma md_loop_blank (lines : list str) (st : md_state) :
  Forall (fun l => blank l = true) lines -> current_paragraph st = [] ->
  fold_left md_step lines st = st.
Proof.
  induction 1 as [|l lines Hl _ IH]; intros Hc; [reflexivity|].
  cbn [fold_left]. rewrite md_step_blank by assumption. now apply IH.
Qed.

Lemma md_step_text (st : md_state) (line : str) :
  is_text_line line = true ->
  md_step st line
  = {| md_blocks := md_blocks st; md_position := md_position st;
       md_outline := md_outline st;
       current_paragraph := current_paragraph st ++ [line] |}.
Proof.
  unfold is_text_line, is_marker_line. intros H.
  apply andb_true_iff in H as [Hm Hb]. apply negb_true_iff in Hm, Hb.
  apply orb_false_iff in Hm as [Hm Hl]. apply orb_false_iff in Hm as [Hh Hf].
  unfold md_step. now rewrite Hh, Hf, Hl, strip_truthy, Hb.
Qed.

Lemma md_loop_text (lines : list str) (st : md_state) :
  Forall (fun l => is_text_line l = true) lines ->
  fold_left md_step lines st
  = {| md_blocks := md_blocks st; md_position := md_position st;
       md_outline := md_outline st;
       current_paragraph := current_paragraph st ++ lines |}.
Proof.
  intros H. revert st. induction H as [|l lines Hl _ IH]; intros st.
  - cbn. rewrite app_nil_r. now destruct st.
  - cbn [fold_left]. rewrite IH, md_step_text by exact Hl. cbn.
    now rewrite <- app_assoc.
Qed.

Lemma blank_app (a b : str) : blank (a ++ b) = blank a && blank b.
Proof. apply forallb_app. Qed.

Lemma text_lines_not_blank (input : str) :
  Forall (fun l => is_text_line l = true) (md_lines input) ->
  blank input = false.
Proof.
  unfold md_lines. intros H.
  destruct (blank input) eqn:B; [|reflexivity].
  pose proof (blank_split input [nl] ltac:(discriminate) B) as Hb.
  pose proof (split_from_nonempty [nl] input 0 []) as Hne.
  fold (split input [nl]) in Hne.
  destruct (split input [nl]) as [|l ls]; [congruence|].
  apply Forall_inv in H. apply Forall_inv in Hb.
  unfold is_text_line in H. rewrite Hb in H.
  now rewrite andb_false_r in H.
Qed.

(** X4.  A Markdown input of white space only yields no block and no outline
    entry.  An input in which every line is text (neither blank nor a
    heading, fence or list line) yields exactly one block: the paragraph
    holding the trimmed input, at position 0. *)
Theorem markdown_blank_and_plain_input :
  forall (input filename : str) (w : world),
    encodable input -> encodable filename ->
    exists doc,
      returns (parse_markdown_content input filename) w doc
      /\ (blank input = true -> blocks doc = [] /\ outline doc = [])
      /\ (forallb is_text_line (md_lines input) = true ->
          blocks doc = [new_ContentBlock paragraph (strip input) 0 (Some 1)]
          /\ outline doc = []).
Proof.
  intros input filename w Hi Hf.
  destruct (parse_markdown_content_total input filename w Hi Hf) as [doc Hret].
  exists doc. split; [exact Hret|].
  apply parse_markdown_content_returns in Hret as [Hb [Ho _]].
  rewrite Hb, Ho, md_scan_outline, md_scan_blocks. split.
  - intros B. unfold md_lines.
    rewrite md_loop_blank;
      [now split|now apply blank_split|reflexivity].
  - intros T. rewrite forallb_forall in T. apply Forall_forall in T.
    pose proof (text_lines_not_blank input T) as B.
    rewrite (md_loop_text _ _ T). unfold md_init.
    cbn [md_blocks md_outline app]. split; [|reflexivity].
    unfold flushed. cbn [current_paragraph md_position app].
    unfold md_lines in *. rewrite join_split by discriminate.
    pose proof (split_from_nonempty [nl] input 0 []) as Hne.
    fold (split input [nl]) in Hne.
    destruct (split input [nl]) as [|l ls]; [congruence|]. cbn [truthy].
    now rewrite strip_truthy, B.
Qed.

Lemma markdown_blank_and_plain_witness :
  (exists doc,
     returns (parse_markdown_content (text_of [EmptyString; "   "]%string)
                                     (u "empty.md")) w0 doc
     /\ blocks doc = [] /\ outline doc = [])
  /\ exists doc,
       returns (parse_markdown_content prose (u "prose.md")) w0 doc
       /\ map content (blocks doc)
          = [u "Call me Ishmael." ++ [nl] ++ u "Some years ago."].
Proof.
  split.
  - destruct (markdown_blank_and_plain_input (text_of [EmptyString; "   "]%string)
                (u "empty.md") w0)
      as [doc [Hret [Hblank _]]]; [eexists; vm_compute; reflexivity ..|].
    exists doc. split; [exact Hret|]. apply Hblank. vm_compute. reflexivity.
  - destruct (markdown_blank_and_plain_input prose (u "prose.md") w0)
      as [doc [Hret [_ Hplain]]]; [eexists; vm_compute; reflexivity ..|].
    exists doc. split; [exact Hret|].
    destruct Hplain as [Hb _]; [vm_compute; reflexivity|].
    rewrite Hb. vm_compute. reflexivity.
Defined.

(** ** The plain-text normalizer: what a paragraph holds *)

Lemma txt_segments_clean (input : str) :
  Forall (fun s => s <> [] /\ contains [nl; nl] s = false) (txt_segments input).
Proof.
  unfold txt_segments. apply Forall_forall. intros s Hs.
  apply filter_In in Hs as [Hs Ht]. split; [now destruct s|].
  apply in_map_iff in Hs as [p [<- Hp]]. apply contains_strip.
  pose proof (split_pieces input [nl; nl] ltac:(discriminate)) as H.
  rewrite Forall_forall in H. now apply H.
Qed.

Lemma txt_segments_blank (input : str) :
  blank input = true -> txt_segments input = [].
Proof.
  intros B. unfold txt_segments. apply filter_none.
  apply Forall_forall. intros s Hs. apply in_map_iff in Hs as [p [<- Hp]].
  pose proof (blank_split input [nl; nl] ltac:(discriminate) B) as H.
  rewrite Forall_forall in H. rewrite strip_truthy, (H p Hp). reflexivity.
Qed.

Lemma txt_segments_single (input : str) :
  contains [nl; nl] input = false -> blank input = false ->
  txt_segments input = [strip input].
Proof.
  intros Hc B. unfold txt_segments. rewrite split_absent by exact Hc.
  cbn [map filter]. now rewrite strip_truthy, B.
Qed.

(** X5.  No paragraph of a plain-text document is empty, and none contains
    an empty line (two consecutive newlines).  White space alone gives no
    block; an input without an empty line, not all white space, gives the
    single paragraph holding the trimmed input. *)
Theorem plain_text_paragraph_contents :
  forall (input filename : str) (w : world),
    encodable input -> encodable filename ->
    exists doc,
      returns (parse_txt_content input filename) w doc
      /\ Forall (fun b => content b <> [] /\ contains [nl; nl] (content b) = false)
                (blocks doc)
      /\ (blank input = true -> blocks doc = [])
      /\ (contains [nl; nl] input = false -> blank input = false ->
          blocks doc = [new_ContentBlock paragraph (strip input) 0 (Some 1)]).
Proof.
  intros input filename w Hi Hf.
  destruct (parse_txt_content_total input filename w Hi Hf) as [doc Hret].
  exists doc. split; [exact Hret|].
  apply parse_txt_content_returns in Hret as [Hb _].
  rewrite Hb, txt_scan_blocks. split; [|split].
  - apply Forall_forall. intros b Hin. apply in_map_iff in Hin as [ip [<- Hip]].
    cbn [txt_paragraph content new_ContentBlock].
    pose proof (txt_segments_clean input) as H. rewrite Forall_forall in H.
    apply H. rewrite <- (enumerate_values (txt_segments input)).
    now apply in_map.
  - intros B. now rewrite txt_segments_blank.
  - intros Hc B. now rewrite txt_segments_single.
Qed.

Lemma plain_text_paragraph_witness :
  (exists doc,
     returns (parse_txt_content txt_example (u "notes.txt")) w0 doc
     /\ Forall (fun b => content b <> [] /\ contains [nl; nl] (content b) = false)
               (blocks doc))
  /\ exists doc,
       returns (parse_txt_content prose (u "prose.txt")) w0 doc
       /\ map content (blocks doc)
          = [u "Call me Ishmael." ++ [nl] ++ u "Some years ago."].
Proof.
  split.
  - destruct (plain_text_paragraph_contents txt_example (u "notes.txt") w0)
      as [doc [Hret [Hall _]]]; [eexists; vm_compute; reflexivity ..|].
    exists doc. split; [exact Hret|exact Hall].
  - destruct (plain_text_paragraph_contents prose (u "prose.txt") w0)
      as [doc [Hret [_ [_ Hone]]]]; [eexists; vm_compute; reflexivity ..|].
    exists doc. split; [exact Hret|].
    rewrite Hone; vm_compute; reflexivity.
Defined.

(** ** Metadata of the native normalizers *)

Lemma parse_markdown_content_metadata content name w doc :
  returns (parse_markdown_content content name) w doc ->
  exists size_bytes,
    encode content = inr size_bytes
    /\ fileSize (metadata doc) = len size_bytes
    /\ format (metadata doc) = u "md"
    /\ filename (metadata doc) = name
    /\ parser (metadata doc) = u "native-md".
Proof.
  unfold returns, parse_markdown_content, bind, lift, time, ret.
  cbn [fst snd].
  destruct (encode content) as [e|cb]; [discriminate|].
  destruct (encode name) as [e|nb] eqn:En.
  - erewrite generate_document_id_raises by eassumption. discriminate.
  - erewrite generate_document_id_run by eassumption. cbn [fst].
    intros H. injection H as <-. exists cb. cbn. repeat split; reflexivity.
Qed.

Lemma parse_txt_content_metadata content name w doc :
  returns (parse_txt_content content name) w doc ->
  exists size_bytes,
    encode content = inr size_bytes
    /\ fileSize (metadata doc) = len size_bytes
    /\ format (metadata doc) = u "txt"
    /\ filename (metadata doc) = name
    /\ parser (metadata doc) = u "native-txt"
    /\ fullText doc = content.
Proof.
  unfold returns, parse_txt_content, bind, lift, time, ret.
  cbn [fst snd].
  destruct (encode content) as [e|cb]; [discriminate|].
  destruct (encode name) as [e|nb] eqn:En.
  - erewrite generate_document_id_raises by eassumption. discriminate.
  - erewrite generate_document_id_run by eassumption. cbn [fst].
    intros H. injection H as <-. exists cb. cbn. repeat split; reflexivity.
Qed.

Lemma parse_html_content_metadata bs4 content name w doc :
  returns (parse_html_content bs4 content name) w doc ->
  exists size_bytes,
    encode content = inr size_bytes
    /\ fileSize (metadata doc) = len size_bytes
    /\ format (metadata doc) = u "html"
    /\ filename (metadata doc) = name
    /\ parser (metadata doc) = u "native-html".
Proof.
  unfold returns, parse_html_content, bind, lift, time, ret.
  cbn [fst snd].
  destruct bs4 as [html_parser|];
    [destruct (html_parser content) as [e|soup];
     [destruct (is_ImportError e); [|discriminate]
     |destruct (html_extract soup) as [e|[[st full_text] title]];
      [discriminate|]]|];
    (destruct (encode content) as [e'|cb]; [discriminate|]);
    (destruct (encode name) as [e'|nb] eqn:En;
     [erewrite generate_document_id_raises by eassumption; discriminate|]);
    erewrite generate_document_id_run by eassumption; cbn [fst];
    intros H; injection H as <-; exists cb; cbn; repeat split; reflexivity.
Qed.

(** ** Text that was encoded as UTF-8 *)

(** X6.  A Markdown or text payload that is the UTF-8 encoding of some text
    comes back unchanged: the response carries a document whose [fullText]
    is that text, whose size is the number of octets of the payload, whose
    format is the detected one and whose file name is the one of the
    request; it reports success. *)
Theorem utf8_payload_text_is_preserved :
  forall (b64decode : str -> result bytes)
         (BeautifulSoup : option (str -> result Bs4.tag))
         (DOCLING_AVAILABLE : bool)
         (converter : option Docling.DocumentConverter)
         (request : ParseRequest) (text : str) (payload : bytes) (fmt : str)
         (w : world),
    b64decode (fileContent request) = inr payload ->
    encode text = inr payload ->
    len payload <= MAX_FILE_SIZE ->
    get_format_from_filename (req_filename request) = Some fmt ->
    In fmt [u "md"; u "txt"] ->
    encodable (req_filename request) ->
    decode payload Strict = inr text
    /\ exists doc ms,
         fst (parse b64decode BeautifulSoup DOCLING_AVAILABLE converter request w)
         = Returns {| r_success := true; document := Some doc;
                      error := None; processingTimeMs := ms |}
         /\ fullText doc = text
         /\ fileSize (metadata doc) = len payload
         /\ format (metadata doc) = fmt
         /\ filename (metadata doc) = req_filename request.
Proof.
  intros b64decode bs4 avail converter request text payload fmt w
         Hb64 Henc Hsize Hfmt Hin Hname.
  split; [now apply decode_encode|].
  pose proof (decode_encode Replace text payload Henc) as Hdec.
  assert (Htext : encodable text) by now exists payload.
  unfold parse. cbn [read_clock]. rewrite Hb64.
  replace (MAX_FILE_SIZE <? len payload) with false
    by (symmetry; apply Z.ltb_ge; exact Hsize).
  rewrite Hfmt.
  set (w1 := World (S (reads w)) (wall w)).
  destruct Hin as [<-|[<-|[]]].
  - destruct (parse_markdown_content_total text (req_filename request) w1
                Htext Hname) as [doc Hdoc].
    exists doc. change (existsb _ _) with true. cbv iota.
    destruct (respond_returns (wall w (reads w))
                (content <- lift (decode payload Replace) ;;
                 parse_markdown_content content (req_filename request)) w1 doc)
      as [ms Hms]; [now apply decode_then with (text := text)|].
    exists ms.
    pose proof (parse_markdown_content_returns _ _ _ _ Hdoc) as [_ [_ [_ [Hs Hft]]]].
    pose proof (parse_markdown_content_metadata _ _ _ _ Hdoc)
      as [sb [Hsb [Hsz [Hfm [Hfn _]]]]].
    rewrite Hms, Hs. repeat split; try assumption.
    rewrite Hsz. congruence.
  - destruct (parse_txt_content_total text (req_filename request) w1
                Htext Hname) as [doc Hdoc].
    exists doc. change (existsb _ _) with false.
    change (str_eqb (u "txt") (u "txt")) with true. cbv iota.
    destruct (respond_returns (wall w (reads w))
                (content <- lift (decode payload Replace) ;;
                 parse_txt_content content (req_filename request)) w1 doc)
      as [ms Hms]; [now apply decode_then with (text := text)|].
    exists ms.
    pose proof (parse_txt_content_returns _ _ _ _ Hdoc) as [_ [_ [_ Hs]]].
    pose proof (parse_txt_content_metadata _ _ _ _ Hdoc)
      as [sb [Hsb [Hsz [Hfm [Hfn [_ Hft]]]]]].
    rewrite Hms, Hs. repeat split; try assumption.
    rewrite Hsz. congruence.
Qed.

Lemma utf8_payload_witness :
  decode polyglot_utf8 Strict = inr polyglot
  /\ exists doc ms,
       fst (parse (yields polyglot_utf8) None false None polyglot_request w0)
       = Returns {| r_success := true; document := Some doc;
                    error := None; processingTimeMs := ms |}
       /\ fullText doc = polyglot
       /\ fileSize (metadata doc) = 11.
Proof.
  destruct (utf8_payload_text_is_preserved
              (yields polyglot_utf8) None false None polyglot_request
              polyglot polyglot_utf8 (u "md") w0)
    as [Hdec [doc [ms [Hret [Hft [Hsz _]]]]]].
  - reflexivity.
  - vm_compute. reflexivity.
  - vm_compute. discriminate.
  - vm_compute. reflexivity.
  - left. reflexivity.
  - eexists. vm_compute. reflexivity.
  - split; [exact Hdec|]. exists doc, ms.
    split; [exact Hret|]. split; [exact Hft|]. rewrite Hsz. vm_compute. reflexivity.
Defined.

(** ** The HTML loop, element by element *)

(** Case analysis on the name of a visited element: the step is reduced to
    the branch of that name. *)
Ltac html_branches H :=
  apply has_name_cases in H; unfold html_block_of, html_step;
  remember (strip (Bs4.get_text _ [])) as text;
  remember (Bs4.find_all _ [u "tr"]) as trs;
  remember (map (fun li => strip (Bs4.get_text li [])) _) as items;
  cbn in H;
  repeat (destruct H as [H|H]; [rewrite <- H; cbn|]); [..|contradiction].

Lemma enumerate_from_app {A} (l1 l2 : list A) (k : Z) :
  enumerate_from k (l1 ++ l2)
  = enumerate_from k l1 ++ enumerate_from (k + len l1) l2.
Proof.
  revert k. induction l1 as [|a l1 IH]; intros k; cbn [app enumerate_from].
  - unfold len. cbn. now rewrite Z.add_0_r.
  - rewrite IH.
    replace (k + len (a :: l1)) with (k + 1 + len l1)
      by (unfold len; cbn [List.length]; lia).
    reflexivity.
Qed.

Lemma html_step_block (st st' : html_state) (element : Bs4.tag) :
  Bs4.has_name html_query element = true ->
  html_step st element = inr st' ->
  h_blocks st'
  = h_blocks st
    ++ map at_position (enumerate_from (h_position st) (html_block_of element))
  /\ h_position st' = h_position st + len (html_block_of element).
Proof.
  intros H. html_branches H;
    repeat match goal with
    | |- context [if ?b then _ else _] => destruct b
    end;
    intros E; injection E as <-; cbn;
    rewrite ?app_nil_r, ?Z.add_0_r; split; reflexivity.
Qed.

Lemma html_loop_blocks (elements : list Bs4.tag) :
  Forall (fun e => Bs4.has_name html_query e = true) elements ->
  forall st st',
    html_loop st elements = inr st' ->
    h_blocks st'
    = h_blocks st
      ++ map at_position
           (enumerate_from (h_position st) (flat_map html_block_of elements)).
Proof.
  induction 1 as [|e elements He _ IH]; intros st st' Hl; cbn in Hl.
  - injection Hl as <-. cbn. now rewrite app_nil_r.
  - destruct (html_step st e) as [err|st1] eqn:E; [discriminate|].
    destruct (html_step_block st st1 e He E) as [Hb Hp].
    rewrite (IH st1 st' Hl), Hb, Hp, <- app_assoc. f_equal.
    cbn [flat_map]. now rewrite enumerate_from_app, map_app.
Qed.

Lemma html_block_of_shape (element : Bs4.tag) :
  Bs4.has_name html_query element = true ->
  Forall (fun b =>
            In (type b) [heading; paragraph; code; list_; table_]
            /\ pageNumber b = Some 1
            /\ fields_fit b
            /\ (In (type b) [heading; paragraph; code] -> content b <> [])
            /\ (forall items, listItems b = Some items -> items <> [])
            /\ (forall l, headingLevel b = Some l -> 1 <= l <= 6))
         (html_block_of element).
Proof.
  intros H. html_branches H;
    repeat match goal with
    | |- context [if truthy ?l then _ else _] => destruct l; cbn [truthy]
    | |- context [if ?b then _ else _] => destruct b
    end; cbn [h_blocks html_init app];
    first
      [ apply Forall_nil
      | apply Forall_cons; [|apply Forall_nil];
        (split; [cbn; tauto|]); (split; [reflexivity|]);
        (split; [unfold fields_fit; cbn; repeat split; intros; congruence|]);
        (split; [cbn; intros [E|[E|[E|[]]]]; congruence|]);
        (split; [cbn; intros; congruence|]);
        cbn; intros l0 E; first [discriminate | injection E as <-; lia] ].
Qed.

Lemma html_step_outline (st st' : html_state) (element : Bs4.tag) :
  Bs4.has_name html_query element = true ->
  html_step st element = inr st' ->
  map outline_entry (h_outline st')
  = map outline_entry (h_outline st)
    ++ map heading_entry
         (headings (map at_position
                        (enumerate_from (h_position st) (html_block_of element)))).
Proof.
  intros H. html_branches H;
    repeat match goal with
    | |- context [if ?b then _ else _] => destruct b
    end;
    intros E; injection E as <-; cbn;
    rewrite ?app_nil_r, ?map_app; reflexivity.
Qed.

Lemma html_loop_outline (elements : list Bs4.tag) :
  Forall (fun e => Bs4.has_name html_query e = true) elements ->
  forall st st',
    html_loop st elements = inr st' ->
    map outline_entry (h_outline st) = map heading_entry (headings (h_blocks st)) ->
    map outline_entry (h_outline st') = map heading_entry (headings (h_blocks st')).
Proof.
  induction 1 as [|e elements He _ IH]; intros st st' Hl Hst; cbn in Hl.
  - now injection Hl as <-.
  - destruct (html_step st e) as [err|st1] eqn:E; [discriminate|].
    apply (IH st1 st' Hl).
    destruct (html_step_block st st1 e He E) as [Hb _].
    rewrite (html_step_outline st st1 e He E), Hb, Hst.
    unfold headings. now rewrite filter_app, map_app.
Qed.

Lemma html_loop_forall (P : ContentBlock -> Prop) :
  (forall ib, P (snd ib) -> P (at_position ib)) ->
  forall elements,
    Forall (fun e => Forall P (html_block_of e)) elements ->
    Forall (fun e => Bs4.has_name html_query e = true) elements ->
    forall st st',
      html_loop st elements = inr st' ->
      Forall P (h_blocks st) -> Forall P (h_blocks st').
Proof.
  intros Hat elements HP Hn st st' Hl Hst.
  rewrite (html_loop_blocks elements Hn st st' Hl).
  apply Forall_app. split; [exact Hst|].
  apply Forall_forall. intros b Hb. apply in_map_iff in Hb as [ib [<- Hib]].
  apply Hat.
  assert (Hin : In (snd ib) (flat_map html_block_of elements)).
  { rewrite <- (enumerate_from_values (flat_map html_block_of elements)
                                      (h_position st)).
    now apply in_map. }
  apply in_flat_map in Hin as [e [He Hbe]].
  rewrite Forall_forall in HP. specialize (HP e He).
  rewrite Forall_forall in HP. now apply HP.
Qed.

(** ** What the HTML normalizer returns, with a parser *)

Lemma html_elements_named (soup : Bs4.tag) :
  Forall (fun e => Bs4.has_name html_query e = true) (html_elements soup).
Proof. apply find_all_names. Qed.

Lemma parse_html_content_scan bs4 input name w doc :
  returns (parse_html_content bs4 input name) w doc ->
  match html_try bs4 input with
  | Parsed soup =>
      exists st,
        html_loop html_init (html_elements soup) = inr st
        /\ blocks doc = h_blocks st /\ outline doc = h_outline st
  | Missing => blocks doc = [] /\ outline doc = []
  | Rejected _ => False
  end.
Proof.
  intros Hret. apply parse_html_content_returns in Hret.
  destruct (html_try bs4 input) as [soup| |e]; [| |exact Hret].
  - destruct Hret as [st [ft [ti [Hx [Hb [Ho _]]]]]].
    exists st. unfold html_extract in Hx. fold (html_elements soup) in Hx.
    destruct (html_loop html_init _) as [e|st1]; [discriminate|].
    injection Hx as -> _ _. auto.
  - destruct Hret as [Hb [Ho _]]. now split.
Qed.

(** X7.  When the tree builder returns a tree for the markup, the HTML
    normalizer returns a document (for text that can be encoded), and the
    blocks of the document are those of the visited elements, in document
    order: every element with one of the twelve names below [body] yields
    the block it would yield alone, and the blocks are numbered [0, 1, ...]
    as they come.  An element nested in another one is visited as well, so
    its text is reported by both. *)
Theorem html_blocks_follow_elements :
  forall (html_parser : str -> result Bs4.tag) (input filename : str)
         (soup : Bs4.tag) (w : world),
    html_parser input = inr soup ->
    (encodable input -> encodable filename ->
     exists doc,
       returns (parse_html_content (Some html_parser) input filename) w doc)
    /\ forall doc : ParsedDocument,
         returns (parse_html_content (Some html_parser) input filename) w doc ->
         blocks doc
         = map at_position
               (enumerate (flat_map html_block_of (html_elements soup)))
         /\ map position (blocks doc) = range 0 (len (blocks doc)).
Proof.
  intros html_parser input filename soup w Hsoup. split.
  - intros Hi Hf. apply parse_html_content_total; try assumption.
    intros e. unfold html_try. rewrite Hsoup. discriminate.
  - intros doc Hret. apply parse_html_content_scan in Hret.
    unfold html_try in Hret. rewrite Hsoup in Hret.
    destruct Hret as [st [Hl [Hb _]]].
    rewrite Hb, (html_loop_blocks _ (html_elements_named _) _ _ Hl).
    cbn [html_init h_blocks h_position app].
    set (bs := flat_map html_block_of (html_elements soup)).
    change (enumerate_from 0 bs) with (enumerate bs).
    split; [reflexivity|].
    rewrite map_map.
    change (fun x => position (at_position x)) with (@fst Z ContentBlock).
    rewrite enumerate_positions.
    unfold len. now rewrite length_map, enumerate_length.
Qed.

Lemma html_blocks_witness :
  SimpleHtml.parser nested_html = inr (SimpleHtml.tree nested_html)
  /\ exists doc,
       returns (parse_html_content (Some SimpleHtml.parser) nested_html
                                   (u "guide.html")) w0 doc
       /\ map (fun b => (type b, content b, position b)) (blocks doc)
          = [ (heading, u "Guide", 0); (code, u "x = 1", 1); (code, u "x = 1", 2);
              (paragraph, u "Done", 3) ].
Proof.
  split; [reflexivity|].
  destruct (html_blocks_follow_elements SimpleHtml.parser nested_html
              (u "guide.html") (SimpleHtml.tree nested_html) w0 eq_refl)
    as [Htotal Hpartial].
  destruct Htotal as [doc Hret]; [eexists; vm_compute; reflexivity ..|].
  exists doc. split; [exact Hret|].
  destruct (Hpartial doc Hret) as [Hb _]. rewrite Hb. vm_compute. reflexivity.
Defined.

(** ** The shape of the HTML blocks, and the outline *)

Lemma html_scan_shape (soup : Bs4.tag) (st : html_state) :
  html_loop html_init (html_elements soup) = inr st ->
  Forall (fun b =>
            In (type b) [heading; paragraph; code; list_; table_]
            /\ pageNumber b = Some 1
            /\ fields_fit b
            /\ (In (type b) [heading; paragraph; code] -> content b <> [])
            /\ (forall items, listItems b = Some items -> items <> [])
            /\ (forall l, headingLevel b = Some l -> 1 <= l <= 6))
         (h_blocks st).
Proof.
  intros Hl.
  eapply html_loop_forall;
    [| |apply html_elements_named|exact Hl|constructor].
  - intros [pos b]. unfold fields_fit. cbn. trivial.
  - eapply Forall_impl; [|apply html_elements_named].
    intros e He. now apply html_block_of_shape.
Qed.

(** X8.  Every block of a document that the HTML normalizer returns is a
    heading, a paragraph, a code block, a list or a table; it lies on
    page 1; its optional fields are those of its type; headings, paragraphs
    and code blocks are never empty, a list has at least one item, and a
    heading level lies between 1 and 6.  The normalizer returns a document
    for text that can be encoded, unless the tree builder raises an
    exception other than [ImportError]. *)
Theorem html_block_shape :
  forall (BeautifulSoup : option (str -> result Bs4.tag)) (input filename : str)
         (w : world),
    (encodable input -> encodable filename ->
     (forall e, html_try BeautifulSoup input <> Rejected e) ->
     exists doc,
       returns (parse_html_content BeautifulSoup input filename) w doc)
    /\ forall doc : ParsedDocument,
         returns (parse_html_content BeautifulSoup input filename) w doc ->
         Forall (fun b =>
                   In (type b) [heading; paragraph; code; list_; table_]
                   /\ pageNumber b = Some 1
                   /\ fields_fit b
                   /\ (In (type b) [heading; paragraph; code] -> content b <> [])
                   /\ (forall items, listItems b = Some items -> items <> [])
                   /\ (forall l, headingLevel b = Some l -> 1 <= l <= 6))
                (blocks doc).
Proof.
  intros bs4 input filename w.
  split; [apply parse_html_content_total|].
  intros doc Hret. apply parse_html_content_scan in Hret.
  destruct (html_try bs4 input) as [soup| |e]; [| |contradiction].
  - destruct Hret as [st [Hl [Hb _]]]. rewrite Hb.
    now apply (html_scan_shape soup).
  - destruct Hret as [Hb _]. rewrite Hb. constructor.
Qed.

Lemma html_block_shape_witness :
  exists doc,
    returns (parse_html_content (Some SimpleHtml.parser) messy_html
                                (u "m.html")) w0 doc
    /\ Forall (fun b => pageNumber b = Some 1 /\ fields_fit b) (blocks doc).
Proof.
  destruct (html_block_shape (Some SimpleHtml.parser) messy_html (u "m.html") w0)
    as [Htotal Hpartial].
  destruct Htotal as [doc Hret];
    [eexists; vm_compute; reflexivity ..|intros e; vm_compute; discriminate|].
  exists doc. split; [exact Hret|].
  eapply Forall_impl; [|exact (Hpartial doc Hret)]. cbn. tauto.
Defined.

(** X9.  The outline of a document that the HTML normalizer returns mirrors
    its heading blocks: one entry per heading block, in order, with the
    same text, level, page and position; every level lies between 1 and 6.
    The normalizer returns a document for text that can be encoded, unless
    the tree builder raises an exception other than [ImportError]. *)
Theorem html_outline_mirrors_headings :
  forall (BeautifulSoup : option (str -> result Bs4.tag)) (input filename : str)
         (w : world),
    (encodable input -> encodable filename ->
     (forall e, html_try BeautifulSoup input <> Rejected e) ->
     exists doc,
       returns (parse_html_content BeautifulSoup input filename) w doc)
    /\ forall doc : ParsedDocument,
         returns (parse_html_content BeautifulSoup input filename) w doc ->
         map outline_entry (outline doc) = map heading_entry (headings (blocks doc))
         /\ Forall (fun o => 1 <= level o <= 6 /\ o_pageNumber o = Some 1)
                   (outline doc).
Proof.
  intros bs4 input filename w.
  split; [apply parse_html_content_total|].
  intros doc Hret. apply parse_html_content_scan in Hret.
  destruct (html_try bs4 input) as [soup| |e]; [| |contradiction].
  - destruct Hret as [st [Hl [Hb Ho]]]. rewrite Hb, Ho.
    assert (Hm : map outline_entry (h_outline st)
                 = map heading_entry (headings (h_blocks st))).
    { now apply (html_loop_outline _ (html_elements_named _) _ _ Hl). }
    split; [exact Hm|].
    pose proof (html_scan_shape soup st Hl) as Hs.
    rewrite Forall_forall in Hs.
    apply Forall_forall. intros o Hin.
    apply (in_map outline_entry) in Hin. rewrite Hm in Hin.
    apply in_map_iff in Hin as [b [Hbo Hin]].
    apply filter_In in Hin as [Hin _].
    destruct (Hs b Hin) as [_ [Hp [_ [_ [_ Hlev]]]]].
    unfold heading_entry, outline_entry in Hbo. injection Hbo as _ Hl' Hp' _.
    split; [now apply Hlev|congruence].
  - destruct Hret as [Hb Ho]. rewrite Hb, Ho. split; [reflexivity|constructor].
Qed.

Lemma html_outline_witness :
  exists doc,
    returns (parse_html_content (Some SimpleHtml.parser) nested_html
                                (u "guide.html")) w0 doc
    /\ map outline_entry (outline doc) = [(u "Guide", Some 1, Some 1, 0)]
    /\ map heading_entry (headings (blocks doc)) = [(u "Guide", Some 1, Some 1, 0)].
Proof.
  destruct (html_outline_mirrors_headings (Some SimpleHtml.parser) nested_html
              (u "guide.html") w0)
    as [Htotal Hpartial].
  destruct Htotal as [doc Hret];
    [eexists; vm_compute; reflexivity ..|intros e; vm_compute; discriminate|].
  destruct (Hpartial doc Hret) as [Hm _].
  exists doc. split; [exact Hret|].
  rewrite <- Hm.
  assert (Ho : map outline_entry (outline doc) = [(u "Guide", Some 1, Some 1, 0)]).
  { apply parse_html_content_scan in Hret.
    change (html_try (Some SimpleHtml.parser) nested_html)
      with (Parsed (SimpleHtml.tree nested_html)) in Hret.
    destruct Hret as [st [Hl [_ Ho]]].
    rewrite Ho. clear Ho.
    assert (E : Some (h_outline st)
                = Some [{| title := u "Guide"; level := 1;
                           o_pageNumber := Some 1; o_position := 0 |}]).
    { transitivity
        (match html_loop html_init (html_elements (SimpleHtml.tree nested_html)) with
         | inr s => Some (h_outline s)
         | inl _ => None
         end); [now rewrite Hl|vm_compute; reflexivity]. }
    injection E as ->. reflexivity. }
  split; exact Ho.
Defined.

(** ** The layout of an HTML table *)

Lemma html_table_headers (trs : list Bs4.tag) :
  flat_map html_row_headers (enumerate trs)
  = match trs with
    | [] => []
    | tr :: _ =>
        map (fun c => strip (Bs4.get_text c [])) (Bs4.find_all tr [u "th"; u "td"])
    end.
Proof.
  destruct trs as [|tr trs]; [reflexivity|].
  unfold enumerate. cbn [enumerate_from flat_map].
  destruct (html_later_rows trs (0 + 1)) as [H1 _]; [lia|].
  rewrite H1, app_nil_r. unfold html_row_headers, html_row_cells.
  cbn [fst snd Z.eqb]. rewrite !map_map. cbn [cell_content new_TableCell].
  rewrite <- (map_map snd (fun c => strip (Bs4.get_text c []))).
  now rewrite enumerate_values.
Qed.

(** X10.  The table built from the rows of an HTML [table]: one row per [tr];
    one cell per [th] or [td] below it, in order, at its row and column
    index, holding its trimmed text; a cell is a header cell when it is a
    [th] or lies in row 0.  The headers are the texts of all cells of row
    0, whatever their tag; there is a header when they are not empty, and
    then the number of columns is their number. *)
Theorem html_table_layout :
  forall trs : list Bs4.tag,
    let t := html_table trs in
    let cell_tags (tr : Bs4.tag) := Bs4.find_all tr [u "th"; u "td"] in
    let text (c : Bs4.tag) := strip (Bs4.get_text c []) in
    rows t = len trs
    /\ cells t
       = flat_map
           (fun ir =>
              map (fun ic =>
                     new_TableCell (text (snd ic)) (fst ir) (fst ic)
                       (str_eqb (Bs4.name (snd ic)) (u "th") || (fst ir =? 0)))
                  (enumerate (cell_tags (snd ir))))
           (enumerate trs)
    /\ headers t = match trs with [] => [] | tr :: _ => map text (cell_tags tr) end
    /\ hasHeader t = truthy (headers t)
    /\ (hasHeader t = true -> cols t = len (headers t)).
Proof.
  intros trs t cell_tags text. subst t. unfold html_table.
  rewrite html_row_loop. cbn [fst snd app rows cells headers hasHeader cols].
  rewrite html_table_headers.
  repeat split.
  intros Hh. destruct (len _ =? 0) eqn:E; [|reflexivity].
  apply Z.eqb_eq in E. unfold len in E.
  destruct trs as [|tr trs]; [discriminate|].
  destruct (map _ _); [discriminate|]. cbn in E. lia.
Qed.

(** ** The adapter, item by item *)

Lemma docling_text_step_block (st : dl_state) (item : Docling.TextItem) :
  d_blocks (docling_text_step st item)
  = d_blocks st
    ++ map at_position (enumerate_from (d_position st) (docling_block_of item))
  /\ d_position (docling_text_step st item)
     = d_position st + len (docling_block_of item)
  /\ map outline_entry (d_outline (docling_text_step st item))
     = map outline_entry (d_outline st)
       ++ map heading_entry
            (headings (map at_position
                           (enumerate_from (d_position st) (docling_block_of item)))).
Proof.
  unfold docling_block_of, docling_text_step.
  remember (match Docling.text item with
            | Some t => strip t
            | None => strip (Docling.item_str item)
            end) as text.
  repeat match goal with
  | |- context [if ?b then _ else _] => destruct b
  end; cbn; rewrite ?app_nil_r, ?Z.add_0_r, ?map_app; repeat split; reflexivity.
Qed.

Lemma docling_texts_blocks (items : list Docling.TextItem) (st : dl_state) :
  d_blocks (fold_left docling_text_step items st)
  = d_blocks st
    ++ map at_position
         (enumerate_from (d_position st) (flat_map docling_block_of items))
  /\ d_position (fold_left docling_text_step items st)
     = d_position st + len (flat_map docling_block_of items).
Proof.
  revert st. induction items as [|item items IH]; intros st.
  - cbn. rewrite app_nil_r. split; [reflexivity|]. unfold len. cbn. lia.
  - cbn [fold_left flat_map].
    destruct (IH (docling_text_step st item)) as [Hb Hp].
    destruct (docling_text_step_block st item) as [Hb1 [Hp1 _]].
    rewrite Hb, Hp, Hb1, Hp1, enumerate_from_app, map_app, <- app_assoc.
    split; [reflexivity|]. rewrite len_app. lia.
Qed.

Lemma docling_texts_outline (items : list Docling.TextItem) (st : dl_state) :
  map outline_entry (d_outline st) = map heading_entry (headings (d_blocks st)) ->
  map outline_entry (d_outline (fold_left docling_text_step items st))
  = map heading_entry (headings (d_blocks (fold_left docling_text_step items st))).
Proof.
  revert st. induction items as [|item items IH]; intros st H; [exact H|].
  cbn [fold_left]. apply IH.
  destruct (docling_text_step_block st item) as [Hb [_ Ho]].
  rewrite Ho, Hb, H. unfold headings. now rewrite filter_app, map_app.
Qed.

Lemma docling_table_at (pos : Z) (t : Docling.TableItem) :
  docling_table pos t
  = match docling_table 0 t with
    | inr (Some b) => inr (Some (at_position (pos, b)))
    | other => other
    end.
Proof.
  unfold docling_table.
  destruct (Docling.export_to_dataframe t) as [[e|df]|]; try reflexivity.
  destruct (docling_data_cells (Docling.iterrows df)); reflexivity.
Qed.

Lemma table_blocks_of (ts : list Docling.TableItem) (pos : Z) :
  table_blocks pos ts
  = map at_position (enumerate_from pos (flat_map docling_table_of ts)).
Proof.
  revert pos. induction ts as [|t ts IH]; intros pos; [reflexivity|].
  cbn [table_blocks flat_map]. rewrite docling_table_at. unfold docling_table_of.
  destruct (docling_table 0 t) as [e|[b|]]; cbn [app enumerate_from map];
    now rewrite IH.
Qed.

Lemma table_warnings_of (ts : list Docling.TableItem) (pos k : Z) :
  table_warnings pos k ts = flat_map docling_warning_of (enumerate_from k ts).
Proof.
  revert pos k. induction ts as [|t ts IH]; intros pos k; [reflexivity|].
  cbn [table_warnings enumerate_from flat_map]. rewrite docling_table_at.
  unfold docling_warning_of at 1. cbn [fst snd].
  destruct (docling_table 0 t) as [e|[b|]]; cbn [app]; now rewrite IH.
Qed.

(** The state after both loops. *)
Lemma docling_scan_closed (options : ParseOptions) (d : Docling.Document) :
  let text_blocks := flat_map docling_block_of (docling_texts d) in
  let table_blocks := flat_map docling_table_of (docling_tables options d) in
  d_blocks (docling_scan options d)
  = map at_position (enumerate (text_blocks ++ table_blocks))
  /\ d_warnings (docling_scan options d)
     = flat_map docling_warning_of (enumerate (docling_tables options d))
  /\ map outline_entry (d_outline (docling_scan options d))
     = map heading_entry (headings (map at_position (enumerate text_blocks))).
Proof.
  intros text_blocks table_bs. subst text_blocks table_bs.
  unfold docling_scan, docling_texts, docling_tables, enumerate.
  set (items := getattr (Docling.texts d) []).
  set (st := match Docling.texts d with
             | Some items => fold_left docling_text_step items dl_init
             | None => dl_init
             end).
  assert (Hst : st = fold_left docling_text_step items dl_init).
  { subst st items. now destruct (Docling.texts d). }
  destruct (docling_texts_blocks items dl_init) as [Hb Hp].
  cbn [dl_init d_blocks d_position app] in Hb, Hp.
  assert (Hw : d_warnings st = []).
  { rewrite Hst. destruct (docling_texts_loop items dl_init) as [_ H];
      [constructor|exact H]. }
  assert (Ho : map outline_entry (d_outline st)
               = map heading_entry (headings (d_blocks st))).
  { rewrite Hst. now apply docling_texts_outline. }
  rewrite <- Hst in Hb, Hp.
  destruct (extractTables options); [destruct (Docling.tables d) as [ts|]|];
    cbn [getattr flat_map].
  - rewrite docling_tables_loop. cbn [d_blocks d_warnings d_outline].
    rewrite table_blocks_of, table_warnings_of, Hw, Hb, Hp, Ho, Hb.
    rewrite enumerate_from_app, map_app. cbn [app]. auto.
  - rewrite Hw, Ho, Hb, app_nil_r. auto.
  - rewrite Hw, Ho, Hb, app_nil_r. auto.
Qed.

(** ** What the adapter returns *)

Lemma parse_with_docling_scan conv file_content name options w d :
  Docling.convert conv file_content (lower (path_suffix name)) = inr d ->
  (forall err, Docling.export_to_markdown d <> Some (inl err)) ->
  encodable name ->
  exists doc,
    returns (parse_with_docling true (Some conv) file_content name options) w doc
    /\ blocks doc = d_blocks (docling_scan options d)
    /\ outline doc = d_outline (docling_scan options d)
    /\ warnings doc = d_warnings (docling_scan options d)
    /\ success doc = true.
Proof.
  intros Hconv Hmd Hname.
  destruct (parse_with_docling_total conv file_content name options w d
              Hconv Hmd Hname) as [doc Hret].
  exists doc. split; [exact Hret|].
  apply parse_with_docling_returns in Hret as [d' [Hc H]].
  rewrite Hconv in Hc. now injection Hc as <-.
Qed.

Lemma positions_enumerated (bs : list ContentBlock) :
  map position (map at_position (enumerate bs))
  = range 0 (len (map at_position (enumerate bs))).
Proof.
  rewrite map_map.
  change (fun x => position (at_position x)) with (@fst Z ContentBlock).
  rewrite enumerate_positions. unfold len.
  now rewrite length_map, enumerate_length.
Qed.

(** X11.  The blocks of a converted document are those of its text items, in
    order, followed by those of its tables when tables are extracted: every
    item and every table yields the block it would yield alone (none for an
    item without text, for a table without frame and for a table whose
    conversion raises), and the blocks are numbered [0, 1, ...] as they
    come. *)
Theorem docling_blocks_follow_items :
  forall (conv : Docling.DocumentConverter) (file_content : bytes)
         (filename : str) (options : ParseOptions) (w : world)
         (d : Docling.Document),
    Docling.convert conv file_content (lower (path_suffix filename)) = inr d ->
    (forall err, Docling.export_to_markdown d <> Some (inl err)) ->
    encodable filename ->
    exists doc,
      returns (parse_with_docling true (Some conv) file_content filename options)
              w doc
      /\ blocks doc
         = map at_position
             (enumerate (flat_map docling_block_of (docling_texts d)
                         ++ flat_map docling_table_of (docling_tables options d)))
      /\ map position (blocks doc) = range 0 (len (blocks doc)).
Proof.
  intros conv fc filename options w d Hconv Hmd Hname.
  destruct (parse_with_docling_scan conv fc filename options w d Hconv Hmd Hname)
    as [doc [Hret [Hb _]]].
  exists doc. split; [exact Hret|].
  destruct (docling_scan_closed options d) as [Hc _].
  rewrite Hb, Hc. split; [reflexivity|apply positions_enumerated].
Qed.

Lemma docling_blocks_witness :
  exists doc,
    returns (parse_with_docling true (Some (backend minutes)) pdf_bytes
               (u "minutes.pdf") default_ParseOptions) w0 doc
    /\ map (fun b => (type b, content b, position b, pageNumber b)) (firstn 2 (blocks doc))
       = [ (heading, u "Minutes", 0, Some 1); (list_, u "Agenda", 1, Some 2) ]
    /\ map (fun b => (type b, position b, pageNumber b)) (skipn 2 (blocks doc))
       = [ (table_, 2, Some 1); (table_, 3, Some 2) ].
Proof.
  destruct (docling_blocks_follow_items (backend minutes) pdf_bytes
              (u "minutes.pdf") default_ParseOptions w0 minutes)
    as [doc [Hret [Hb _]]].
  - reflexivity.
  - discriminate.
  - eexists. vm_compute. reflexivity.
  - exists doc. split; [exact Hret|]. rewrite Hb.
    split; vm_compute; reflexivity.
Defined.

(** X12.  The warnings of a converted document are those of its tables whose
    conversion raises, in order: one [TABLE_EXTRACTION_FAILED] warning per
    such table, naming the index of the table and the message of the
    exception.  There are none when tables are not extracted, and [success]
    is true in every case. *)
Theorem docling_warnings_are_failed_tables :
  forall (conv : Docling.DocumentConverter) (file_content : bytes)
         (filename : str) (options : ParseOptions) (w : world)
         (d : Docling.Document),
    Docling.convert conv file_content (lower (path_suffix filename)) = inr d ->
    (forall err, Docling.export_to_markdown d <> Some (inl err)) ->
    encodable filename ->
    exists doc,
      returns (parse_with_docling true (Some conv) file_content filename options)
              w doc
      /\ warnings doc
         = flat_map docling_warning_of (enumerate (docling_tables options d))
      /\ (extractTables options = false -> warnings doc = [])
      /\ Forall (fun x => w_code x = u "TABLE_EXTRACTION_FAILED"
                          /\ severity x = u "warning") (warnings doc)
      /\ success doc = true.
Proof.
  intros conv fc filename options w d Hconv Hmd Hname.
  destruct (parse_with_docling_scan conv fc filename options w d Hconv Hmd Hname)
    as [doc [Hret [_ [_ [Hw Hs]]]]].
  exists doc. split; [exact Hret|].
  destruct (docling_scan_closed options d) as [_ [Hc _]].
  rewrite Hw, Hc. split; [reflexivity|]. split; [|split; [|exact Hs]].
  - intros Hoff. unfold docling_tables. now rewrite Hoff.
  - apply Forall_forall. intros x Hx. apply in_flat_map in Hx as [it [_ Hx]].
    unfold docling_warning_of in Hx.
    destruct (docling_table 0 (snd it)); [|contradiction].
    destruct Hx as [<-|[]]. split; reflexivity.
Qed.

Lemma docling_warnings_witness :
  exists doc,
    returns (parse_with_docling true (Some (backend minutes)) pdf_bytes
               (u "minutes.pdf") default_ParseOptions) w0 doc
    /\ map message (warnings doc)
       = [u "Failed to extract table 1: malformed table"].
Proof.
  destruct (docling_warnings_are_failed_tables (backend minutes) pdf_bytes
              (u "minutes.pdf") default_ParseOptions w0 minutes)
    as [doc [Hret [Hw _]]].
  - reflexivity.
  - discriminate.
  - eexists. vm_compute. reflexivity.
  - exists doc. split; [exact Hret|]. rewrite Hw. vm_compute. reflexivity.
Defined.

(** ** The shape of the adapter's blocks, and the outline *)

Lemma docling_level_range (label : str) : 1 <= docling_level label <= 6.
Proof.
  unfold docling_level.
  repeat match goal with
  | |- context [if ?b then _ else _] => destruct b
  end; lia.
Qed.

Lemma docling_block_of_shape (item : Docling.TextItem) :
  Forall (fun b =>
            type b <> table_ /\ type b <> image_
            /\ (exists p, pageNumber b = Some p)
            /\ fields_fit b
            /\ content b <> []
            /\ (forall l, headingLevel b = Some l -> 1 <= l <= 6)
            /\ listType b <> Some ordered
            /\ table b = None)
         (docling_block_of item).
Proof.
  unfold docling_block_of, docling_text_step.
  pose proof (docling_level_range
                (lower (getattr (Docling.label item) (u "paragraph")))) as Hl.
  remember (docling_level _) as level.
  remember (match Docling.text item with
            | Some t => strip t
            | None => strip (Docling.item_str item)
            end) as text.
  destruct text as [|c text]; cbn [truthy negb]; [constructor|].
  repeat match goal with
  | |- context [if ?b then _ else _] => destruct b
  end; cbn [d_blocks dl_init app];
  (apply Forall_cons; [|apply Forall_nil]);
  (split; [discriminate|]); (split; [discriminate|]);
  (split; [eexists; reflexivity|]);
  (split; [unfold fields_fit; cbn; repeat split; intros; congruence|]);
  (split; [discriminate|]);
  (split; [cbn; intros l0 E; first [discriminate | injection E as <-; exact Hl]|]);
  (split; [discriminate|reflexivity]).
Qed.

Lemma docling_table_of_shape (t : Docling.TableItem) :
  Forall (fun b =>
            type b = table_
            /\ (exists p, pageNumber b = Some p)
            /\ fields_fit b
            /\ headingLevel b = None /\ listType b = None
            /\ exists ts, table b = Some ts /\ hasHeader ts = true
                          /\ content b = markdown ts)
         (docling_table_of t).
Proof.
  unfold docling_table_of, docling_table.
  destruct (Docling.export_to_dataframe t) as [[e|df]|]; try constructor.
  destruct (docling_data_cells (Docling.iterrows df)); constructor;
    [|constructor].
  split; [reflexivity|]. split; [eexists; reflexivity|].
  split; [unfold fields_fit; cbn; repeat split; intros; congruence|].
  split; [reflexivity|]. split; [reflexivity|].
  eexists. repeat split.
Qed.

Lemma fields_fit_at_position (ib : Z * ContentBlock) :
  fields_fit (snd ib) -> fields_fit (at_position ib).
Proof. unfold fields_fit. cbn. trivial. Qed.

Lemma at_position_in (k : Z) (bs : list ContentBlock) (b : ContentBlock) :
  In b (map at_position (enumerate_from k bs)) ->
  exists ib, b = at_position ib /\ In (snd ib) bs.
Proof.
  intros H. apply in_map_iff in H as [ib [<- Hib]]. exists ib. split; [reflexivity|].
  rewrite <- (enumerate_from_values bs k). now apply in_map.
Qed.

(** X13.  Every block of a converted document carries a page number and the
    optional fields of its type, and none is an image.  A block made from a
    text item is not empty, a heading level lies between 1 and 6, a list
    is unordered; a table block has a header and its content is the
    Markdown rendering of its table. *)
Theorem docling_block_shape :
  forall (conv : Docling.DocumentConverter) (file_content : bytes)
         (filename : str) (options : ParseOptions) (w : world)
         (d : Docling.Document),
    Docling.convert conv file_content (lower (path_suffix filename)) = inr d ->
    (forall err, Docling.export_to_markdown d <> Some (inl err)) ->
    encodable filename ->
    exists doc,
      returns (parse_with_docling true (Some conv) file_content filename options)
              w doc
      /\ Forall (fun b =>
                   type b <> image_
                   /\ (exists p, pageNumber b = Some p)
                   /\ fields_fit b
                   /\ (type b <> table_ -> content b <> [])
                   /\ (forall l, headingLevel b = Some l -> 1 <= l <= 6)
                   /\ listType b <> Some ordered
                   /\ (forall ts, table b = Some ts ->
                                  hasHeader ts = true /\ content b = markdown ts))
                (blocks doc).
Proof.
  intros conv fc filename options w d Hconv Hmd Hname.
  destruct (parse_with_docling_scan conv fc filename options w d Hconv Hmd Hname)
    as [doc [Hret [Hb _]]].
  exists doc. split; [exact Hret|].
  destruct (docling_scan_closed options d) as [Hc _].
  rewrite Hb, Hc. apply Forall_forall. intros b Hin.
  apply at_position_in in Hin as [[pos b0] [-> Hin]]. cbn [snd] in Hin.
  apply in_app_or in Hin as [Hin|Hin]; apply in_flat_map in Hin as [x [_ Hx]].
  - pose proof (docling_block_of_shape x) as H. rewrite Forall_forall in H.
    destruct (H b0 Hx) as [H1 [H2 [H3 [H4 [H5 [H6 [H7 H8]]]]]]].
    split; [exact H2|]. split; [exact H3|].
    split; [now apply fields_fit_at_position|].
    split; [intros _; exact H5|]. split; [exact H6|]. split; [exact H7|].
    intros ts Hts. cbn in Hts. congruence.
  - pose proof (docling_table_of_shape x) as H. rewrite Forall_forall in H.
    destruct (H b0 Hx) as [H1 [H2 [H3 [H4 [H5 [ts [H6 [H7 H8]]]]]]]].
    split; [cbn; congruence|]. split; [exact H2|].
    split; [now apply fields_fit_at_position|].
    split; [cbn; intros Hn; congruence|].
    split; [cbn; intros l Hl; congruence|]. split; [cbn; congruence|].
    intros ts' Hts. cbn in Hts. rewrite H6 in Hts. injection Hts as <-.
    split; [exact H7|exact H8].
Qed.

Lemma docling_block_shape_witness :
  exists doc,
    returns (parse_with_docling true (Some (backend minutes)) pdf_bytes
               (u "minutes.pdf") default_ParseOptions) w0 doc
    /\ Forall (fun b => (exists p, pageNumber b = Some p) /\ fields_fit b)
              (blocks doc).
Proof.
  destruct (docling_block_shape (backend minutes) pdf_bytes
              (u "minutes.pdf") default_ParseOptions w0 minutes)
    as [doc [Hret Hall]].
  - reflexivity.
  - discriminate.
  - eexists. vm_compute. reflexivity.
  - exists doc. split; [exact Hret|].
    eapply Forall_impl; [|exact Hall]. cbn. tauto.
Defined.

Lemma headings_of_tables (k : Z) (bs : list ContentBlock) :
  Forall (fun b => type b = table_) bs ->
  headings (map at_position (enumerate_from k bs)) = [].
Proof.
  intros H. revert k. induction H as [|b bs Hb _ IH]; intros k; [reflexivity|].
  cbn [enumerate_from map headings filter]. unfold has_type at 1.
  cbn [at_position type snd]. rewrite Hb. cbn [BlockType_eqb]. apply IH.
Qed.

(** X14.  The outline of a converted document mirrors its heading blocks: one
    entry per heading block, in order, with the same text, level, page and
    position; every level lies between 1 and 6. *)
Theorem docling_outline_mirrors_headings :
  forall (conv : Docling.DocumentConverter) (file_content : bytes)
         (filename : str) (options : ParseOptions) (w : world)
         (d : Docling.Document),
    Docling.convert conv file_content (lower (path_suffix filename)) = inr d ->
    (forall err, Docling.export_to_markdown d <> Some (inl err)) ->
    encodable filename ->
    exists doc,
      returns (parse_with_docling true (Some conv) file_content filename options)
              w doc
      /\ map outline_entry (outline doc) = map heading_entry (headings (blocks doc))
      /\ Forall (fun o => 1 <= level o <= 6) (outline doc).
Proof.
  intros conv fc filename options w d Hconv Hmd Hname.
  destruct (parse_with_docling_scan conv fc filename options w d Hconv Hmd Hname)
    as [doc [Hret [Hb [Ho _]]]].
  exists doc. split; [exact Hret|].
  destruct (docling_scan_closed options d) as [Hc [_ Hoc]].
  assert (Hm : map outline_entry (outline doc)
               = map heading_entry (headings (blocks doc))).
  { rewrite Hb, Ho, Hc, Hoc. unfold enumerate.
    rewrite enumerate_from_app, map_app. unfold headings at 2.
    rewrite filter_app. fold (headings (map at_position
      (enumerate_from 0 (flat_map docling_block_of (docling_texts d))))).
    match goal with
    | |- context [filter (has_type heading) (map at_position (enumerate_from ?k ?l))] =>
        fold (headings (map at_position (enumerate_from k l)));
        rewrite (headings_of_tables k l)
    end.
    - now rewrite app_nil_r.
    - apply Forall_forall. intros b Hin. apply in_flat_map in Hin as [t [_ Hin]].
      pose proof (docling_table_of_shape t) as H. rewrite Forall_forall in H.
      now destruct (H b Hin). }
  split; [exact Hm|].
  apply Forall_forall. intros o Hin.
  apply (in_map outline_entry) in Hin. rewrite Hm in Hin.
  apply in_map_iff in Hin as [b [Hbo Hin]].
  apply filter_In in Hin as [Hin _].
  rewrite Hb, Hc in Hin.
  apply at_position_in in Hin as [[pos b0] [-> Hin]]. cbn [snd] in Hin.
  unfold heading_entry, outline_entry in Hbo. cbn in Hbo.
  injection Hbo as _ Hl _ _.
  apply in_app_or in Hin as [Hin|Hin]; apply in_flat_map in Hin as [x [_ Hx]].
  - pose proof (docling_block_of_shape x) as H. rewrite Forall_forall in H.
    destruct (H b0 Hx) as [_ [_ [_ [_ [_ [H6 _]]]]]]. now apply H6.
  - pose proof (docling_table_of_shape x) as H. rewrite Forall_forall in H.
    destruct (H b0 Hx) as [_ [_ [_ [H4 _]]]]. congruence.
Qed.

Lemma docling_outline_witness :
  exists doc,
    returns (parse_with_docling true (Some (backend minutes)) pdf_bytes
               (u "minutes.pdf") default_ParseOptions) w0 doc
    /\ map heading_entry (headings (blocks doc)) = [(u "Minutes", Some 1, Some 1, 0)]
    /\ map outline_entry (outline doc) = [(u "Minutes", Some 1, Some 1, 0)].
Proof.
  destruct (docling_outline_mirrors_headings (backend minutes) pdf_bytes
              (u "minutes.pdf") default_ParseOptions w0 minutes)
    as [doc [Hret [Hm _]]].
  - reflexivity.
  - discriminate.
  - eexists. vm_compute. reflexivity.
  - exists doc. split; [exact Hret|]. rewrite Hm.
    assert (Hh : map heading_entry (headings (blocks doc))
                 = [(u "Minutes", Some 1, Some 1, 0)]).
    { apply parse_with_docling_returns in Hret as [d' [Hc [Hb _]]].
      injection Hc as <-. rewrite Hb. vm_compute. reflexivity. }
    split; exact Hh.
Defined.

(** ** The layout of a converted table *)

Lemma docling_data_cells_raises (rows : list (result Z * list str)) :
  Exists (fun r => (exists e, fst r = inl e) /\ snd r <> []) rows ->
  exists e, docling_data_cells rows = inl e.
Proof.
  induction rows as [|[r vs] rows IH]; intros H; [inversion H|].
  cbn [docling_data_cells].
  destruct (docling_value_cells r (enumerate vs)) as [e|cs] eqn:E;
    [now exists e|].
  apply Exists_cons in H as [[[e He] Hv]|H].
  - cbn [fst snd] in He, Hv. subst r.
    rewrite docling_value_cells_raises in E; [discriminate|].
    intros Hn. now apply Hv, enumerate_nil.
  - destruct (IH H) as [e ->]. now exists e.
Qed.

Lemma docling_data_cells_empty (rows : list (result Z * list str)) :
  Forall (fun r => snd r = []) rows -> docling_data_cells rows = inr [].
Proof.
  induction 1 as [|[r vs] rows Hv _ IH]; [reflexivity|].
  cbn [snd] in Hv. subst vs. cbn [docling_data_cells enumerate enumerate_from
    docling_value_cells]. now rewrite IH.
Qed.

(** X15.  A table whose frame has integer row labels becomes a table block at
    the current position: a header row of one header cell per column, then
    one row of data cells per frame row, placed at its label plus one;
    [rows] counts the frame rows and the header, [cols] the columns, and the
    Markdown rendering has a header line, a separator line and one line per
    frame row.  The label of a row is converted once per value of the row:
    a label that is no integer on a row that has values makes the conversion
    of the whole table raise, while a frame whose rows have no values
    becomes a table block with its header cells only, whatever its labels. *)
Theorem docling_table_layout :
  forall (pos : Z) (t : Docling.TableItem) (df : Docling.DataFrame),
    Docling.export_to_dataframe t = Some (inr df) ->
    (forall labels : list Z,
       map fst (Docling.iterrows df) = map (fun i => inr i) labels ->
       exists ts,
         docling_table pos t
         = inr (Some (table_block (markdown ts) pos ts
                                  (Some (getattr (Docling.table_page_no t) 1))))
         /\ rows ts = len (Docling.iterrows df) + 1
         /\ cols ts = len (Docling.columns df)
         /\ headers ts = Docling.columns df
         /\ hasHeader ts = true
         /\ cells ts
            = map (fun ih => new_TableCell (snd ih) 0 (fst ih) true)
                  (enumerate (Docling.columns df))
              ++ flat_map
                   (fun iv =>
                      map (fun cv => new_TableCell (snd cv) (fst iv + 1) (fst cv) false)
                          (enumerate (snd iv)))
                   (combine labels (map snd (Docling.iterrows df)))
         /\ markdown ts
            = join [nl]
                (md_row (Docling.columns df)
                 :: md_row (repeat (u "---") (List.length (Docling.columns df)))
                 :: map (fun r => md_row (snd r)) (Docling.iterrows df)))
    /\ (Exists (fun r => (exists e, fst r = inl e) /\ snd r <> [])
               (Docling.iterrows df) ->
        exists e, docling_table pos t = inl e)
    /\ (Forall (fun r => snd r = []) (Docling.iterrows df) ->
        exists ts,
          docling_table pos t
          = inr (Some (table_block (markdown ts) pos ts
                                   (Some (getattr (Docling.table_page_no t) 1))))
          /\ rows ts = len (Docling.iterrows df) + 1
          /\ cells ts
             = map (fun ih => new_TableCell (snd ih) 0 (fst ih) true)
                   (enumerate (Docling.columns df))).
Proof.
  intros pos t df Hdf. split; [|split].
  - intros labels Hl. unfold docling_table. rewrite Hdf.
    rewrite (docling_data_cells_labels _ _ Hl).
    match goal with
    | |- exists ts, inr (Some (table_block _ _ ?T _)) = _ /\ _ => exists T
    end.
    split; [reflexivity|]. cbn. repeat split; reflexivity.
  - intros H. unfold docling_table. rewrite Hdf.
    destruct (docling_data_cells_raises _ H) as [e ->]. now exists e.
  - intros H. unfold docling_table. rewrite Hdf.
    rewrite (docling_data_cells_empty _ H).
    match goal with
    | |- exists ts, inr (Some (table_block _ _ ?T _)) = _ /\ _ => exists T
    end.
    split; [reflexivity|]. cbn. split; [reflexivity|apply app_nil_r].
Qed.

Lemma docling_table_layout_witness :
  (exists ts,
     docling_table 7 (good_table 2)
     = inr (Some (table_block (markdown ts) 7 ts (Some 2)))
     /\ rows ts = 3 /\ cols ts = 2
     /\ map (fun c => (cell_content c, row c, col c, isHeader c)) (cells ts)
        = [ (u "key", 0, 0, true); (u "value", 0, 1, true);
            (u "a", 1, 0, false); (u "1", 1, 1, false);
            (u "b", 2, 0, false); (u "2", 2, 1, false) ])
  /\ (exists e, docling_table 7 unlabelled_table = inl e)
  /\ exists ts,
       docling_table 7 columnless_table
       = inr (Some (table_block (markdown ts) 7 ts (Some 1)))
       /\ rows ts = 2 /\ cells ts = [].
Proof.
  split; [|split].
  - destruct (docling_table_layout 7 (good_table 2) frame_kv eq_refl) as [H _].
    destruct (H [0; 1] eq_refl) as [ts [Ht [Hr [Hc [_ [_ [Hcells _]]]]]]].
    exists ts. split; [exact Ht|]. split; [exact Hr|]. split; [exact Hc|].
    rewrite Hcells. vm_compute. reflexivity.
  - destruct (docling_table_layout 7 unlabelled_table unlabelled_frame eq_refl)
      as [_ [H _]].
    apply H. apply Exists_cons_tl. apply Exists_cons_hd.
    split; [eexists; reflexivity|discriminate].
  - destruct (docling_table_layout 7 columnless_table columnless_frame eq_refl)
      as [_ [_ H]].
    destruct H as [ts [Ht [Hr Hcells]]]; [repeat constructor|].
    exists ts. split; [exact Ht|]. split; [exact Hr|exact Hcells].
Defined.


(** ** [Path(filename).suffix] *)

Lemma startswith_char (x c : char) (s : str) :
  startswith (x :: s) [c] = (x =? c)%N.
Proof. cbn. destruct s; apply andb_true_r. Qed.

Lemma split_from_char (c : char) (a b : str) :
  forall cur,
    split_from [c] (a ++ c :: b) 0 cur
    = split_from [c] a 0 cur ++ split_from [c] b 0 [].
Proof.
  induction a as [|x a IH]; intros cur; cbn [app split_from];
    rewrite !startswith_char; cbn [List.length Nat.sub].
  - now rewrite N.eqb_refl.
  - destruct (x =? c)%N; now rewrite IH.
Qed.

Lemma lacks_contains (c : char) (s : str) :
  lacks c s = true -> contains [c] s = false.
Proof.
  induction s as [|x s IH]; [reflexivity|]. cbn [lacks forallb contains].
  intros H. apply andb_true_iff in H as [Hx Hs].
  rewrite startswith_char, (IH Hs).
  apply negb_true_iff in Hx. now rewrite Hx.
Qed.

Lemma lacks_app (c : char) (a b : str) :
  lacks c (a ++ b) = lacks c a && lacks c b.
Proof. apply forallb_app. Qed.

(** The final component of a path. *)
Lemma path_name_last (prefix name : str) :
  (prefix = [] \/ exists dir, prefix = dir ++ u "/") ->
  lacks (ch "/") name = true -> name <> [] -> name <> u "." ->
  path_name (prefix ++ name) = name.
Proof.
  intros Hp Hl Hne Hdot. unfold path_name.
  assert (Hkeep : (truthy name && negb (str_eqb name (u ".")) = true)%bool).
  { destruct name as [|x name]; [congruence|]. cbn [truthy andb].
    apply negb_true_iff. destruct (str_eqb _ _) eqn:E; [|reflexivity].
    apply str_eqb_eq in E. congruence. }
  assert (Hs : split name (u "/") = [name]).
  { apply split_absent. now apply lacks_contains. }
  destruct Hp as [->|[dir ->]].
  - cbn [app]. rewrite Hs. cbn [filter]. now rewrite Hkeep.
  - rewrite <- app_assoc. unfold split.
    change (u "/" ++ name) with (ch "/" :: name).
    change (u "/") with [ch "/"].
    rewrite split_from_char. fold (split name [ch "/"]).
    change [ch "/"] with (u "/"). rewrite Hs, filter_app.
    cbn [filter]. rewrite Hkeep. apply last_last.
Qed.

Lemma rfind_from_app (c : char) (a b : str) :
  forall i found,
    rfind_from c (a ++ b) i found
    = rfind_from c b (i + List.length a) (rfind_from c a i found).
Proof.
  induction a as [|x a IH]; intros i found; cbn [app rfind_from List.length].
  - now rewrite Nat.add_0_r.
  - rewrite IH. f_equal. lia.
Qed.

Lemma rfind_from_lacks (c : char) (s : str) :
  lacks c s = true -> forall i found, rfind_from c s i found = found.
Proof.
  induction s as [|x s IH]; intros H i found; [reflexivity|].
  cbn [lacks forallb] in H. apply andb_true_iff in H as [Hx Hs].
  apply negb_true_iff in Hx. cbn [rfind_from]. rewrite Hx. now apply IH.
Qed.

(** The suffix of [stem.ext]. *)
Lemma path_suffix_ext (prefix stem ext : str) :
  (prefix = [] \/ exists dir, prefix = dir ++ u "/") ->
  stem <> [] -> lacks (ch "/") stem = true ->
  ext <> [] -> lacks (ch "/") ext = true -> lacks (ch ".") ext = true ->
  path_suffix (prefix ++ stem ++ u "." ++ ext) = u "." ++ ext.
Proof.
  intros Hp Hstem Hs1 Hext He1 He2. unfold path_suffix.
  rewrite path_name_last; try assumption.
  - change (u "." ++ ext) with (ch "." :: ext).
    rewrite rfind_from_app. cbn [rfind_from]. rewrite N.eqb_refl.
    rewrite rfind_from_lacks by exact He2.
    cbn [Nat.add].
    replace ((0 <? List.length stem)%nat
             && (List.length stem <? List.length (stem ++ ch "." :: ext) - 1)%nat)
      with true.
    + now rewrite skipn_app, skipn_all, Nat.sub_diag.
    + symmetry. apply andb_true_iff. rewrite !Nat.ltb_lt, length_app.
      cbn [List.length]. destruct stem; [congruence|]. destruct ext; [congruence|].
      cbn [List.length]. lia.
  - rewrite !lacks_app, Hs1, He1. reflexivity.
  - now destruct stem.
  - destruct stem as [|x stem]; [congruence|].
    destruct stem; cbn; [|congruence]. destruct ext; [congruence|discriminate].
Qed.

(** ** [get_format_from_filename] *)

Lemma ext_map_cases (ext fmt : str) :
  dict_get
    [ (u ".pdf", u "pdf"); (u ".docx", u "docx"); (u ".pptx", u "pptx");
      (u ".xlsx", u "xlsx"); (u ".html", u "html"); (u ".htm", u "html");
      (u ".md", u "md"); (u ".markdown", u "md"); (u ".txt", u "txt") ] ext
  = Some fmt ->
  In (ext, fmt)
     [ (u ".pdf", u "pdf"); (u ".docx", u "docx"); (u ".pptx", u "pptx");
       (u ".xlsx", u "xlsx"); (u ".html", u "html"); (u ".htm", u "html");
       (u ".md", u "md"); (u ".markdown", u "md"); (u ".txt", u "txt") ].
Proof.
  cbn [dict_get].
  repeat match goal with
  | |- context [str_eqb ?k ext] =>
      destruct (str_eqb k ext) eqn:E;
        [apply str_eqb_eq in E; subst ext; intros H; injection H as <-;
         cbn; tauto|clear E]
  end.
  discriminate.
Qed.

Lemma get_format_known (name fmt : str) :
  get_format_from_filename name = Some fmt -> In fmt SUPPORTED_FORMATS.
Proof.
  unfold get_format_from_filename. intros H. apply ext_map_cases in H.
  cbn in H. unfold SUPPORTED_FORMATS. cbn.
  repeat (destruct H as [H|H]; [injection H as _ <-; tauto|]). contradiction.
Qed.

Lemma path_name_lacks (c : char) (name : str) :
  lacks c name = true -> lacks c (path_name name) = true.
Proof.
  intros H. unfold path_name.
  pose proof (forallb_split _ name (u "/") ltac:(discriminate) H) as Hp.
  set (parts := filter _ _).
  assert (Hparts : Forall (fun s => lacks c s = true) parts).
  { subst parts. apply Forall_forall. intros s Hs. apply filter_In in Hs as [Hs _].
    rewrite Forall_forall in Hp. now apply Hp. }
  clearbody parts. induction Hparts as [|s parts Hs _ IH]; [reflexivity|].
  destruct parts; [exact Hs|exact IH].
Qed.

Lemma rfind_from_none (c : char) (s : str) (i : nat) :
  lacks c s = true -> rfind_from c s i None = None.
Proof. intros H. now apply rfind_from_lacks. Qed.

(** X16.  The detected format is one of [pdf], [docx], [pptx], [xlsx],
    [html], [md] and [txt]; it never is [markdown].  A file name without a
    dot has no format. *)
Theorem format_detection_range :
  forall filename : str,
    (forall fmt, get_format_from_filename filename = Some fmt ->
                 In fmt SUPPORTED_FORMATS /\ fmt <> u "markdown")
    /\ (lacks (ch ".") filename = true ->
        get_format_from_filename filename = None).
Proof.
  intros name. split.
  - intros fmt H. apply get_format_known in H. split; [exact H|].
    unfold SUPPORTED_FORMATS in H. cbn in H.
    repeat (destruct H as [H|H]; [subst fmt; discriminate|]). contradiction.
  - intros H. unfold get_format_from_filename, path_suffix.
    rewrite rfind_from_none by now apply path_name_lacks. reflexivity.
Qed.

Lemma format_detection_range_witness :
  (In (u "html") SUPPORTED_FORMATS /\ u "html" <> u "markdown")
  /\ get_format_from_filename (u "docs/README") = None.
Proof.
  destruct (format_detection_range (u "page.htm")) as [H _].
  destruct (format_detection_range (u "docs/README")) as [_ H'].
  split; [apply H; vm_compute; reflexivity|apply H'; vm_compute; reflexivity].
Defined.

(** X17.  The detected format depends on the extension only: for a file name
    made of an optional directory part, a stem and an extension without
    dot, the format is the one of [x.ext].  The stem may contain dots. *)
Theorem format_depends_on_extension :
  forall prefix stem ext : str,
    (prefix = [] \/ exists dir, prefix = dir ++ u "/") ->
    stem <> [] -> lacks (ch "/") stem = true ->
    ext <> [] -> lacks (ch "/") ext = true -> lacks (ch ".") ext = true ->
    get_format_from_filename (prefix ++ stem ++ u "." ++ ext)
    = get_format_from_filename (u "x." ++ ext).
Proof.
  intros prefix stem ext Hp Hs Hs1 He He1 He2.
  unfold get_format_from_filename.
  rewrite (path_suffix_ext prefix stem ext) by assumption.
  change (u "x." ++ ext) with ([] ++ u "x" ++ u "." ++ ext).
  rewrite (path_suffix_ext [] (u "x") ext); auto; discriminate.
Qed.

Lemma format_depends_on_extension_witness :
  get_format_from_filename (u "reports/2024/" ++ u "annual.v2" ++ u "." ++ u "DOCX")
  = Some (u "docx").
Proof.
  rewrite (format_depends_on_extension (u "reports/2024/") (u "annual.v2") (u "DOCX")).
  - vm_compute. reflexivity.
  - right. exists (u "reports/2024"). reflexivity.
  - discriminate.
  - reflexivity.
  - discriminate.
  - reflexivity.
  - reflexivity.
Defined.

(** ** The outcomes of [parse] *)

Lemma respond_cases (start_time : Q) (normalize : M ParsedDocument) (w : world) :
  exists ms,
    fst (respond start_time normalize w)
    = match fst (normalize w) with
      | inr doc => Returns {| r_success := success doc; document := Some doc;
                              error := None; processingTimeMs := ms |}
      | inl e => Returns {| r_success := false; document := None;
                            error := Some (exn_msg e); processingTimeMs := ms |}
      end.
Proof.
  unfold respond. destruct (normalize w) as [[e|doc] w1]; cbn [fst];
    eexists; reflexivity.
Qed.

Lemma binary_not_native (fmt : str) :
  In fmt binary_formats ->
  existsb (str_eqb fmt) [u "md"; u "markdown"] = false
  /\ str_eqb fmt (u "txt") = false /\ str_eqb fmt (u "html") = false.
Proof.
  unfold binary_formats. cbn [map In].
  intros [<-|[<-|[<-|[<-|[]]]]]; repeat split; reflexivity.
Qed.

Lemma supported_not_native (fmt : str) :
  In fmt SUPPORTED_FORMATS ->
  existsb (str_eqb fmt) [u "md"; u "markdown"] = false ->
  str_eqb fmt (u "txt") = false -> str_eqb fmt (u "html") = false ->
  In fmt binary_formats.
Proof.
  unfold SUPPORTED_FORMATS, binary_formats. cbn [map In].
  intros [<-|[<-|[<-|[<-|[<-|[<-|[<-|[]]]]]]]] Hmd Htxt Hhtml;
    first [discriminate Hmd | discriminate Htxt | discriminate Hhtml | tauto].
Qed.

(** X18.  The requests [parse] answers with an HTTP error are exactly these:
    a payload that is no Base64 text gives 400 with the message of the
    decoder; a decoded payload of more than 150 MiB gives 413, whatever the
    file name; otherwise a file name without a known extension gives 400
    and names the file; otherwise a PDF, DOCX, PPTX or XLSX file gives 503
    when the backend is not loaded.  Every HTTP error of [parse] is one of
    these four, with that status code and that detail. *)
Theorem parse_http_errors :
  forall (b64decode : str -> result bytes)
         (BeautifulSoup : option (str -> result Bs4.tag))
         (DOCLING_AVAILABLE : bool)
         (converter : option Docling.DocumentConverter)
         (request : ParseRequest) (w : world),
    let outcome :=
      fst (parse b64decode BeautifulSoup DOCLING_AVAILABLE converter request w) in
    (forall e,
       b64decode (fileContent request) = inl e ->
       outcome = HTTPException 400 (u "Invalid base64 content: " ++ exn_msg e))
    /\ (forall payload,
          b64decode (fileContent request) = inr payload ->
          (MAX_FILE_SIZE < len payload ->
           outcome = HTTPException 413 (u "File too large. Maximum size: 150MB"))
          /\ (len payload <= MAX_FILE_SIZE ->
              get_format_from_filename (req_filename request) = None ->
              outcome = HTTPException 400
                          (u "Unsupported file format: " ++ req_filename request))
          /\ (len payload <= MAX_FILE_SIZE ->
              forall fmt,
                get_format_from_filename (req_filename request) = Some fmt ->
                In fmt binary_formats ->
                DOCLING_AVAILABLE = false \/ converter = None ->
                outcome = HTTPException 503
                            (u "Docling not available for " ++ fmt
                             ++ u " parsing. Install docling package.")))
    /\ (forall code detail,
          outcome = HTTPException code detail ->
          (exists e,
             b64decode (fileContent request) = inl e
             /\ code = 400
             /\ detail = u "Invalid base64 content: " ++ exn_msg e)
          \/ exists payload,
               b64decode (fileContent request) = inr payload
               /\ ((MAX_FILE_SIZE < len payload
                    /\ code = 413
                    /\ detail = u "File too large. Maximum size: 150MB")
                   \/ (len payload <= MAX_FILE_SIZE
                       /\ get_format_from_filename (req_filename request) = None
                       /\ code = 400
                       /\ detail = u "Unsupported file format: "
                                   ++ req_filename request)
                   \/ (len payload <= MAX_FILE_SIZE
                       /\ exists fmt,
                            get_format_from_filename (req_filename request)
                            = Some fmt
                            /\ In fmt binary_formats
                            /\ (DOCLING_AVAILABLE = false \/ converter = None)
                            /\ code = 503
                            /\ detail = u "Docling not available for " ++ fmt
                                        ++ u " parsing. Install docling package."))).
Proof.
  intros b64decode bs4 avail conv request w outcome. subst outcome.
  unfold parse. cbn [read_clock].
  set (w1 := World (S (reads w)) (wall w)).
  destruct (b64decode (fileContent request)) as [e|payload].
  { split; [intros e' H; injection H as <-; reflexivity|].
    split; [intros p H; discriminate|].
    intros code detail H. injection H as <- <-. left. now exists e. }
  split; [intros e H; discriminate|].
  split.
  - intros p H. injection H as <-.
    destruct (MAX_FILE_SIZE <? len payload) eqn:Hsize.
    { apply Z.ltb_lt in Hsize. split; [reflexivity|]. split; intros; lia. }
    apply Z.ltb_ge in Hsize. split; [intros; lia|]. split.
    + intros _ Hf. now rewrite Hf.
    + intros _ fmt Hf Hin Hoff. rewrite Hf.
      destruct (binary_not_native fmt Hin) as [-> [-> ->]].
      destruct avail; [|reflexivity]. destruct conv; [|reflexivity].
      destruct Hoff; discriminate.
  - intros code detail Hout. right. exists payload. split; [reflexivity|].
    destruct (MAX_FILE_SIZE <? len payload) eqn:Hsize.
    { apply Z.ltb_lt in Hsize. injection Hout as <- <-. left. now repeat split. }
    apply Z.ltb_ge in Hsize. right.
    destruct (get_format_from_filename (req_filename request)) as [fmt|] eqn:Hf.
    2:{ injection Hout as <- <-. left. now repeat split. }
    right. split; [exact Hsize|]. exists fmt. split; [reflexivity|].
    pose proof (get_format_known _ _ Hf) as Hknown.
    pose proof (supported_not_native fmt Hknown) as Hbin.
    revert Hout.
    repeat lazymatch goal with
    | |- fst (respond ?s ?m ?w) = _ -> _ =>
        let ms := fresh "ms" in
        let E := fresh "E" in
        destruct (respond_cases s m w) as [ms E]; rewrite E; clear E;
        destruct (fst (m w)); discriminate
    | |- fst (if ?b then _ else _) = _ -> _ => destruct b eqn:?
    | |- fst (match ?c with Some _ => _ | None => _ end) = _ -> _ => destruct c
    end.
    all: intros H; injection H as <- <-;
      (split; [now apply Hbin|]); (split; [auto|now split]).
Qed.

Lemma oversized_length : MAX_FILE_SIZE < len oversized.
Proof.
  unfold len, oversized. rewrite repeat_length, Z2Nat.id; [lia|].
  vm_compute. discriminate.
Qed.

Lemma parse_http_errors_witness :
  fst (parse rejects None false None (request_of "AA" "notes.md") w0)
  = HTTPException 400 (u "Invalid base64 content: Incorrect padding")
  /\ fst (parse (yields oversized) None false None oversized_request w0)
     = HTTPException 413 (u "File too large. Maximum size: 150MB")
  /\ fst (parse (yields pdf_bytes) None false None
                (request_of "JVBERg==" "notes.odt") w0)
     = HTTPException 400 (u "Unsupported file format: notes.odt")
  /\ fst (parse (yields pdf_bytes) None false None
                (request_of "JVBERg==" "report.pdf") w0)
     = HTTPException 503
         (u "Docling not available for pdf parsing. Install docling package.").
Proof.
  split; [|split; [|split]].
  - destruct (parse_http_errors rejects None false None
                (request_of "AA" "notes.md") w0) as [H _].
    apply (H (Exception "binascii.Error" (u "Incorrect padding"))). reflexivity.
  - destruct (parse_http_errors (yields oversized) None false None
                oversized_request w0) as [_ [H _]].
    destruct (H oversized eq_refl) as [H413 _].
    apply H413. exact oversized_length.
  - destruct (parse_http_errors (yields pdf_bytes) None false None
                (request_of "JVBERg==" "notes.odt") w0) as [_ [H _]].
    destruct (H pdf_bytes eq_refl) as [_ [H400 _]].
    apply H400; [vm_compute; discriminate|vm_compute; reflexivity].
  - destruct (parse_http_errors (yields pdf_bytes) None false None
                (request_of "JVBERg==" "report.pdf") w0) as [_ [H _]].
    destruct (H pdf_bytes eq_refl) as [_ [_ H503]].
    apply (H503 ltac:(vm_compute; discriminate) (u "pdf")).
    + vm_compute. reflexivity.
    + left. reflexivity.
    + left. reflexivity.
Defined.

Lemma polyglot_response :
  exists doc ms,
    fst (parse (yields polyglot_utf8) None false None polyglot_request w0)
    = Returns {| r_success := true; document := Some doc; error := None;
                 processingTimeMs := ms |}.
Proof. eexists. eexists. vm_compute. reflexivity. Qed.

(** X19.  Every response of [parse] is well formed: with a document it
    repeats the document's [success] and has no error; without one it has
    an error message and [success = false]. *)
Theorem parse_response_well_formed :
  forall (b64decode : str -> result bytes)
         (BeautifulSoup : option (str -> result Bs4.tag))
         (DOCLING_AVAILABLE : bool)
         (converter : option Docling.DocumentConverter)
         (request : ParseRequest) (w : world) (r : ParseResponse),
    fst (parse b64decode BeautifulSoup DOCLING_AVAILABLE converter request w)
    = Returns r ->
    well_formed_response r.
Proof.
  intros b64decode bs4 avail conv request w r.
  unfold parse. cbn [read_clock].
  destruct (b64decode (fileContent request)) as [e|payload]; [discriminate|].
  destruct (MAX_FILE_SIZE <? len payload); [discriminate|].
  destruct (get_format_from_filename (req_filename request)) as [fmt|];
    [|discriminate].
  repeat match goal with
  | |- context [fst (respond ?s ?m ?w)] =>
      let ms := fresh "ms" in
      let E := fresh "E" in
      destruct (respond_cases s m w) as [ms E]; rewrite E; clear E;
      destruct (fst (m w)); intros H; injection H as <-;
      unfold well_formed_response; cbn [document error r_success]; split;
      first [reflexivity | discriminate]
  | |- context [if ?b then _ else _] => destruct b
  | |- context [match ?c with Some _ => _ | None => _ end] => destruct c
  end.
  all: cbn [fst]; discriminate.
Qed.

Lemma parse_response_witness :
  exists r,
    fst (parse (yields polyglot_utf8) None false None polyglot_request w0) = Returns r
    /\ well_formed_response r.
Proof.
  destruct polyglot_response as [doc [ms E]].
  eexists. split; [exact E|].
  exact (parse_response_well_formed (yields polyglot_utf8) None false None
           polyglot_request w0 _ E).
Defined.

(** ** Failures of the conversion backend *)

(** X20.  When the conversion of the backend raises, the adapter raises the
    same exception, and [parse] does not answer with an HTTP error: it
    returns a response without document, with the message of the exception
    as [error] and with [success = false]. *)
Theorem backend_failure_is_reported :
  forall (b64decode : str -> result bytes)
         (BeautifulSoup : option (str -> result Bs4.tag))
         (conv : Docling.DocumentConverter)
         (request : ParseRequest) (payload : bytes) (fmt : str) (e : exn)
         (w : world),
    b64decode (fileContent request) = inr payload ->
    len payload <= MAX_FILE_SIZE ->
    get_format_from_filename (req_filename request) = Some fmt ->
    In fmt binary_formats ->
    Docling.convert conv payload (lower (path_suffix (req_filename request)))
    = inl e ->
    (forall options w',
       fst (parse_with_docling true (Some conv) payload (req_filename request)
                               options w') = inl e)
    /\ exists ms,
         fst (parse b64decode BeautifulSoup true (Some conv) request w)
         = Returns {| r_success := false; document := None;
                      error := Some (exn_msg e); processingTimeMs := ms |}.
Proof.
  intros b64decode bs4 conv request payload fmt e w Hb64 Hsize Hfmt Hin Hconv.
  assert (Hraise : forall options w',
            fst (parse_with_docling true (Some conv) payload (req_filename request)
                                    options w') = inl e).
  { intros options w'. unfold parse_with_docling, bind, lift, time.
    cbn [fst snd]. now rewrite Hconv. }
  split; [exact Hraise|].
  unfold parse. cbn [read_clock]. rewrite Hb64.
  replace (MAX_FILE_SIZE <? len payload) with false
    by (symmetry; apply Z.ltb_ge; exact Hsize).
  rewrite Hfmt. destruct (binary_not_native fmt Hin) as [-> [-> ->]].
  match goal with
  | |- context [fst (respond ?s ?m ?w1)] =>
      destruct (respond_cases s m w1) as [ms E]; rewrite E, Hraise
  end.
  now exists ms.
Qed.

Lemma backend_failure_witness :
  exists ms,
    fst (parse (yields pdf_bytes) None true (Some failing_backend)
               (request_of "JVBERg==" "report.pdf") w0)
    = Returns {| r_success := false; document := None;
                 error := Some (u "conversion failed"); processingTimeMs := ms |}.
Proof.
  destruct (backend_failure_is_reported (yields pdf_bytes) None failing_backend
              (request_of "JVBERg==" "report.pdf") pdf_bytes (u "pdf")
              (Exception "RuntimeError" (u "conversion failed")) w0)
    as [_ H].
  - reflexivity.
  - vm_compute. discriminate.
  - vm_compute. reflexivity.
  - left. reflexivity.
  - reflexivity.
  - exact H.
Defined.

(** ** The metadata of the returned document *)

Lemma respond_document (start_time : Q) (normalize : M ParsedDocument)
    (w : world) (r : ParseResponse) (doc : ParsedDocument) :
  fst (respond start_time normalize w) = Returns r ->
  document r = Some doc -> returns normalize w doc.
Proof.
  destruct (respond_cases start_time normalize w) as [ms ->]. unfold returns.
  destruct (fst (normalize w)) as [e|doc']; intros H; injection H as <-;
    cbn [document]; intros Hd; [discriminate|]. now injection Hd as ->.
Qed.

Lemma decode_then_inv (file_content : bytes)
    (normalize : str -> M ParsedDocument) (w : world) (doc : ParsedDocument) :
  returns (content <- lift (decode file_content Replace) ;; normalize content) w doc ->
  exists text,
    decode file_content Replace = inr text /\ returns (normalize text) w doc.
Proof.
  unfold returns, bind, lift.
  destruct (decode file_content Replace) as [e|text]; [discriminate|].
  intros H. now exists text.
Qed.

Lemma parse_with_docling_metadata avail conv file_content name options w doc :
  returns (parse_with_docling avail (Some conv) file_content name options) w doc ->
  filename (metadata doc) = name
  /\ parser (metadata doc) = u "docling"
  /\ fileSize (metadata doc) = len file_content
  /\ format (metadata doc)
     = getattr (dict_get [ (u ".pdf", u "pdf"); (u ".docx", u "docx");
                           (u ".pptx", u "pptx"); (u ".xlsx", u "xlsx") ]
                         (lower (path_suffix name)))
               (u "pdf").
Proof.
  unfold returns, parse_with_docling, bind, lift, time, ret.
  destruct avail; [|discriminate]. cbn [fst snd].
  destruct (Docling.convert conv file_content _) as [e|d]; [discriminate|].
  destruct (match Docling.export_to_markdown d with
            | Some r => r
            | None => _
            end) as [e|full_text]; [discriminate|].
  destruct (encode name) as [e|nb] eqn:En.
  - erewrite generate_document_id_raises by eassumption. discriminate.
  - erewrite generate_document_id_run by eassumption. cbn [fst].
    intros H. injection H as <-. cbn. repeat split; reflexivity.
Qed.

(** X21.  A document returned by [parse] records the request: its [filename]
    is the one of the request, its [format] is the format detected from
    that name, and its [parser] is [docling] for the four backend formats
    and [native-] followed by the format otherwise. *)
Theorem parse_document_metadata :
  forall (b64decode : str -> result bytes)
         (BeautifulSoup : option (str -> result Bs4.tag))
         (DOCLING_AVAILABLE : bool)
         (converter : option Docling.DocumentConverter)
         (request : ParseRequest) (w : world)
         (r : ParseResponse) (doc : ParsedDocument),
    fst (parse b64decode BeautifulSoup DOCLING_AVAILABLE converter request w)
    = Returns r ->
    document r = Some doc ->
    filename (metadata doc) = req_filename request
    /\ get_format_from_filename (req_filename request)
       = Some (format (metadata doc))
    /\ parser (metadata doc)
       = if existsb (str_eqb (format (metadata doc))) binary_formats
         then u "docling"
         else u "native-" ++ format (metadata doc).
Proof.
  intros b64decode bs4 avail conv request w r doc Hret Hdoc.
  unfold parse in Hret. cbn [read_clock] in Hret.
  destruct (b64decode (fileContent request)) as [e|payload]; [discriminate|].
  destruct (MAX_FILE_SIZE <? len payload); [discriminate|].
  destruct (get_format_from_filename (req_filename request)) as [fmt|] eqn:Hfmt;
    [|discriminate].
  pose proof Hfmt as Hcase. unfold get_format_from_filename in Hcase.
  apply ext_map_cases in Hcase. cbn [In] in Hcase.
  repeat (destruct Hcase as [Hcase|Hcase];
          [injection Hcase as Hext <-|]); [..|contradiction].
  all: repeat match type of Hret with
       | context [existsb ?f ?l] =>
           let v := eval vm_compute in (existsb f l) in
           change (existsb f l) with v in Hret
       | context [if str_eqb ?a ?b then _ else _] =>
           let v := eval vm_compute in (str_eqb a b) in
           change (str_eqb a b) with v in Hret
       end; cbv iota in Hret.
  all: try (destruct avail; [|discriminate]; destruct conv as [c|]; [|discriminate]).
  all: pose proof (respond_document _ _ _ _ _ Hret Hdoc) as Hn; clear Hret Hdoc.
  all: try (apply parse_with_docling_metadata in Hn as [Hfn [Hp [_ Hf]]];
            rewrite <- Hext in Hf; rewrite Hfn, Hp, Hf; repeat split; reflexivity).
  all: apply decode_then_inv in Hn as [text [_ Hn]].
  all: lazymatch type of Hn with
       | returns (parse_markdown_content _ _) _ _ =>
           apply parse_markdown_content_metadata in Hn as [sb [_ [_ [Hf [Hfn Hp]]]]]
       | returns (parse_txt_content _ _) _ _ =>
           apply parse_txt_content_metadata in Hn as [sb [_ [_ [Hf [Hfn [Hp _]]]]]]
       | returns (parse_html_content _ _ _) _ _ =>
           apply parse_html_content_metadata in Hn as [sb [_ [_ [Hf [Hfn Hp]]]]]
       end;
       rewrite Hfn, Hp, Hf; repeat split; reflexivity.
Qed.

Lemma parse_document_metadata_witness :
  exists r doc,
    fst (parse (yields polyglot_utf8) None false None polyglot_request w0) = Returns r
    /\ document r = Some doc
    /\ filename (metadata doc) = u "notes.md"
    /\ format (metadata doc) = u "md"
    /\ parser (metadata doc) = u "native-md".
Proof.
  destruct polyglot_response as [doc [ms E]].
  exists {| r_success := true; document := Some doc; error := None;
            processingTimeMs := ms |}, doc.
  split; [exact E|]. split; [reflexivity|].
  destruct (parse_document_metadata (yields polyglot_utf8) None false None
              polyglot_request w0 _ doc E eq_refl) as [Hfn [Hf Hp]].
  assert (H : Some (format (metadata doc)) = Some (u "md"))
    by (rewrite <- Hf; vm_compute; reflexivity).
  injection H as H.
  split; [exact Hfn|]. split; [exact H|].
  rewrite Hp, H. vm_compute. reflexivity.
Defined.

(** ** HTML without a parser *)

(** X22.  When [bs4] cannot be imported, an HTML request is not refused: the
    response carries a document without blocks and outline, whose
    [fullText] is the decoded payload and whose only warning is
    [BEAUTIFULSOUP_MISSING], of severity [error]; [success] is false and
    [error] is absent. *)
Theorem html_without_parser_returns_raw_text :
  forall (b64decode : str -> result bytes)
         (DOCLING_AVAILABLE : bool)
         (converter : option Docling.DocumentConverter)
         (request : ParseRequest) (payload : bytes) (w : world),
    b64decode (fileContent request) = inr payload ->
    len payload <= MAX_FILE_SIZE ->
    get_format_from_filename (req_filename request) = Some (u "html") ->
    encodable (req_filename request) ->
    exists text doc ms,
      decode payload Replace = inr text
      /\ fst (parse b64decode None DOCLING_AVAILABLE converter request w)
         = Returns {| r_success := false; document := Some doc;
                      error := None; processingTimeMs := ms |}
      /\ blocks doc = [] /\ outline doc = []
      /\ fullText doc = text
      /\ map (fun x => (w_code x, severity x)) (warnings doc)
         = [(u "BEAUTIFULSOUP_MISSING", u "error")].
Proof.
  intros b64decode avail conv request payload w Hb64 Hsize Hfmt Hname.
  destruct (decode_replace_total payload) as [text [Hdec Henc]].
  unfold parse. cbn [read_clock]. rewrite Hb64.
  replace (MAX_FILE_SIZE <? len payload) with false
    by (symmetry; apply Z.ltb_ge; exact Hsize).
  rewrite Hfmt. set (w1 := World (S (reads w)) (wall w)).
  destruct (parse_html_content_total None text (req_filename request) w1
              Henc Hname) as [doc Hdoc]; [discriminate|].
  change (existsb _ _) with false.
  change (str_eqb (u "html") (u "txt")) with false.
  change (str_eqb (u "html") (u "html")) with true. cbv iota.
  destruct (respond_returns (wall w (reads w))
              (content <- lift (decode payload Replace) ;;
               parse_html_content None content (req_filename request)) w1 doc)
    as [ms Hms].
  { now apply (decode_then payload text
                 (fun c => parse_html_content None c (req_filename request))). }
  exists text, doc, ms. split; [exact Hdec|].
  apply parse_html_content_returns in Hdoc as [Hb [Ho [Hft [Hw Hs]]]].
  rewrite Hms, Hs, Hw. repeat split; assumption.
Qed.

Lemma html_without_parser_witness :
  exists doc ms,
    fst (parse (yields html_bytes) None false None
               (request_of "PHA+SGk8L3A+" "page.htm") w0)
    = Returns {| r_success := false; document := Some doc;
                 error := None; processingTimeMs := ms |}
    /\ blocks doc = []
    /\ fullText doc = u "<p>Hi</p>".
Proof.
  destruct (html_without_parser_returns_raw_text (yields html_bytes) false None
              (request_of "PHA+SGk8L3A+" "page.htm") html_bytes w0)
    as [text [doc [ms [Hdec [Hret [Hb [_ [Hft _]]]]]]]].
  - reflexivity.
  - vm_compute. discriminate.
  - vm_compute. reflexivity.
  - eexists. vm_compute. reflexivity.
  - exists doc, ms. split; [exact Hret|]. split; [exact Hb|].
    rewrite Hft.
    assert (H : inr text = inr (u "<p>Hi</p>") :> result str)
      by (rewrite <- Hdec; vm_compute; reflexivity).
    now injection H.
Defined.

(** ** What the service advertises, and what [parse] does *)

Lemma respond_returns_some (start_time : Q) (normalize : M ParsedDocument)
    (w : world) :
  exists r, fst (respond start_time normalize w) = Returns r.
Proof.
  destruct (respond_cases start_time normalize w) as [ms ->].
  destruct (fst (normalize w)); eexists; reflexivity.
Qed.

(** X23.  Every format [parse] detects is listed by [get_formats] as
    supported, and is either a native format or one of the four backend
    formats.  A request in a native format is always answered with a
    response, and so is one in a listed backend format when the converter
    is loaded.  When the backend can be imported but its converter failed
    to load, [get_formats] still lists the backend formats and [health]
    still reports [ok] and [ready], while [parse] answers such a request
    with 503. *)
Theorem advertised_formats_and_parse :
  forall (b64decode : str -> result bytes)
         (BeautifulSoup : option (str -> result Bs4.tag))
         (DOCLING_AVAILABLE : bool)
         (converter : option Docling.DocumentConverter)
         (request : ParseRequest) (payload : bytes) (fmt : str) (w : world),
    b64decode (fileContent request) = inr payload ->
    len payload <= MAX_FILE_SIZE ->
    get_format_from_filename (req_filename request) = Some fmt ->
    let listing := get_formats DOCLING_AVAILABLE in
    let outcome :=
      fst (parse b64decode BeautifulSoup DOCLING_AVAILABLE converter request w) in
    In fmt (fl_supportedFormats listing)
    /\ (In fmt (nativeFormats listing) \/ In fmt (doclingFormats (get_formats true)))
    /\ (In fmt (nativeFormats listing) -> exists r, outcome = Returns r)
    /\ (In fmt (doclingFormats listing) -> converter <> None ->
        exists r, outcome = Returns r)
    /\ (In fmt (doclingFormats listing) -> converter = None ->
        status (health DOCLING_AVAILABLE converter) = u "ok"
        /\ ready (health DOCLING_AVAILABLE converter) = true
        /\ exists detail, outcome = HTTPException 503 detail).
Proof.
  intros b64decode bs4 avail conv request payload fmt w Hb64 Hsize Hfmt
         listing outcome.
  subst listing outcome.
  pose proof (get_format_known _ _ Hfmt) as Hknown.
  split; [exact Hknown|].
  split; [unfold SUPPORTED_FORMATS in Hknown; cbn in Hknown |- *;
          destruct avail; tauto|].
  unfold parse. cbn [read_clock]. rewrite Hb64.
  replace (MAX_FILE_SIZE <? len payload) with false
    by (symmetry; apply Z.ltb_ge; exact Hsize).
  rewrite Hfmt. split; [|split].
  - cbn [get_formats nativeFormats In].
    intros [<-|[<-|[<-|[]]]];
      match goal with
      | |- context [existsb ?f ?l] =>
          let v := eval vm_compute in (existsb f l) in
          change (existsb f l) with v
      end;
      repeat match goal with
      | |- context [if str_eqb ?a ?b then _ else _] =>
          let v := eval vm_compute in (str_eqb a b) in
          change (str_eqb a b) with v
      end; cbv iota; apply respond_returns_some.
  - intros Hin Hconv. destruct avail; [|contradiction].
    destruct (binary_not_native fmt Hin) as [-> [-> ->]].
    destruct conv as [c|]; [|congruence]. apply respond_returns_some.
  - intros Hin ->. destruct avail; [|contradiction].
    destruct (binary_not_native fmt Hin) as [-> [-> ->]].
    split; [reflexivity|]. split; [reflexivity|]. eexists. reflexivity.
Qed.

Lemma advertised_formats_witness :
  In (u "pdf") (doclingFormats (get_formats true))
  /\ status (health true None) = u "ok"
  /\ ready (health true None) = true
  /\ exists detail,
       fst (parse (yields pdf_bytes) None true None
                  (request_of "JVBERg==" "report.pdf") w0)
       = HTTPException 503 detail.
Proof.
  destruct (advertised_formats_and_parse (yields pdf_bytes) None true None
              (request_of "JVBERg==" "report.pdf") pdf_bytes (u "pdf") w0)
    as [_ [_ [_ [_ H]]]].
  - reflexivity.
  - vm_compute. discriminate.
  - vm_compute. reflexivity.
  - split; [left; reflexivity|]. apply H; [left; reflexivity|reflexivity].
Defined.
